(** * Vault/store reconciliation of obsidian-task-master

    A shallow embedding of the reconciliation core of the repository:
    - [scripts/modules/task-manager/obsidian-sync.js]
      (extraction, conflict detection, the two directional passes, the
      markdown projector, the import, the initialisation of a vault, the
      status report and the scan),
    - [scripts/modules/task-manager/parse-obsidian-notes.js]
      (identifier remapping of generated drafts),
    - the identifier helpers [formatTaskId] and [resolveObsidianLink] given in
      [Task-master fork plan/modificacoes-sistema-dependencias-obsidian.md].

    Conventions of the embedding.
    - A JavaScript string is a [string]; its code units are the 256 values of
      [ascii], so texts are Latin-1.  The line terminators seen by the
      regular expressions are line feed and carriage return.
    - A JavaScript number used as an identifier or a counter is a [Z];
      the sum that gives a new id in the from-text passes and in the import
      is rounded to the nearest double ([jsAdd]).
    - A property that may be missing from an object is an [option].
    - The host's [Date] parsing is a parameter of the development: a function
      from strings to an optional time value in milliseconds, [None] standing
      for an invalid date.
    - The vault is the list of its markdown files in the order [glob.sync]
      returns them; the file system is a finite map from paths to contents,
      with the set of directories and the set of paths whose access throws.
    - [new Date().toISOString()] is a clock indexed by the turn of the loop
      that reads it. *)

From Stdlib Require Import ZArith String Ascii List Lia Bool.
From stdpp Require Import gmap strings.
Import ListNotations.
Local Open Scope string_scope.
Local Open Scope list_scope.
Local Open Scope Z_scope.

(** ** JavaScript string primitives *)

Module JsString.

Definition isLineTerminator (c : ascii) : bool :=
  (c =? "010")%char || (c =? "013")%char.

(** Latin-1 white space removed by [String.prototype.trim]. *)
Definition isWhiteSpace (c : ascii) : bool :=
  (c =? "009")%char || (c =? "010")%char || (c =? "011")%char ||
  (c =? "012")%char || (c =? "013")%char || (c =? " ")%char ||
  (c =? "160")%char.

Definition isDigit (c : ascii) : bool :=
  let n := nat_of_ascii c in (48 <=? n)%nat && (n <=? 57)%nat.

Definition isUpper (c : ascii) : bool :=
  let n := nat_of_ascii c in (65 <=? n)%nat && (n <=? 90)%nat.

Definition isLower (c : ascii) : bool :=
  let n := nat_of_ascii c in (97 <=? n)%nat && (n <=? 122)%nat.

(** [\w] of a regular expression. *)
Definition isWord (c : ascii) : bool :=
  isUpper c || isLower c || isDigit c || (c =? "_")%char.

(** The capital letters of Latin-1 beyond ASCII: 192 to 222 but for the
    multiplication sign. *)
Definition isUpperLatin1 (c : ascii) : bool :=
  let n := nat_of_ascii c in
  (192 <=? n)%nat && (n <=? 222)%nat && negb (n =? 215)%nat.

Definition lowerChar (c : ascii) : ascii :=
  if isUpper c || isUpperLatin1 c then ascii_of_nat (nat_of_ascii c + 32) else c.

Fixpoint toLowerCase (s : string) : string :=
  match s with
  | EmptyString => EmptyString
  | String c r => String (lowerChar c) (toLowerCase r)
  end.

Fixpoint trimStart (s : string) : string :=
  match s with
  | String c r => if isWhiteSpace c then trimStart r else s
  | EmptyString => EmptyString
  end.

(** [trimEnd] keeps a character when it is not white space or when
    something is kept after it. *)
Fixpoint trimEnd (s : string) : string :=
  match s with
  | EmptyString => EmptyString
  | String c r =>
      match trimEnd r with
      | EmptyString => if isWhiteSpace c then EmptyString else String c EmptyString
      | r' => String c r'
      end
  end.

Definition trim (s : string) : string := trimEnd (trimStart s).

(** [stripPrefix p s] is the rest of [s] after its prefix [p]. *)
Fixpoint stripPrefix (p s : string) : option string :=
  match p, s with
  | EmptyString, _ => Some s
  | String a p', String b s' => if (a =? b)%char then stripPrefix p' s' else None
  | String _ _, EmptyString => None
  end.

Definition startsWith (s p : string) : bool :=
  match stripPrefix p s with Some _ => true | None => false end.

Fixpoint includes (s sub : string) : bool :=
  startsWith s sub ||
  match s with
  | EmptyString => false
  | String _ r => includes r sub
  end.

Fixpoint drop (n : nat) (s : string) : string :=
  match n, s with
  | O, _ => s
  | S n', String _ r => drop n' r
  | S _, EmptyString => EmptyString
  end.

Fixpoint take (n : nat) (s : string) : string :=
  match n, s with
  | O, _ => EmptyString
  | S n', String c r => String c (take n' r)
  | S _, EmptyString => EmptyString
  end.

Definition endsWith (s p : string) : bool :=
  (String.length p <=? String.length s)%nat &&
  String.eqb (drop (String.length s - String.length p) s) p.

(** [s.slice(2, -2)] *)
Definition slice_2_m2 (s : string) : string :=
  take (String.length s - 2 - 2) (drop 2 s).

(** A string is truthy when it is not empty. *)
Definition truthy (s : string) : bool :=
  match s with EmptyString => false | _ => true end.

Definition truthyOpt (o : option string) : bool :=
  match o with Some s => truthy s | None => false end.

Fixpoint join (sep : string) (l : list string) : string :=
  match l with
  | [] => ""
  | [x] => x
  | x :: r => x +:+ sep +:+ join sep r
  end.

Fixpoint concat (l : list string) : string :=
  match l with
  | [] => ""
  | x :: r => x +:+ concat r
  end.

Fixpoint mapChars (f : ascii -> ascii) (s : string) : string :=
  match s with
  | EmptyString => EmptyString
  | String c r => String (f c) (mapChars f r)
  end.

(** Decimal digits of a natural number, most significant first. *)
Fixpoint digitsFuel (fuel : nat) (n : N) (acc : string) : string :=
  match fuel with
  | O => acc
  | S fuel' =>
      let d := ascii_of_N (48 + N.modulo n 10) in
      let q := N.div n 10 in
      if (q =? 0)%N then String d acc else digitsFuel fuel' q (String d acc)
  end.

(** [Number.prototype.toString] on an integer. *)
Definition numberToString (z : Z) : string :=
  let n := Z.abs_N z in
  let ds := digitsFuel (S (N.to_nat (N.log2 n))) n "" in
  if z <? 0 then String "-" ds else ds.

Fixpoint repeatChar (n : nat) (c : ascii) : string :=
  match n with O => "" | S n' => String c (repeatChar n' c) end.

(** [s.padStart(n, c)] for a one-character pad. *)
Definition padStart (n : nat) (c : ascii) (s : string) : string :=
  repeatChar (n - String.length s) c +:+ s.

End JsString.

Import JsString.

(** ** Dates

    [Date_parse] stands for what [new Date(string).getTime()] yields;
    [None] is an invalid date, whose comparisons are all false. *)

Definition dateGt (a b : option Z) : bool :=
  match a, b with
  | Some x, Some y => y <? x
  | _, _ => false
  end.

(** A parser for the format written by [toISOString],
    [YYYY-MM-DDTHH:mm:ss.sssZ], used to instantiate [Date_parse]. *)
Module Iso.

Definition digitVal (c : ascii) : option Z :=
  if isDigit c then Some (Z.of_nat (nat_of_ascii c) - 48) else None.

Fixpoint number (n : nat) (acc : Z) (s : string) : option (Z * string) :=
  match n with
  | O => Some (acc, s)
  | S n' =>
      match s with
      | String c r =>
          match digitVal c with
          | Some d => number n' (10 * acc + d) r
          | None => None
          end
      | EmptyString => None
      end
  end.

Definition expect (c : ascii) (s : string) : option string :=
  match s with
  | String d r => if (c =? d)%char then Some r else None
  | EmptyString => None
  end.

Definition isLeap (y : Z) : bool :=
  ((y mod 4 =? 0) && negb (y mod 100 =? 0)) || (y mod 400 =? 0).

Definition daysInMonth (y m : Z) : Z :=
  if m =? 2 then (if isLeap y then 29 else 28)
  else if (m =? 4) || (m =? 6) || (m =? 9) || (m =? 11) then 30 else 31.

(** Days between 1970-01-01 and the civil date [y-m-d]. *)
Definition daysFromCivil (y m d : Z) : Z :=
  let y' := if m <=? 2 then y - 1 else y in
  let era := y' / 400 in
  let yoe := y' - era * 400 in
  let mp := if 2 <? m then m - 3 else m + 9 in
  let doy := (153 * mp + 2) / 5 + d - 1 in
  let doe := yoe * 365 + yoe / 4 - yoe / 100 + doy in
  era * 146097 + doe - 719468.

Definition parse (s : string) : option Z :=
  match number 4 0 s with
  | Some (y, s) =>
  match expect "-" s with Some s =>
  match number 2 0 s with Some (mo, s) =>
  match expect "-" s with Some s =>
  match number 2 0 s with Some (d, s) =>
  match expect "T" s with Some s =>
  match number 2 0 s with Some (h, s) =>
  match expect ":" s with Some s =>
  match number 2 0 s with Some (mi, s) =>
  match expect ":" s with Some s =>
  match number 2 0 s with Some (sec, s) =>
  match expect "." s with Some s =>
  match number 3 0 s with Some (ms, s) =>
    if String.eqb s "Z" && (1 <=? mo) && (mo <=? 12) && (1 <=? d)
       && (d <=? daysInMonth y mo) && (h <=? 23) && (mi <=? 59) && (sec <=? 59)
    then Some ((((daysFromCivil y mo d * 24 + h) * 60 + mi) * 60 + sec) * 1000 + ms)
    else None
  | None => None end | None => None end | None => None end | None => None end
  | None => None end | None => None end | None => None end | None => None end
  | None => None end | None => None end | None => None end | None => None end
  | None => None
  end.

End Iso.

(** ** Data model *)

Record subtask := {
  st_id : Z;
  st_title : string
}.

(** A task of the canonical store ([tasks.json]). *)
Record task := {
  id : Z;
  title : string;
  status : string;
  sourceFile : string;
  description : string;
  priority : string;
  dependencies : list Z;
  obsidianTags : list string;
  linkedNotes : list string;
  details : string;
  testStrategy : string;
  subtasks : list subtask;
  syncStatus : string;
  lastSyncAt : option string;
  lastModified : option string;
  vaultLocation : option string
}.

(** A record read from the vault.  The extractor fills the first ten fields;
    [hasConflict] also looks for [lastModified] and [lastSyncAt]. *)
Record vaultTask := {
  v_title : string;
  v_status : string;
  v_sourceFile : string;
  v_description : string;
  v_priority : string;
  v_dependencies : list Z;
  v_obsidianTags : list string;
  v_linkedNotes : list string;
  v_details : string;
  v_testStrategy : string;
  v_lastModified : option string;
  v_lastSyncAt : option string
}.

(** ** Conflict detection *)

Section Conflict.

Variable Date_parse : string -> option Z.

(** [new Date(taskB.lastModified || taskB.lastSyncAt || 0)] *)
Definition taskTime (b : vaultTask) : option Z :=
  if truthyOpt (v_lastModified b) then
    match v_lastModified b with Some s => Date_parse s | None => None end
  else if truthyOpt (v_lastSyncAt b) then
    match v_lastSyncAt b with Some s => Date_parse s | None => None end
  else Some 0.

Definition hasConflict (a : task) (b : vaultTask) : bool :=
  if negb (truthyOpt (lastSyncAt a)) then false
  else
    let syncTime := match lastSyncAt a with Some s => Date_parse s | None => None end in
    dateGt (taskTime b) syncTime &&
    (negb (String.eqb (title a) (v_title b)) ||
     negb (String.eqb (status a) (v_status b)) ||
     negb (String.eqb (description a) (v_description b))).

End Conflict.

(** ** Text record extractor *)

(** The lines of a text: the maximal runs between line terminators. *)
Fixpoint lines (s : string) : list string :=
  match s with
  | EmptyString => [EmptyString]
  | String c r =>
      if isLineTerminator c then EmptyString :: lines r
      else match lines r with
           | l :: ls => String c l :: ls
           | [] => [String c EmptyString]
           end
  end.

(** A match of [/^- \[([ x])\] (.+)$/] on one line: the line is the whole
    match, and the result is the text after the six-character prefix, which
    is also what [match.replace(/^- \[([ x])\] /, '')] leaves. *)
Definition checkboxText (l : string) : option string :=
  match l with
  | String "-" (String " " (String "[" (String c (String "]" (String " " r))))) =>
      if ((c =? " ")%char || (c =? "x")%char) && truthy r then Some r else None
  | _ => None
  end.

(** [content.match(/#\w+/g)] followed by [substring(1)]: [cur] is the word
    read so far after a [#]. *)
Fixpoint tagsFrom (cur : option string) (s : string) : list string :=
  let flush :=
    match cur with
    | Some w => if truthy w then [w] else []
    | None => []
    end in
  match s with
  | EmptyString => flush
  | String c r =>
      match cur with
      | Some w =>
          if isWord c then tagsFrom (Some (w +:+ String c EmptyString)) r
          else flush ++ tagsFrom (if (c =? "#")%char then Some EmptyString else None) r
      | None => tagsFrom (if (c =? "#")%char then Some EmptyString else None) r
      end
  end.

Definition extractTagsFromContent (content : string) : list string :=
  tagsFrom None content.

(** The longest prefix without a closing bracket, for [[^\]]+]. *)
Fixpoint notBracketRun (s : string) : string :=
  match s with
  | String c r => if (c =? "]")%char then EmptyString else String c (notBracketRun r)
  | EmptyString => EmptyString
  end.

(** A match of [/\[\[([^\]]+)\]\]/] at the head of [s]. *)
Definition linkAt (s : string) : option string :=
  match stripPrefix "[[" s with
  | Some r =>
      let run := notBracketRun r in
      if truthy run && startsWith (drop (String.length run) r) "]]"
      then Some ("[[" +:+ run +:+ "]]")
      else None
  | None => None
  end.

(** [content.match(/\[\[([^\]]+)\]\]/g)]: [skip] counts the characters of
    the last match still to pass. *)
Fixpoint linksFrom (skip : nat) (s : string) : list string :=
  match s with
  | EmptyString => []
  | String _ r =>
      match skip with
      | S k => linksFrom k r
      | O =>
          match linkAt s with
          | Some m => m :: linksFrom (String.length m - 1) r
          | None => linksFrom 0 r
          end
      end
  end.

Definition extractLinksFromContent (content : string) : list string :=
  linksFrom 0 content.

(** A markdown file of the vault: its path relative to the vault and its
    content, [None] when reading it throws. *)
Definition vaultFile : Type := string * option string.

Definition tasksOfFile (file content : string) : list vaultTask :=
  flat_map
    (fun l =>
       match checkboxText l with
       | Some taskText =>
           [ {| v_title := taskText;
                v_status := if includes l "[x]" then "done" else "pending";
                v_sourceFile := file;
                v_description := taskText;
                v_priority := "medium";
                v_dependencies := [];
                v_obsidianTags := extractTagsFromContent content;
                v_linkedNotes := extractLinksFromContent content;
                v_details := "";
                v_testStrategy := "";
                v_lastModified := None;
                v_lastSyncAt := None |} ]
       | None => []
       end)
    (lines content).

Definition extractTasksFromVault (vault : list vaultFile) : list vaultTask :=
  flat_map
    (fun f =>
       match snd f with
       | Some content => tasksOfFile (fst f) content
       | None => []
       end)
    vault.

(** ** Reconciliation engine: the from-text passes *)

(** [Array.prototype.find], with the position of the element found: the
    element is an object of the array, later updated in place. *)
Fixpoint findFrom {A : Type} (p : A -> bool) (i : nat) (l : list A) : option (nat * A) :=
  match l with
  | [] => None
  | x :: r => if p x then Some (i, x) else findFrom p (S i) r
  end.

Definition findIndexed {A : Type} (p : A -> bool) (l : list A) : option (nat * A) :=
  findFrom p 0 l.

(** [Object.assign(existingTask, vaultTask,
      { id: existingTask.id, syncStatus: 'synced', lastSyncAt: stamp })] *)
Definition assignFromVault (e : task) (v : vaultTask) (stamp : string) : task :=
  {| id := id e;
     title := v_title v;
     status := v_status v;
     sourceFile := v_sourceFile v;
     description := v_description v;
     priority := v_priority v;
     dependencies := v_dependencies v;
     obsidianTags := v_obsidianTags v;
     linkedNotes := v_linkedNotes v;
     details := v_details v;
     testStrategy := v_testStrategy v;
     subtasks := subtasks e;
     syncStatus := "synced";
     lastSyncAt := Some stamp;
     lastModified :=
       match v_lastModified v with Some m => Some m | None => lastModified e end;
     vaultLocation := vaultLocation e |}.

(** [{ ...vaultTask, id: newId, syncStatus: 'synced', lastSyncAt: stamp }] *)
Definition taskFromVault (v : vaultTask) (newId : Z) (stamp : string) : task :=
  {| id := newId;
     title := v_title v;
     status := v_status v;
     sourceFile := v_sourceFile v;
     description := v_description v;
     priority := v_priority v;
     dependencies := v_dependencies v;
     obsidianTags := v_obsidianTags v;
     linkedNotes := v_linkedNotes v;
     details := v_details v;
     testStrategy := v_testStrategy v;
     subtasks := [];
     syncStatus := "synced";
     lastSyncAt := Some stamp;
     lastModified := v_lastModified v;
     vaultLocation := None |}.

(** [existingTask.syncStatus = 'conflict'] *)
Definition markConflict (e : task) : task :=
  {| id := id e;
     title := title e;
     status := status e;
     sourceFile := sourceFile e;
     description := description e;
     priority := priority e;
     dependencies := dependencies e;
     obsidianTags := obsidianTags e;
     linkedNotes := linkedNotes e;
     details := details e;
     testStrategy := testStrategy e;
     subtasks := subtasks e;
     syncStatus := "conflict";
     lastSyncAt := lastSyncAt e;
     lastModified := lastModified e;
     vaultLocation := vaultLocation e |}.

(** The tally of a pass.  [errors] pairs the task (its id or its title, as a
    string) with the message of the exception caught. *)
Record syncResults := {
  updated : nat;
  created : nat;
  conflicts : nat;
  errors : list (string * string)
}.

Definition noResults : syncResults :=
  {| updated := 0; created := 0; conflicts := 0; errors := [] |}.

Definition incUpdated (r : syncResults) : syncResults :=
  {| updated := S (updated r); created := created r;
     conflicts := conflicts r; errors := errors r |}.

Definition incCreated (r : syncResults) : syncResults :=
  {| updated := updated r; created := S (created r);
     conflicts := conflicts r; errors := errors r |}.

Definition incConflicts (r : syncResults) : syncResults :=
  {| updated := updated r; created := created r;
     conflicts := S (conflicts r); errors := errors r |}.

Definition pushError (who msg : string) (r : syncResults) : syncResults :=
  {| updated := updated r; created := created r;
     conflicts := conflicts r; errors := errors r ++ [(who, msg)] |}.

(** ** Numbers

    An id is a JavaScript number, an IEEE-754 double; an id that is an
    integer is modelled by its value.  [roundToDouble z] is the double
    nearest to the integer [z], a tie going to the even significand: up to
    2^53 in absolute value every integer is a double, beyond it the doubles
    are 2^(e-52) apart, [e] the binary exponent.  The sums of this program
    add a small integer to a double, which never leaves the finite
    doubles. *)
Definition roundToDouble (z : Z) : Z :=
  let a := Z.abs z in
  if a <? 2 ^ 53 then z
  else
    let ulp := 2 ^ (Z.log2 a - 52) in
    let q := a / ulp in
    let r := a mod ulp in
    let up :=
      if 2 * r <? ulp then false
      else if ulp <? 2 * r then true
      else Z.odd q in
    Z.sgn z * ((if up then q + 1 else q) * ulp).

(** [a + b] on numbers. *)
Definition jsAdd (a b : Z) : Z := roundToDouble (a + b).

(** [Math.max(...ids, 0)] *)
Definition maxWithZero (ids : list Z) : Z := fold_right Z.max 0 ids.

(** [Math.max(...ids)] on a non-empty array. *)
Definition maxOf (first : Z) (others : list Z) : Z := fold_right Z.max first others.

Section FromText.

Variable Date_parse : string -> option Z.

(** [now k] is [new Date().toISOString()] while the [k]-th vault record of
    a pass is handled. *)
Variable now : nat -> string.

(** *** [syncWithObsidian], direction from-obsidian *)

(** The predicate of [tasksData.tasks.find] in [syncWithObsidian]. *)
Definition sameKey (v : vaultTask) (t : task) : bool :=
  String.eqb (sourceFile t) (v_sourceFile v) && String.eqb (title t) (v_title v).

(** [Math.max(...tasksData.tasks.map(t => t.id), 0) + 1] *)
Definition nextIdWith (tasks : list task) : Z :=
  jsAdd (maxWithZero (map id tasks)) 1.

(** One turn of the loop over [vaultTasks]. *)
Definition fromStepWith (k : nat) (st : list task * syncResults) (v : vaultTask)
  : list task * syncResults :=
  let '(tasks, res) := st in
  match findIndexed (sameKey v) tasks with
  | Some (i, existingTask) =>
      if hasConflict Date_parse existingTask v
      then (<[i := markConflict existingTask]> tasks, incConflicts res)
      else (<[i := assignFromVault existingTask v (now k)]> tasks, incUpdated res)
  | None =>
      (tasks ++ [taskFromVault v (nextIdWith tasks) (now k)], incCreated res)
  end.

Fixpoint fromLoopWith (k : nat) (st : list task * syncResults) (vs : list vaultTask)
  : list task * syncResults :=
  match vs with
  | [] => st
  | v :: r => fromLoopWith (S k) (fromStepWith k st v) r
  end.

(** *** [syncTasksFromObsidian] *)

(** The predicate of [tasksData.tasks.find] in [syncTasksFromObsidian]. *)
Definition titleOrFile (v : vaultTask) (t : task) : bool :=
  String.eqb (title t) (v_title v) ||
  (truthy (sourceFile t) && truthy (v_sourceFile v) &&
   String.eqb (sourceFile t) (v_sourceFile v)).

(** [tasks.length > 0 ? Math.max(...ids) + 1 : 1] *)
Definition nextIdFrom (tasks : list task) : Z :=
  match tasks with
  | [] => 1
  | t :: r => jsAdd (maxOf (id t) (map id r)) 1
  end.

Definition fromStep (dryRun : bool) (k : nat) (st : list task * syncResults)
  (v : vaultTask) : list task * syncResults :=
  let '(tasks, res) := st in
  match findIndexed (titleOrFile v) tasks with
  | Some (i, existingTask) =>
      if hasConflict Date_parse existingTask v
      then ((if dryRun then tasks else <[i := markConflict existingTask]> tasks),
            incConflicts res)
      else ((if dryRun then tasks
             else <[i := assignFromVault existingTask v (now k)]> tasks),
            incUpdated res)
  | None =>
      ((if dryRun then tasks
        else tasks ++ [taskFromVault v (nextIdFrom tasks) (now k)]),
       incCreated res)
  end.

Fixpoint fromLoop (dryRun : bool) (k : nat) (st : list task * syncResults)
  (vs : list vaultTask) : list task * syncResults :=
  match vs with
  | [] => st
  | v :: r => fromLoop dryRun (S k) (fromStep dryRun k st v) r
  end.

(** What a pass returns and what it hands to [writeJSON], if anything. *)
Record fromOutcome := {
  tally : syncResults;
  written : option (list task)
}.

(** [syncTasksFromObsidian] after the vault was read: [vaultTasks] is the
    extractor's output, [stored] what [readJSON] gives for the tag ([None]
    when it returns nothing usable or throws). *)
Definition syncTasksFromObsidian (dryRun : bool) (stored : option (list task))
  (vaultTasks : list vaultTask) : fromOutcome :=
  match vaultTasks with
  | [] => {| tally := noResults; written := None |}
  | _ =>
      let tasks0 := match stored with Some ts => ts | None => [] end in
      let '(tasks, res) := fromLoop dryRun 0 (tasks0, noResults) vaultTasks in
      {| tally := res;
         written :=
           if negb dryRun && ((0 <? created res)%nat || (0 <? updated res)%nat)
           then Some tasks else None |}
  end.

(** The store document of the tag after a pass. *)
Definition persisted (stored : option (list task)) (o : fromOutcome)
  : option (list task) :=
  match written o with
  | Some ts => Some ts
  | None => stored
  end.

End FromText.

(** ** Text projector *)

Definition nl : string := String "010" EmptyString.
Definition dquote : string := String "034" EmptyString.

(** [task.status === 'done' ? '[x]' : '[ ]'] *)
Definition checkboxOf (t : task) : string :=
  if String.eqb (status t) "done" then "[x]" else "[ ]".

(** [a || b] on strings. *)
Definition orElse (a b : string) : string := if truthy a then a else b.

Definition nonEmpty {A : Type} (l : list A) : bool :=
  match l with [] => false | _ => true end.

Definition generateMarkdownForTask (t : task) : string :=
  let frontmatter :=
    if nonEmpty (obsidianTags t) || nonEmpty (linkedNotes t) || negb (id t =? 0)
    then
      "---" +:+ nl +:+
      (if nonEmpty (obsidianTags t)
       then "tags: [" +:+
            join ", " (map (fun tag => dquote +:+ tag +:+ dquote) (obsidianTags t)) +:+
            "]" +:+ nl
       else "") +:+
      "task_id: " +:+ numberToString (id t) +:+ nl +:+
      "priority: " +:+ orElse (priority t) "medium" +:+ nl +:+
      "status: " +:+ orElse (status t) "pending" +:+ nl +:+
      "---" +:+ nl +:+ nl
    else "" in
  frontmatter +:+
  "# " +:+ title t +:+ nl +:+ nl +:+
  "- " +:+ checkboxOf t +:+ " " +:+ title t +:+ nl +:+ nl +:+
  (if truthy (description t)
   then "## Description" +:+ nl +:+ description t +:+ nl +:+ nl else "") +:+
  (if truthy (details t)
   then "## Details" +:+ nl +:+ details t +:+ nl +:+ nl else "") +:+
  (if truthy (testStrategy t)
   then "## Test Strategy" +:+ nl +:+ testStrategy t +:+ nl +:+ nl else "") +:+
  (if nonEmpty (dependencies t)
   then "## Dependencies" +:+ nl +:+
        concat (map (fun depId => "- Task " +:+ numberToString depId +:+ nl)
                    (dependencies t)) +:+ nl
   else "") +:+
  (if nonEmpty (linkedNotes t)
   then "## Related Notes" +:+ nl +:+
        concat (map (fun link => "- " +:+ link +:+ nl) (linkedNotes t)) +:+ nl
   else "").

(** *** The checkbox pattern of [updateTaskInMarkdown] *)

(** The characters of [/[.*+?^${}()|[\]\\]/]. *)
Definition isRegexSpecial (c : ascii) : bool :=
  (c =? ".")%char || (c =? "*")%char || (c =? "+")%char || (c =? "?")%char ||
  (c =? "^")%char || (c =? "$")%char || (c =? "{")%char || (c =? "}")%char ||
  (c =? "(")%char || (c =? ")")%char || (c =? "|")%char || (c =? "[")%char ||
  (c =? "]")%char || (c =? "\")%char.

(** [string.replace(/[.*+?^${}()|[\]\\]/g, '\\$&')] *)
Fixpoint escapeRegex (s : string) : string :=
  match s with
  | EmptyString => EmptyString
  | String c r =>
      if isRegexSpecial c then String "\" (String c (escapeRegex r))
      else String c (escapeRegex r)
  end.

(** The text matched by a pattern source made of ordinary characters and of
    backslash-escaped syntax characters; [None] for any other source. *)
Fixpoint literalOfSource (src : string) : option string :=
  match src with
  | EmptyString => Some EmptyString
  | String "\" (String c r) =>
      if isRegexSpecial c
      then match literalOfSource r with Some l => Some (String c l) | None => None end
      else None
  | String c r =>
      if isRegexSpecial c then None
      else match literalOfSource r with Some l => Some (String c l) | None => None end
  end.

(** [$] under the [m] flag, at the head of [s]. *)
Definition atLineEnd (s : string) : bool :=
  match s with
  | EmptyString => true
  | String c _ => isLineTerminator c
  end.

(** The class [[ x]]. *)
Definition isBox (c : ascii) : bool := (c =? " ")%char || (c =? "x")%char.

(** A match of [- \[([ x])\] <title>$] at the head of [s], the title read
    literally as [escapeRegex] has it: the character captured and the text
    after the match. *)
Definition matchHere (ttl s : string) : option (ascii * string) :=
  match stripPrefix "- [" s with
  | Some (String c r) =>
      if isBox c then
        match stripPrefix ("] " +:+ ttl) r with
        | Some rest => if atLineEnd rest then Some (c, rest) else None
        | None => None
        end
      else None
  | _ => None
  end.

(** The first match of [^- \[([ x])\] <title>$] under the [m] flag: the text
    before it, the character captured, the text after it.  [bol] tells
    whether [^] holds at the head of [s]. *)
Fixpoint searchFrom (ttl : string) (bol : bool) (s : string)
  : option (string * ascii * string) :=
  match (if bol then matchHere ttl s else None) with
  | Some (c, rest) => Some (EmptyString, c, rest)
  | None =>
      match s with
      | EmptyString => None
      | String a r =>
          match searchFrom ttl (isLineTerminator a) r with
          | Some (before, c, rest) => Some (String a before, c, rest)
          | None => None
          end
      end
  end.

Definition taskRegexExec (ttl content : string) : option (string * ascii * string) :=
  searchFrom ttl true content.

(** The replacement text of [String.prototype.replace] for a pattern with
    one capture group and no named group (GetSubstitution): [$$], [$&],
    the two context references, [$1] and [$01] are expanded, any other
    dollar sign stays. *)
Fixpoint getSubstitution (matched before after capture template : string) : string :=
  match template with
  | EmptyString => EmptyString
  | String "$" rest =>
      match rest with
      | String "$" r =>
          String "$" (getSubstitution matched before after capture r)
      | String "&" r =>
          matched +:+ getSubstitution matched before after capture r
      | String "`" r =>
          before +:+ getSubstitution matched before after capture r
      | String "'" r =>
          after +:+ getSubstitution matched before after capture r
      | String "1" r =>
          capture +:+ getSubstitution matched before after capture r
      | String "0" (String "1" r) =>
          capture +:+ getSubstitution matched before after capture r
      | _ => String "$" (getSubstitution matched before after capture rest)
      end
  | String c rest => String c (getSubstitution matched before after capture rest)
  end.

Definition updateTaskInMarkdown (content : string) (t : task) : string :=
  let newCheckbox := checkboxOf t in
  let replacement := "- " +:+ newCheckbox +:+ " " +:+ title t in
  match taskRegexExec (title t) content with
  | Some (before, c, after) =>
      let matched := "- [" +:+ String c "] " +:+ title t in
      before +:+
      getSubstitution matched before after (String c EmptyString) replacement +:+
      after
  | None => content +:+ nl +:+ "- " +:+ newCheckbox +:+ " " +:+ title t +:+ nl
  end.

(** ** File system *)

(** Regular files with their contents, directories, and the paths on which
    any access throws. *)
Record fsys := {
  files : gmap string string;
  dirs : gset string;
  denied : gset string
}.

(** The result of a call that may throw. *)
Inductive io (A : Type) : Type :=
| Done (a : A)
| Threw (message : string).
Arguments Done {A} a.
Arguments Threw {A} message.

Definition existsSync (fs : fsys) (p : string) : bool :=
  match files fs !! p with
  | Some _ => true
  | None => bool_decide (p ∈ dirs fs)
  end.

Definition readFileSync (fs : fsys) (p : string) : io string :=
  if bool_decide (p ∈ denied fs) then Threw "EACCES: permission denied"
  else match files fs !! p with
       | Some c => Done c
       | None =>
           if bool_decide (p ∈ dirs fs)
           then Threw "EISDIR: illegal operation on a directory"
           else Threw "ENOENT: no such file or directory"
       end.

Definition writeFileSync (fs : fsys) (p content : string) : fsys * io unit :=
  if bool_decide (p ∈ denied fs) then (fs, Threw "EACCES: permission denied")
  else if bool_decide (p ∈ dirs fs)
  then (fs, Threw "EISDIR: illegal operation on a directory")
  else ({| files := <[p := content]> (files fs); dirs := dirs fs; denied := denied fs |},
        Done tt).

(** [fs.mkdirSync(d, { recursive: true })]; the directory created stands
    for its missing ancestors too. *)
Definition mkdirSync (fs : fsys) (d : string) : fsys * io unit :=
  if bool_decide (d ∈ denied fs) then (fs, Threw "EACCES: permission denied")
  else match files fs !! d with
       | Some _ => (fs, Threw "EEXIST: file already exists")
       | None => ({| files := files fs; dirs := {[d]} ∪ dirs fs; denied := denied fs |},
                  Done tt)
       end.

(** [path.join] of a directory and a relative path, without normalisation. *)
Definition pathJoin (a b : string) : string := a +:+ "/" +:+ b.

(** The text before the last slash of [s], when [s] has a slash. *)
Fixpoint beforeLastSlash (s : string) : option string :=
  match s with
  | EmptyString => None
  | String c r =>
      match beforeLastSlash r with
      | Some d => Some (String c d)
      | None => if (c =? "/")%char then Some EmptyString else None
      end
  end.

Definition dirname (p : string) : string :=
  match beforeLastSlash p with
  | Some EmptyString => "/"
  | Some d => d
  | None => "."
  end.

(** [if (!fs.existsSync(dir)) fs.mkdirSync(dir, { recursive: true })] *)
Definition ensureDir (fs : fsys) (d : string) : fsys * io unit :=
  if negb (existsSync fs d) then mkdirSync fs d else (fs, Done tt).

(** ** Reconciliation engine: the to-text passes *)

Definition updateMarkdownFile (fs : fsys) (vaultPath : string) (t : task)
  : fsys * io unit :=
  let filePath := pathJoin vaultPath (sourceFile t) in
  if negb (existsSync fs filePath) then
    let content := generateMarkdownForTask t in
    match ensureDir fs (dirname filePath) with
    | (fs1, Done _) => writeFileSync fs1 filePath content
    | (fs1, Threw m) => (fs1, Threw m)
    end
  else
    match readFileSync fs filePath with
    | Done content => writeFileSync fs filePath (updateTaskInMarkdown content t)
    | Threw m => (fs, Threw m)
    end.

(** One turn of the loop over [tasksData.tasks] in [syncWithObsidian]. *)
Definition toStepWith (vaultPath : string) (st : fsys * syncResults) (t : task)
  : fsys * syncResults :=
  let '(fs, res) := st in
  if truthy (sourceFile t) then
    match updateMarkdownFile fs vaultPath t with
    | (fs', Done _) => (fs', incUpdated res)
    | (fs', Threw m) => (fs', pushError (numberToString (id t)) m res)
    end
  else st.

Definition toLoopWith (vaultPath : string) (st : fsys * syncResults) (ts : list task)
  : fsys * syncResults :=
  fold_left (toStepWith vaultPath) ts st.

Definition isAlnum (c : ascii) : bool := isUpper c || isLower c || isDigit c.

(** [title.replace(/[^a-zA-Z0-9]/g, '-').toLowerCase()] *)
Definition slug (ttl : string) : string :=
  toLowerCase (mapChars (fun c => if isAlnum c then c else "-"%char) ttl).

(** [path.join(vaultPath, 'Tasks', `task-${String(id).padStart(3, '0')}-${slug}.md`)] *)
Definition markdownPathOf (vaultPath : string) (t : task) : string :=
  pathJoin (pathJoin vaultPath "Tasks")
    ("task-" +:+ padStart 3 "0" (numberToString (id t)) +:+ "-" +:+ slug (title t) +:+ ".md").

(** One turn of the loop over [tasksData.tasks] in [syncTasksToObsidian]. *)
Definition toStep (dryRun : bool) (vaultPath : string) (st : fsys * syncResults)
  (t : task) : fsys * syncResults :=
  let '(fs, res) := st in
  let markdownPath := markdownPathOf vaultPath t in
  if dryRun then st
  else
    let content := generateMarkdownForTask t in
    match ensureDir fs (dirname markdownPath) with
    | (fs1, Threw m) => (fs1, pushError (numberToString (id t)) m res)
    | (fs1, Done _) =>
        let existed := existsSync fs1 markdownPath in
        match writeFileSync fs1 markdownPath content with
        | (fs2, Done _) => (fs2, if existed then incUpdated res else incCreated res)
        | (fs2, Threw m) => (fs2, pushError (numberToString (id t)) m res)
        end
    end.

(** [syncTasksToObsidian]: [stored] is what [readJSON] gives for the tag. *)
Definition syncTasksToObsidian (dryRun : bool) (stored : option (list task))
  (fs : fsys) (vaultPath : string) : io (fsys * syncResults) :=
  match stored with
  | None => Threw "No tasks data found"
  | Some tasks => Done (fold_left (toStep dryRun vaultPath) tasks (fs, noResults))
  end.

(** ** [syncWithObsidian] *)

Inductive direction := ToObsidian | FromObsidian | Bidirectional | OtherDirection.

Definition goesTo (d : direction) : bool :=
  match d with ToObsidian | Bidirectional => true | _ => false end.

Definition goesFrom (d : direction) : bool :=
  match d with FromObsidian | Bidirectional => true | _ => false end.

Section WholeSync.

Variable Date_parse : string -> option Z.
Variable now : nat -> string.

(** [glob.sync('**/*.md', { cwd: vaultPath })]: the markdown files below a
    directory, relative to it, in the order the library lists them. *)
Variable globMd : fsys -> string -> list string.

Definition readVault (fs : fsys) (vaultPath : string) : list vaultFile :=
  map (fun file =>
         (file,
          match readFileSync fs (pathJoin vaultPath file) with
          | Done content => Some content
          | Threw _ => None
          end))
      (globMd fs vaultPath).

Record syncOutcome := {
  so_fs : fsys;
  so_results : syncResults;
  so_written : option (list task)
}.

Definition syncWithObsidian (stored : option (list task)) (fs : fsys)
  (vaultPath : string) (d : direction) : io syncOutcome :=
  match stored with
  | None => Threw "No tasks data found"
  | Some tasks0 =>
      let '(fs1, res1) :=
        if goesTo d then toLoopWith vaultPath (fs, noResults) tasks0
        else (fs, noResults) in
      if goesFrom d then
        let vaultTasks := extractTasksFromVault (readVault fs1 vaultPath) in
        let '(tasks, res2) := fromLoopWith Date_parse now 0 (tasks0, res1) vaultTasks in
        Done {| so_fs := fs1; so_results := res2; so_written := Some tasks |}
      else Done {| so_fs := fs1; so_results := res1; so_written := None |}
  end.

(** [syncTasksFromObsidian] with the vault read from the file system. *)
Definition syncTasksFromObsidianAt (dryRun : bool) (stored : option (list task))
  (fs : fsys) (vaultPath : string) : fromOutcome :=
  syncTasksFromObsidian Date_parse now dryRun stored
    (extractTasksFromVault (readVault fs vaultPath)).

End WholeSync.

(** ** Identity resolver *)

(** A task identifier as the helpers receive it: a number, a string (a
    dotted subtask id, a cross-reference token, digits), or another value. *)
Inductive ident :=
| IdNum (n : Z)
| IdStr (s : string)
| IdOther.

Definition isLink (s : string) : bool := startsWith s "[[" && endsWith s "]]".

Definition formatTaskId (x : ident) : ident :=
  match x with
  | IdStr s =>
      if includes s "." then x
      else if isLink s then x
      else x
  | IdNum n => IdStr (numberToString n)
  | IdOther => x
  end.

(** [a.toLowerCase() === b.toLowerCase()] guarded by [a] being truthy. *)
Definition titleIs (linkText ttl : string) : bool :=
  truthy ttl && String.eqb (toLowerCase ttl) (toLowerCase linkText).

Definition titleHas (linkText ttl : string) : bool :=
  truthy ttl && includes (toLowerCase ttl) (toLowerCase linkText).

(** The loop over the parent tasks with [subtasks.find] inside, returning
    [`${parentTask.id}.${subtask.id}`]. *)
Fixpoint findSubtask (p : string -> bool) (tasks : list task) : option ident :=
  match tasks with
  | [] => None
  | parentTask :: r =>
      match find (fun st => p (st_title st)) (subtasks parentTask) with
      | Some st =>
          Some (IdStr (numberToString (id parentTask) +:+ "." +:+ numberToString (st_id st)))
      | None => findSubtask p r
      end
  end.

(** [resolveObsidianLink(identifier, tasks, 'to-id')]; [None] is [null],
    and [tasks] is [None] when it is not an array. *)
Definition resolveObsidianLink_to_id (identifier : ident) (tasks : option (list task))
  : option ident :=
  match tasks with
  | None => None
  | Some tasks =>
      match identifier with
      | IdStr s =>
          if isLink s then
            let linkText := trim (slice_2_m2 s) in
            if negb (truthy linkText) then None
            else
              match find (fun t => titleIs linkText (title t)) tasks with
              | Some t => Some (IdNum (id t))
              | None =>
                  match findSubtask (titleIs linkText) tasks with
                  | Some r => Some r
                  | None =>
                      match find (fun t => titleHas linkText (title t)) tasks with
                      | Some t => Some (IdNum (id t))
                      | None =>
                          match findSubtask (titleHas linkText) tasks with
                          | Some r => Some r
                          | None => Some identifier
                          end
                      end
                  end
              end
          else Some identifier
      | _ => Some identifier
      end
  end.

(** *** The resolver as the specification words it *)

Inductive resolution :=
| NotFound
| Resolved (i : ident)
| Unresolved (token : string).

(** Every subtask with its parent's id, parents in order, subtasks in order. *)
Definition subtaskEntries (tasks : list task) : list (Z * subtask) :=
  flat_map (fun p => map (fun st => (id p, st)) (subtasks p)) tasks.

Definition dottedId (e : Z * subtask) : ident :=
  IdStr (numberToString (fst e) +:+ "." +:+ numberToString (st_id (snd e))).

Definition eqNoCase (a b : string) : bool :=
  String.eqb (toLowerCase a) (toLowerCase b).

Definition containsNoCase (a b : string) : bool :=
  includes (toLowerCase a) (toLowerCase b).

(** The first of four attempts that succeeds. *)
Definition firstOf (attempts : list (option ident)) : option ident :=
  fold_right (fun a rest => match a with Some i => Some i | None => rest end)
             None attempts.

Definition resolveToId_spec (token : string) (tasks : list task) : resolution :=
  let inner := trim (slice_2_m2 token) in
  if String.eqb inner "" then NotFound
  else
    let titled := List.filter (fun t => truthy (title t)) tasks in
    let subs :=
      List.filter (fun e => truthy (st_title (snd e))) (subtaskEntries tasks) in
    match firstOf
            [ option_map (fun t => IdNum (id t))
                (find (fun t => eqNoCase (title t) inner) titled);
              option_map dottedId
                (find (fun e => eqNoCase (st_title (snd e)) inner) subs);
              option_map (fun t => IdNum (id t))
                (find (fun t => containsNoCase (title t) inner) titled);
              option_map dottedId
                (find (fun e => containsNoCase (st_title (snd e)) inner) subs) ]
    with
    | Some i => Resolved i
    | None => Unresolved token
    end.

(** How a result of [resolveObsidianLink] on a token reads. *)
Definition readResolution (token : string) (r : option ident) : resolution :=
  match r with
  | None => NotFound
  | Some (IdStr s) => if String.eqb s token then Unresolved token else Resolved (IdStr s)
  | Some i => Resolved i
  end.

(** ** Remapping the identifiers of generated drafts *)

(** A draft task returned by the text-generation service. *)
Record draft := {
  d_id : Z;
  d_title : string;
  d_description : string;
  d_details : string;
  d_testStrategy : string;
  d_priority : string;
  d_dependencies : list Z;
  d_status : string;
  d_sourceFile : string;
  d_obsidianTags : option (list string);
  d_linkedNotes : option (list string);
  d_vaultLocation : string
}.

Definition processDraft (vaultPath stamp : string) (d : draft) (newId : Z) : task :=
  {| id := newId;
     title := d_title d;
     status := orElse (d_status d) "pending";
     sourceFile := d_sourceFile d;
     description := d_description d;
     priority := orElse (d_priority d) "medium";
     dependencies := d_dependencies d;
     obsidianTags := match d_obsidianTags d with Some l => l | None => [] end;
     linkedNotes := match d_linkedNotes d with Some l => l | None => [] end;
     details := d_details d;
     testStrategy := d_testStrategy d;
     subtasks := [];
     syncStatus := "pending";
     lastSyncAt := Some stamp;
     lastModified := None;
     vaultLocation := Some (orElse (d_vaultLocation d) vaultPath) |}.

(** [generatedData.tasks.map(...)] with [currentId++] and [taskMap.set]. *)
Fixpoint processDrafts (vaultPath stamp : string) (currentId : Z) (taskMap : gmap Z Z)
  (drafts : list draft) : list task * gmap Z Z :=
  match drafts with
  | [] => ([], taskMap)
  | d :: r =>
      let newId := currentId in
      let '(ts, m) :=
        processDrafts vaultPath stamp (currentId + 1) (<[d_id d := newId]> taskMap) r in
      (processDraft vaultPath stamp d newId :: ts, m)
  end.

Definition hasId (ts : list task) (i : Z) : bool :=
  existsb (fun t => id t =? i) ts.

(** The test of [filter]: the mapped id is there, lower than the task's
    own, and the id of an existing or of a new task. *)
Definition keepDependency (existingTasks processedNewTasks : list task) (t : task)
  (newDepId : option Z) : bool :=
  match newDepId with
  | Some n =>
      (n <? id t) && (hasId existingTasks n || hasId processedNewTasks n)
  | None => false
  end.

(** [task.dependencies.map(depId => taskMap.get(depId)).filter(...)]; the
    entries kept are numbers. *)
Definition remapDependencies (taskMap : gmap Z Z) (existingTasks processedNewTasks : list task)
  (t : task) : list Z :=
  flat_map (fun o : option Z => match o with Some n => [n] | None => [] end)
    (List.filter (keepDependency existingTasks processedNewTasks t)
       (map (fun depId => taskMap !! depId) (dependencies t))).

Definition withDependencies (t : task) (deps : list Z) : task :=
  {| id := id t;
     title := title t;
     status := status t;
     sourceFile := sourceFile t;
     description := description t;
     priority := priority t;
     dependencies := deps;
     obsidianTags := obsidianTags t;
     linkedNotes := linkedNotes t;
     details := details t;
     testStrategy := testStrategy t;
     subtasks := subtasks t;
     syncStatus := syncStatus t;
     lastSyncAt := lastSyncAt t;
     lastModified := lastModified t;
     vaultLocation := vaultLocation t |}.

(** [nextId]: one more than the largest existing id when the tag has tasks. *)
Definition nextIdOfExisting (existingTasks : list task) : Z :=
  match existingTasks with
  | [] => 1
  | t :: r => maxOf (id t) (map id r) + 1
  end.

(** The new tasks of [parseObsidianNotes], from the answer of the service to
    the list appended or written. *)
Definition remapDrafts (vaultPath stamp : string) (existingTasks : list task)
  (drafts : list draft) : list task :=
  let '(processedNewTasks, taskMap) :=
    processDrafts vaultPath stamp (nextIdOfExisting existingTasks) ∅ drafts in
  map (fun t => withDependencies t
                  (remapDependencies taskMap existingTasks processedNewTasks t))
      processedNewTasks.

(** ** Link validation *)

(** The object returned by [validateObsidianLink]; [warning] is false when
    the property is not set. *)
Record validation := {
  valid : bool;
  message : string;
  warning : bool
}.

Definition sameIdent (a b : ident) : bool :=
  match a, b with
  | IdNum x, IdNum y => x =? y
  | IdStr x, IdStr y => String.eqb x y
  | _, _ => false
  end.

(** [validateObsidianLink(link, tasks)]; [resolvedId === link] compares the
    result of the resolver with the string given. *)
Definition validateObsidianLink (link : ident) (tasks : list task) : validation :=
  match link with
  | IdStr s =>
      if negb (startsWith s "[[") || negb (endsWith s "]]")
      then {| valid := false; message := "Link must be in [[title]] format";
              warning := false |}
      else
        let linkText := trim (slice_2_m2 s) in
        if negb (truthy linkText)
        then {| valid := false; message := "Link cannot be empty"; warning := false |}
        else if includes linkText "[[" || includes linkText "]]"
        then {| valid := false; message := "Nested brackets not allowed";
                warning := false |}
        else if nonEmpty tasks &&
                match resolveObsidianLink_to_id link (Some tasks) with
                | Some resolvedId => sameIdent resolvedId link
                | None => false
                end
        then {| valid := true; message := "Valid format but no matching task found";
                warning := true |}
        else {| valid := true; message := "Valid Obsidian link"; warning := false |}
  | _ => {| valid := false; message := "Link must be a string"; warning := false |}
  end.

(** ** Status reporter *)

Record statusReport := {
  sr_vaultPath : string;
  sr_tasksPath : string;
  sr_tag : string;
  sr_lastSync : option string;
  sr_tasksInTaskMaster : nat;
  sr_tasksInObsidian : nat;
  sr_conflicts : list string;
  sr_outOfSync : list string;
  sr_inSync : bool
}.

(** One turn of the loop over the stored tasks: the record of the vault
    with the task's title is looked up. *)
Definition statusOfStored (Date_parse : string -> option Z) (obsidianTasks : list vaultTask)
  (acc : list string * list string) (tmTask : task) : list string * list string :=
  let '(conflictList, outOfSync) := acc in
  match find (fun ot => String.eqb (v_title ot) (title tmTask)) obsidianTasks with
  | Some obsTask =>
      if hasConflict Date_parse tmTask obsTask
      then (conflictList ++
              ["Task " +:+ dquote +:+ title tmTask +:+ dquote +:+ " has conflicting changes"],
            outOfSync)
      else acc
  | None =>
      (conflictList,
       outOfSync ++
         ["TaskMaster task " +:+ dquote +:+ title tmTask +:+ dquote +:+
          " not found in Obsidian"])
  end.

(** One turn of the loop over the records of the vault. *)
Definition statusOfVault (taskMasterTasks : list task) (outOfSync : list string)
  (obsTask : vaultTask) : list string :=
  match find (fun tm => String.eqb (title tm) (v_title obsTask)) taskMasterTasks with
  | Some _ => outOfSync
  | None =>
      outOfSync ++
        ["Obsidian task " +:+ dquote +:+ v_title obsTask +:+ dquote +:+
         " not found in TaskMaster"]
  end.

Section Status.

Variable Date_parse : string -> option Z.
Variable globMd : fsys -> string -> list string.

(** [JSON.parse(text).initialized]: [None] when the text is no JSON or has
    no such property. *)
Variable configInitialized : string -> option string.

Definition getObsidianSyncStatus (stored : option (list task)) (fs : fsys)
  (vaultPath tasksPath tag : string) : statusReport :=
  let taskMasterTasks := match stored with Some ts => ts | None => [] end in
  let obsidianTasks := extractTasksFromVault (readVault globMd fs vaultPath) in
  let syncConfigPath := pathJoin vaultPath ".taskmaster-sync.json" in
  let lastSync :=
    if existsSync fs syncConfigPath then
      match readFileSync fs syncConfigPath with
      | Done text => configInitialized text
      | Threw _ => None
      end
    else None in
  let '(conflictList, outOfSync1) :=
    fold_left (statusOfStored Date_parse obsidianTasks) taskMasterTasks ([], []) in
  let outOfSync := fold_left (statusOfVault taskMasterTasks) obsidianTasks outOfSync1 in
  {| sr_vaultPath := vaultPath;
     sr_tasksPath := tasksPath;
     sr_tag := tag;
     sr_lastSync := lastSync;
     sr_tasksInTaskMaster := length taskMasterTasks;
     sr_tasksInObsidian := length obsidianTasks;
     sr_conflicts := conflictList;
     sr_outOfSync := outOfSync;
     sr_inSync := negb (nonEmpty conflictList) && negb (nonEmpty outOfSync) |}.

End Status.

(** ** Scanning and importing a vault *)

(** [content.match(/#\w+/g)]: the tags with their number sign. *)
Definition hashTags (content : string) : list string :=
  map (fun w => String "#" w) (extractTagsFromContent content).

(** The checkbox lines of a text: [content.match(/^- \[([ x])\] (.+)$/gm)]. *)
Definition checkboxLines (content : string) : list string :=
  List.filter (fun l => match checkboxText l with Some _ => true | None => false end)
              (lines content).

Definition natToString (n : nat) : string := numberToString (Z.of_nat n).

(** The part of the consolidated text that [scanMarkdownFiles] adds for a
    file it could read. *)
Definition scanSection (file content : string) : string :=
  nl +:+ nl +:+ "--- File: " +:+ file +:+ " ---" +:+ nl +:+
  "Tags: " +:+ join ", " (hashTags content) +:+ nl +:+
  "Links: " +:+ join ", " (extractLinksFromContent content) +:+ nl +:+
  "Existing Tasks: " +:+ natToString (length (checkboxLines content)) +:+ nl +:+
  content.

(** The checkbox lines of all the files read, with [completed]. *)
Definition scannedTasks (vault : list vaultFile) : list (string * bool * string) :=
  flat_map
    (fun f =>
       match snd f with
       | Some content =>
           map (fun l => (drop 6 l, includes l "[x]", fst f)) (checkboxLines content)
       | None => []
       end)
    vault.

(** [scanMarkdownFiles]: the key-value header it parses for each file is
    never used, so it is left out. *)
Definition scanMarkdownFiles (vault : list vaultFile) : string :=
  concat (map (fun f => match snd f with
                        | Some content => scanSection (fst f) content
                        | None => ""
                        end) vault) +:+
  nl +:+ nl +:+ "--- VAULT SUMMARY ---" +:+ nl +:+
  "Total Files: " +:+ natToString (length vault) +:+ nl +:+
  "Total Existing Tasks: " +:+ natToString (length (scannedTasks vault)) +:+ nl +:+
  "Completed Tasks: " +:+
  natToString (length (List.filter (fun e => snd (fst e)) (scannedTasks vault))) +:+ nl.

(** [array.slice(0, n)]: [None] is an argument left out; a negative [n]
    counts from the end. *)
Definition sliceFromStart {A : Type} (n : option Z) (l : list A) : list A :=
  match n with
  | None => l
  | Some z =>
      if z <? 0 then firstn (length l - Z.to_nat (- z)) l
      else firstn (Z.to_nat z) l
  end.

(** [{ ...task, id: nextId + index, syncStatus: 'synced', lastSyncAt: stamp,
      vaultLocation: vaultPath }] *)
Definition importedTask (vaultPath stamp : string) (nextId : Z) (index : nat)
  (v : vaultTask) : task :=
  {| id := jsAdd nextId (Z.of_nat index);
     title := v_title v;
     status := v_status v;
     sourceFile := v_sourceFile v;
     description := v_description v;
     priority := v_priority v;
     dependencies := v_dependencies v;
     obsidianTags := v_obsidianTags v;
     linkedNotes := v_linkedNotes v;
     details := v_details v;
     testStrategy := v_testStrategy v;
     subtasks := [];
     syncStatus := "synced";
     lastSyncAt := Some stamp;
     lastModified := v_lastModified v;
     vaultLocation := Some vaultPath |}.

(** [array.map((task, index) => ...)] *)
Fixpoint mapIndexed {A B : Type} (f : nat -> A -> B) (index : nat) (l : list A) : list B :=
  match l with
  | [] => []
  | x :: r => f index x :: mapIndexed f (S index) r
  end.

(** What [parseObsidianVault] hands to [writeJSON] for the tag: the tasks
    and the metadata. *)
Record importedData := {
  im_tasks : list task;
  im_created : string;
  im_updated : string;
  im_description : string;
  im_vaultPath : string;
  im_distributedMode : bool;
  im_autoSync : bool;
  im_bidirectional : bool;
  im_conflictResolution : string
}.

(** [parseObsidianVault]: [existing] holds the tasks of the tag in the file
    at [tasksPath], [None] when the file is missing, is no JSON or has no
    tasks for the tag; [now index] is the time read for the task at [index],
    [createdAt] and [updatedAt] the times read for the metadata.  The
    options [force] and [append] are read and not used. *)
Definition parseObsidianVault (vault : list vaultFile) (vaultPath : string)
  (now : nat -> string) (createdAt updatedAt : string)
  (existing : option (list task)) (numTasks : option Z) : io importedData :=
  let vaultContent := scanMarkdownFiles vault in
  if negb (truthy vaultContent)
  then Threw ("Vault " +:+ vaultPath +:+ " is empty or could not be scanned.")
  else
    let extractedTasks := extractTasksFromVault vault in
    let nextId :=
      match existing with
      | Some (t :: r) => jsAdd (maxOf (id t) (map id r)) 1
      | _ => 1
      end in
    Done {| im_tasks :=
              mapIndexed (fun index => importedTask vaultPath (now index) nextId index) 0
                (sliceFromStart numTasks extractedTasks);
            im_created := createdAt;
            im_updated := updatedAt;
            im_description := "Tasks extracted from Obsidian vault: " +:+ vaultPath;
            im_vaultPath := vaultPath;
            im_distributedMode := true;
            im_autoSync := true;
            im_bidirectional := true;
            im_conflictResolution := "manual" |}.

(** [append ? [...existingTasks, ...processedNewTasks] : processedNewTasks]
    in [parseObsidianNotes]. *)
Definition finalTasks (append : bool) (existingTasks processedNewTasks : list task)
  : list task :=
  if append then existingTasks ++ processedNewTasks else processedNewTasks.

(** ** [validateObsidianVault] and [initObsidianSync] *)

(** [validateObsidianVault]: the value returned is always [true]; the
    boolean here tells whether the warning about a missing [.obsidian]
    directory was logged. *)
Definition validateObsidianVault (fs : fsys) (vaultPath : string) : io bool :=
  if negb (existsSync fs vaultPath)
  then Threw ("Vault path does not exist: " +:+ vaultPath)
  else if negb (bool_decide (vaultPath ∈ dirs fs))
  then Threw ("Vault path is not a directory: " +:+ vaultPath)
  else Done (negb (existsSync fs (pathJoin vaultPath ".obsidian"))).

(** The text of [TaskMaster-README.md]. *)
Definition readmeContent (vaultPath tasksPath tag stamp : string) : string :=
  "# TaskMaster Sync" +:+ nl +:+ nl +:+
  "This vault is integrated with TaskMaster for bidirectional task synchronization."
  +:+ nl +:+ nl +:+
  "## Structure" +:+ nl +:+ nl +:+
  "- `Tasks/` - Individual task files" +:+ nl +:+
  "- `Tags/` - Tag overview files" +:+ nl +:+
  "- `TaskMaster-README.md` - This file" +:+ nl +:+ nl +:+
  "## Sync Commands" +:+ nl +:+ nl +:+
  "```bash" +:+ nl +:+
  "# Sync tasks TO Obsidian" +:+ nl +:+
  "task-master obsidian-sync --vault " +:+ dquote +:+ vaultPath +:+ dquote +:+
  " --to-obsidian" +:+ nl +:+ nl +:+
  "# Sync tasks FROM Obsidian" +:+ nl +:+
  "task-master obsidian-sync --vault " +:+ dquote +:+ vaultPath +:+ dquote +:+
  " --from-obsidian" +:+ nl +:+ nl +:+
  "# Bidirectional sync" +:+ nl +:+
  "task-master obsidian-sync --vault " +:+ dquote +:+ vaultPath +:+ dquote +:+
  " --bidirectional" +:+ nl +:+ nl +:+
  "# Check sync status" +:+ nl +:+
  "task-master obsidian-status --vault " +:+ dquote +:+ vaultPath +:+ dquote +:+ nl +:+
  "```" +:+ nl +:+ nl +:+
  "## Last Sync" +:+ nl +:+ nl +:+
  "Initialized: " +:+ stamp +:+ nl +:+
  "Tag: " +:+ tag +:+ nl +:+
  "Tasks File: " +:+ tasksPath +:+ nl.

(** The object written to [.taskmaster-sync.json]. *)
Record syncConfig := {
  sc_initialized : string;
  sc_vaultPath : string;
  sc_tasksPath : string;
  sc_tag : string;
  sc_projectRoot : option string;
  sc_version : string;
  sc_autoSync : bool;
  sc_conflictResolution : string;
  sc_backupBeforeSync : bool
}.

Record initResult := {
  ir_success : bool;
  ir_vaultPath : string;
  ir_tasksPath : string;
  ir_configPath : string;
  ir_readmePath : string
}.

Section Init.

(** [JSON.stringify(syncConfig, null, 2)] *)
Variable JSON_stringify : syncConfig -> string.

(** [new Date().toISOString()] at the n-th reading of the clock within one
    call. *)
Variable now : nat -> string.

(** [initObsidianSync]; [tag] is [None] when the option is left out. *)
Definition initObsidianSync (fs : fsys) (vaultPath tasksPath : string)
  (tag : option string) (projectRoot : option string) : fsys * io initResult :=
  let tag := match tag with Some g => g | None => "master" end in
  match validateObsidianVault fs vaultPath with
  | Threw m => (fs, Threw m)
  | Done _ =>
      let tasksDir := pathJoin vaultPath "Tasks" in
      let tagsDir := pathJoin vaultPath "Tags" in
      match ensureDir fs tasksDir with
      | (fs1, Threw m) => (fs1, Threw m)
      | (fs1, Done _) =>
          match ensureDir fs1 tagsDir with
          | (fs2, Threw m) => (fs2, Threw m)
          | (fs2, Done _) =>
              let readmePath := pathJoin vaultPath "TaskMaster-README.md" in
              let fresh := negb (existsSync fs2 readmePath) in
              match (if fresh
                     then writeFileSync fs2 readmePath
                            (readmeContent vaultPath tasksPath tag (now 0))
                     else (fs2, Done tt)) with
              | (fs3, Threw m) => (fs3, Threw m)
              | (fs3, Done _) =>
                  let syncConfigPath := pathJoin vaultPath ".taskmaster-sync.json" in
                  let syncConfig :=
                    {| sc_initialized := now (if fresh then 1 else 0)%nat;
                       sc_vaultPath := vaultPath;
                       sc_tasksPath := tasksPath;
                       sc_tag := tag;
                       sc_projectRoot := projectRoot;
                       sc_version := "1.0.0";
                       sc_autoSync := false;
                       sc_conflictResolution := "manual";
                       sc_backupBeforeSync := true |} in
                  match writeFileSync fs3 syncConfigPath (JSON_stringify syncConfig) with
                  | (fs4, Threw m) => (fs4, Threw m)
                  | (fs4, Done _) =>
                      (fs4, Done {| ir_success := true;
                                    ir_vaultPath := vaultPath;
                                    ir_tasksPath := tasksPath;
                                    ir_configPath := syncConfigPath;
                                    ir_readmePath := readmePath |})
                  end
              end
          end
      end
  end.

End Init.

(** ** The conflict policy as the specification words it *)

(** A timestamp property that is there and not empty. *)
Definition present (o : option string) : option string :=
  match o with
  | Some s => if String.eqb s "" then None else Some s
  | None => None
  end.

(** The incoming record's lastModified, else its lastSyncAt, else the epoch. *)
Definition effectiveEvidence (Date_parse : string -> option Z) (b : vaultTask) : option Z :=
  match present (v_lastModified b) with
  | Some s => Date_parse s
  | None =>
      match present (v_lastSyncAt b) with
      | Some s => Date_parse s
      | None => Some 0
      end
  end.

(** [a] is a valid time strictly after the valid time [b]. *)
Definition strictlyNewer (a b : option Z) : Prop :=
  exists x y, a = Some x /\ b = Some y /\ y < x.

(** ** Vocabulary of the properties *)


(** The largest existing id, or 0 when there is none. *)
Definition maxExisting (tasks : list task) : Z :=
  match tasks with
  | [] => 0
  | t :: r => maxOf (id t) (map id r)
  end.

(** The ids [a], [a+1], ..., [a+n-1]. *)
Definition idsFrom (a : Z) (n : nat) : list Z :=
  map (fun i => a + Z.of_nat i) (seq 0 n).

(** What one turn does to the ids and to the created counter: nothing, or
    one task more whose id is given by [next]. *)
Definition idsStep (next : list task -> Z) (st st' : list task * syncResults) : Prop :=
  (map id (fst st') = map id (fst st) /\ created (snd st') = created (snd st)) \/
  (exists t, fst st' = fst st ++ [t] /\ id t = next (fst st) /\
             created (snd st') = S (created (snd st))).

(** A [lastSyncAt] that does not read as a time before the epoch. *)
Definition notBeforeEpoch (Date_parse : string -> option Z) (o : option string) : bool :=
  match o with
  | Some s => match Date_parse s with Some t => 0 <=? t | None => true end
  | None => true
  end.

(** No task carries the conflict mark without having carried it before. *)
Definition noNewConflict (before after : list task) : Prop :=
  forall i t, after !! i = Some t -> syncStatus t = "conflict" ->
    exists t0, before !! i = Some t0 /\ syncStatus t0 = "conflict".

(** Every task of the list has such a [lastSyncAt]. *)
Definition allNotBeforeEpoch (Date_parse : string -> option Z) (tasks : list task) : Prop :=
  Forall (fun a => notBeforeEpoch Date_parse (lastSyncAt a) = true) tasks.

(** The size of a tally of [syncTasksToObsidian]. *)
Definition counted (r : syncResults) : nat :=
  (created r + updated r + length (errors r))%nat.

(** What [resolveObsidianLink] returns for a resolution. *)
Definition resultOf (r : resolution) : option ident :=
  match r with
  | NotFound => None
  | Resolved i => Some i
  | Unresolved token => Some (IdStr token)
  end.

(** Every character of [s] passes [p]. *)
Fixpoint allChars (p : ascii -> bool) (s : string) : bool :=
  match s with
  | EmptyString => true
  | String c r => p c && allChars p r
  end.

Definition noDollar (c : ascii) : bool := negb (c =? "$")%char.
Definition noTerminator (c : ascii) : bool := negb (isLineTerminator c).

(** A title on one line and without a dollar sign. *)
Definition plainTitle (ttl : string) : bool :=
  allChars noDollar ttl && allChars noTerminator ttl.

(** The checkbox line of a title. *)
Definition lineOf (c : ascii) (ttl : string) : string :=
  "- [" +:+ String c ("] " +:+ ttl).

Definition boxChar (t : task) : ascii :=
  if String.eqb (status t) "done" then "x"%char else " "%char.

(** [^] holds after [s], when [bol] tells whether it holds before. *)
Fixpoint lineStartAfter (bol : bool) (s : string) : bool :=
  match s with
  | EmptyString => bol
  | String a r => lineStartAfter (isLineTerminator a) r
  end.

(** What holds of a record that [extractTasksFromVault] builds from the
    files of [vault]. *)
Definition wellFormedRecord (vault : list vaultFile) (v : vaultTask) : Prop :=
  v_title v <> "" /\
  allChars noTerminator (v_title v) = true /\
  v_description v = v_title v /\
  v_priority v = "medium" /\
  v_dependencies v = [] /\
  exists content c,
    In (v_sourceFile v, Some content) vault /\
    isBox c = true /\
    In (lineOf c (v_title v)) (lines content) /\
    v_status v =
      (if (c =? "x")%char || includes (v_title v) "[x]" then "done" else "pending") /\
    v_obsidianTags v = extractTagsFromContent content /\
    v_linkedNotes v = extractLinksFromContent content.

(** Whether [l] is a checkbox line of the title, checked or not. *)
Definition isTaskLine (ttl l : string) : bool :=
  String.eqb l (lineOf " " ttl) || String.eqb l (lineOf "x" ttl).

(** The records a tally accounts for. *)
Definition tallied (r : syncResults) : nat :=
  (updated r + created r + conflicts r)%nat.

(** [fs'] has the files of [fs] but for those at the paths [targets], keeps
    every path that had a file, and has the same forbidden paths. *)
Definition onlyWrites (targets : list string) (fs fs' : fsys) : Prop :=
  (forall p, ~ In p targets -> files fs' !! p = files fs !! p) /\
  (forall p, is_Some (files fs !! p) -> is_Some (files fs' !! p)) /\
  dirs fs ⊆ dirs fs' /\
  denied fs' = denied fs.

Definition notSlash (c : ascii) : bool := negb (c =? "/")%char.

(** The files after writing, in order, the rendering of each task at its
    path. *)
Definition writesOf (vaultPath : string) (ts : list task) (m : gmap string string)
  : gmap string string :=
  fold_left (fun m t => <[markdownPathOf vaultPath t := generateMarkdownForTask t]> m) ts m.

(** The first checkbox line of the title in [s] has the box [c]. *)
Definition firstBox (ttl s : string) (c : ascii) : Prop :=
  exists before after, searchFrom ttl true s = Some (before, c, after).

(** A record as the extractor builds them for [file]. *)
Definition recordOf (file : string) (x : vaultTask) : Prop :=
  v_sourceFile x = file /\ v_lastModified x = None /\ v_lastSyncAt x = None.

(** The parts of a path between its slashes. *)
Fixpoint segments (s : string) : list string :=
  match s with
  | EmptyString => [EmptyString]
  | String c r =>
      if (c =? "/")%char then EmptyString :: segments r
      else match segments r with
           | g :: gs => String c g :: gs
           | [] => [String c EmptyString]
           end
  end.

Definition plainSegment (g : string) : bool :=
  negb (String.eqb g "") && negb (String.eqb g ".") && negb (String.eqb g "..").

(** A relative path in normal form: [path.join] of a directory in normal
    form and such a path is the two texts with a slash between them. *)
Definition plainRelative (p : string) : bool := forallb plainSegment (segments p).

(** A directory path in normal form, absolute or relative, that is not the
    root. *)
Definition plainPath (p : string) : bool :=
  match p with
  | String "/" r => plainRelative r
  | _ => plainRelative p
  end.

(** ** Concrete stores and vaults *)

Module Examples.

Definition clock (k : nat) : string := "2024-06-01T10:00:00.000Z".

Definition basicTask (i : Z) (ttl st file : string) (sync : option string) : task :=
  {| id := i; title := ttl; status := st; sourceFile := file;
     description := ttl; priority := "medium"; dependencies := [];
     obsidianTags := []; linkedNotes := []; details := ""; testStrategy := "";
     subtasks := []; syncStatus := "synced"; lastSyncAt := sync;
     lastModified := None; vaultLocation := None |}.

Definition boxRecord (ttl st file : string) : vaultTask :=
  {| v_title := ttl; v_status := st; v_sourceFile := file;
     v_description := ttl; v_priority := "medium"; v_dependencies := [];
     v_obsidianTags := []; v_linkedNotes := []; v_details := "";
     v_testStrategy := ""; v_lastModified := None; v_lastSyncAt := None |}.

Definition withSubtasks (t : task) (sts : list subtask) : task :=
  {| id := id t; title := title t; status := status t; sourceFile := sourceFile t;
     description := description t; priority := priority t;
     dependencies := dependencies t; obsidianTags := obsidianTags t;
     linkedNotes := linkedNotes t; details := details t;
     testStrategy := testStrategy t; subtasks := sts; syncStatus := syncStatus t;
     lastSyncAt := lastSyncAt t; lastModified := lastModified t;
     vaultLocation := vaultLocation t |}.

Definition oneFile (p content : string) : fsys :=
  {| files := {[ p := content ]}; dirs := {[ "/vault" ]}; denied := ∅ |}.

Definition basicDraft (i : Z) (ttl : string) (deps : list Z) : draft :=
  {| d_id := i; d_title := ttl; d_description := ttl; d_details := "";
     d_testStrategy := ""; d_priority := "high"; d_dependencies := deps;
     d_status := "pending"; d_sourceFile := "plan.md";
     d_obsidianTags := None; d_linkedNotes := None; d_vaultLocation := "" |}.

(** X, provisional id 10, depends on 20, which is no draft; Z, provisional
    id 30, depends on X and on itself. *)
Definition batch : list draft :=
  [basicDraft 10 "X" [20]; basicDraft 30 "Z" [10; 30]].

(** A vault whose only markdown file is [setup.md]. *)
Definition globSetup (fs : fsys) (vaultPath : string) : list string := ["setup.md"].

End Examples.

(** * Properties *)

(** ** Strings *)

Lemma truthy_true_iff s : truthy s = true <-> s <> "".
Proof. destruct s; simpl; split; congruence. Qed.

Lemma truthy_false_iff s : truthy s = false <-> s = "".
Proof. destruct s; simpl; split; congruence. Qed.

Lemma eqb_false_iff_ne (a b : string) : negb (String.eqb a b) = true <-> a <> b.
Proof.
  rewrite negb_true_iff. split.
  - intros H E. subst. rewrite String.eqb_refl in H. discriminate.
  - intros H. destruct (String.eqb a b) eqn:E; [|reflexivity].
    apply String.eqb_eq in E. contradiction.
Qed.

Lemma dateGt_strictlyNewer a b : dateGt a b = true <-> strictlyNewer a b.
Proof.
  unfold dateGt, strictlyNewer. split.
  - destruct a as [x|], b as [y|]; try discriminate.
    intros H. exists x, y. apply Z.ltb_lt in H. auto.
  - intros (x & y & -> & -> & H). now apply Z.ltb_lt.
Qed.

Lemma taskTime_effectiveEvidence Date_parse b :
  taskTime Date_parse b = effectiveEvidence Date_parse b.
Proof.
  unfold taskTime, effectiveEvidence, present, truthyOpt.
  destruct (v_lastModified b) as [[|c m]|]; simpl;
    destruct (v_lastSyncAt b) as [[|d l]|]; simpl; reflexivity.
Qed.

(** ** Conflict detection *)

(** C2. [hasConflict] holds exactly when the canonical record has a previous
    [lastSyncAt], the incoming record's effective modification evidence (its
    [lastModified], else its [lastSyncAt], else the epoch) is strictly newer
    than it, and one of title, status, description differs; a canonical
    record without [lastSyncAt] never conflicts. *)
Theorem hasConflict_iff (Date_parse : string -> option Z) (a : task) (b : vaultTask) :
  (hasConflict Date_parse a b = true <->
   exists last,
     lastSyncAt a = Some last /\ last <> "" /\
     strictlyNewer (effectiveEvidence Date_parse b) (Date_parse last) /\
     (title a <> v_title b \/ status a <> v_status b \/
      description a <> v_description b))
  /\ (lastSyncAt a = None -> hasConflict Date_parse a b = false).
Proof.
  split.
  - unfold hasConflict. rewrite taskTime_effectiveEvidence.
    destruct (lastSyncAt a) as [last|] eqn:E; simpl.
    + destruct (truthy last) eqn:T; simpl.
      * rewrite andb_true_iff, !orb_true_iff, dateGt_strictlyNewer,
          !eqb_false_iff_ne.
        apply truthy_true_iff in T. split.
        -- intros [H1 H2]. exists last. tauto.
        -- intros (l & Hl & _ & H1 & H2). inversion Hl; subst. tauto.
      * apply truthy_false_iff in T. split; [discriminate|].
        intros (l & Hl & Hne & _). inversion Hl; subst. contradiction.
    + split; [discriminate|]. intros (l & Hl & _). discriminate.
  - intros E. unfold hasConflict. rewrite E. reflexivity.
Qed.

(** ** Identifier formatting *)

(** C8. Formatting an identifier twice gives what formatting it once gives,
    for a number, a dotted subtask id, a cross-reference token, an already
    formatted string, and any other value. *)
Theorem formatTaskId_idempotent (x : ident) :
  formatTaskId (formatTaskId x) = formatTaskId x.
Proof.
  destruct x as [n|s|]; simpl.
  - destruct (includes (numberToString n) "."); [reflexivity|].
    destruct (isLink (numberToString n)); reflexivity.
  - destruct (includes s "."); simpl.
    + destruct (includes s "."); [reflexivity|]. destruct (isLink s); reflexivity.
    + destruct (isLink s); simpl;
        destruct (includes s "."); try reflexivity; destruct (isLink s); reflexivity.
  - reflexivity.
Qed.

(** ** Remapping of generated drafts *)

Section Remap.

Variables vaultPath stamp : string.

Lemma processDrafts_lookup drafts : forall start m ts m' k d,
  processDrafts vaultPath stamp start m drafts = (ts, m') ->
  drafts !! k = Some d ->
  ts !! k = Some (processDraft vaultPath stamp d (start + Z.of_nat k)).
Proof.
  induction drafts as [|d0 r IH]; intros start m ts m' k d H Hk.
  - destruct k; discriminate.
  - simpl in H.
    destruct (processDrafts vaultPath stamp (start + 1) (<[d_id d0:=start]> m) r)
      as [ts1 m1] eqn:E.
    inversion H; subst; clear H.
    destruct k as [|k]; simpl in *.
    + inversion Hk; subst. now rewrite Z.add_0_r.
    + rewrite (IH _ _ _ _ _ _ E Hk). do 2 f_equal. lia.
Qed.

Lemma processDrafts_length drafts : forall start m ts m',
  processDrafts vaultPath stamp start m drafts = (ts, m') ->
  length ts = length drafts.
Proof.
  induction drafts as [|d0 r IH]; intros start m ts m' H; simpl in H.
  - now inversion H.
  - destruct (processDrafts vaultPath stamp (start + 1) (<[d_id d0:=start]> m) r)
      as [ts1 m1] eqn:E.
    inversion H; subst. simpl. f_equal. eauto.
Qed.


Lemma hasId_In ts i : hasId ts i = true <-> In i (map id ts).
Proof.
  unfold hasId. rewrite existsb_exists, in_map_iff. split.
  - intros (t & Ht & E). apply Z.eqb_eq in E. eauto.
  - intros (t & E & Ht). exists t. split; [assumption|]. now apply Z.eqb_eq.
Qed.

Lemma remapDependencies_In taskMap existing new t dep :
  In dep (remapDependencies taskMap existing new t) <->
  exists y, In y (dependencies t) /\ taskMap !! y = Some dep /\
            dep < id t /\ (In dep (map id existing) \/ In dep (map id new)).
Proof.
  unfold remapDependencies. rewrite in_flat_map. split.
  - intros (o & Ho & Hd). apply filter_In in Ho. destruct Ho as [Ho Hk].
    destruct o as [n|]; [|destruct Hd]. destruct Hd as [->|[]].
    apply in_map_iff in Ho. destruct Ho as (y & Hy & Hin).
    simpl in Hk. apply andb_true_iff in Hk. destruct Hk as [Hlt Hex].
    apply Z.ltb_lt in Hlt. apply orb_true_iff in Hex.
    rewrite !hasId_In in Hex. eauto 6.
  - intros (y & Hy & Hm & Hlt & Hex). exists (Some dep). split; [|now left].
    apply filter_In. split.
    + apply in_map_iff. eauto.
    + simpl. apply andb_true_iff. split; [now apply Z.ltb_lt|].
      apply orb_true_iff. now rewrite !hasId_In.
Qed.



End Remap.


(** ** Lookup in the task array *)

Lemma findFrom_Some {A : Type} (p : A -> bool) (l : list A) : forall s i x,
  findFrom p s l = Some (i, x) ->
  exists j, i = (s + j)%nat /\ l !! j = Some x /\ p x = true.
Proof.
  induction l as [|y r IH]; intros s i x H; simpl in H; [discriminate|].
  destruct (p y) eqn:E.
  - inversion H; subst. exists 0%nat. rewrite Nat.add_0_r. auto.
  - destruct (IH _ _ _ H) as (j & -> & Hj & Hp).
    exists (S j). split; [lia|]. auto.
Qed.

Lemma findFrom_None {A : Type} (p : A -> bool) (l : list A) : forall s,
  findFrom p s l = None <-> existsb p l = false.
Proof.
  induction l as [|y r IH]; intros s; simpl; [tauto|].
  destruct (p y); simpl; [split; discriminate|apply IH].
Qed.

Lemma findIndexed_Some {A : Type} (p : A -> bool) (l : list A) i x :
  findIndexed p l = Some (i, x) -> l !! i = Some x /\ p x = true.
Proof.
  intros H. destruct (findFrom_Some _ _ _ _ _ H) as (j & -> & Hj & Hp). auto.
Qed.

Lemma findIndexed_is_Some {A : Type} (p : A -> bool) (l : list A) :
  is_Some (findIndexed p l) <-> exists x, In x l /\ p x = true.
Proof.
  rewrite <- existsb_exists. unfold findIndexed.
  destruct (findFrom p 0 l) as [[i x]|] eqn:E.
  - split; [intros _|eauto].
    destruct (existsb p l) eqn:Ex; [reflexivity|].
    apply (findFrom_None p l 0%nat) in Ex. congruence.
  - apply findFrom_None in E. rewrite E. split; [intros [? ?]|]; discriminate.
Qed.

(** Replacing an element by one with the same id keeps the ids. *)
Lemma ids_insert (l : list task) i e e' :
  l !! i = Some e -> id e' = id e -> map id (<[i := e']> l) = map id l.
Proof.
  intros Hl He.
  change (id <$> <[i:=e']> l = id <$> l).
  rewrite list_fmap_insert, He.
  apply list_insert_id. rewrite list_lookup_fmap, Hl. reflexivity.
Qed.

(** ** Largest identifier *)

Lemma fold_max_upper (b : Z) (l : list Z) :
  b <= fold_right Z.max b l /\ forall x, In x l -> x <= fold_right Z.max b l.
Proof.
  induction l as [|y r [IH1 IH2]]; simpl.
  - split; [lia|intros x []].
  - split; [lia|]. intros x [->|Hx]; [lia|]. specialize (IH2 x Hx). lia.
Qed.

Lemma fold_max_In (b : Z) (l : list Z) :
  fold_right Z.max b l = b \/ In (fold_right Z.max b l) l.
Proof.
  induction l as [|y r IH]; simpl; [now left|].
  destruct (Z.max_spec y (fold_right Z.max b r)) as [[_ ->]|[_ ->]].
  - destruct IH as [IH|IH]; [left|right]; auto.
  - right. now left.
Qed.

(** Appending one more than the maximum makes it the maximum. *)
Lemma fold_max_snoc (b : Z) (l : list Z) :
  fold_right Z.max b (l ++ [fold_right Z.max b l + 1]) = fold_right Z.max b l + 1.
Proof.
  set (m := fold_right Z.max b l).
  destruct (fold_max_upper b l) as [Hb Hl]. fold m in Hb, Hl.
  destruct (fold_max_upper b (l ++ [m + 1])) as [_ Hu].
  specialize (Hu (m + 1)). rewrite in_app_iff in Hu. simpl in Hu.
  assert (m + 1 <= fold_right Z.max b (l ++ [m + 1])) as Hge by auto.
  destruct (fold_max_In b (l ++ [m + 1])) as [E|Hin].
  - lia.
  - apply in_app_iff in Hin. destruct Hin as [Hin|[E|[]]].
    + specialize (Hl _ Hin). lia.
    + symmetry. exact E.
Qed.

(** Up to 2^53 in absolute value an integer is a double. *)
Lemma roundToDouble_exact z : - 2 ^ 53 <= z <= 2 ^ 53 -> roundToDouble z = z.
Proof.
  change (2 ^ 53) with 9007199254740992. intros H. unfold roundToDouble.
  change (2 ^ 53) with 9007199254740992.
  destruct (Z.abs z <? 9007199254740992) eqn:E; [reflexivity|].
  apply Z.ltb_ge in E.
  assert (z = 9007199254740992 \/ z = - 9007199254740992) as [-> | ->] by lia;
    vm_compute; reflexivity.
Qed.

Lemma jsAdd_exact a b : - 2 ^ 53 <= a + b <= 2 ^ 53 -> jsAdd a b = a + b.
Proof. apply roundToDouble_exact. Qed.

Lemma maxWithZero_nonneg l : 0 <= maxWithZero l.
Proof. unfold maxWithZero. induction l as [|x l IH]; simpl; lia. Qed.

Lemma nextIdFrom_maxExisting tasks :
  - 2 ^ 53 <= maxExisting tasks -> maxExisting tasks + 1 <= 2 ^ 53 ->
  nextIdFrom tasks = maxExisting tasks + 1.
Proof.
  destruct tasks as [|t r]; [reflexivity|]. cbn [nextIdFrom maxExisting].
  intros H1 H2. apply jsAdd_exact. lia.
Qed.

Lemma nextIdWith_maxWithZero tasks :
  maxWithZero (map id tasks) + 1 <= 2 ^ 53 ->
  nextIdWith tasks = maxWithZero (map id tasks) + 1.
Proof.
  intros H. unfold nextIdWith. apply jsAdd_exact.
  pose proof (maxWithZero_nonneg (map id tasks)).
  change (2 ^ 53) with 9007199254740992 in *. lia.
Qed.

Lemma maxExisting_snoc tasks t :
  id t = maxExisting tasks + 1 -> maxExisting (tasks ++ [t]) = maxExisting tasks + 1.
Proof.
  intros Ht. destruct tasks as [|t0 r]; simpl.
  - simpl in Ht. unfold maxOf. simpl. lia.
  - simpl in Ht. unfold maxOf in *. rewrite map_app. simpl.
    rewrite Ht. apply fold_max_snoc.
Qed.

Lemma maxWithZero_snoc tasks t :
  id t = maxWithZero (map id tasks) + 1 ->
  maxWithZero (map id (tasks ++ [t])) = maxWithZero (map id tasks) + 1.
Proof.
  intros Ht. unfold maxWithZero in *. rewrite map_app. simpl.
  rewrite Ht. apply fold_max_snoc.
Qed.

Lemma maxExisting_ids tasks tasks' :
  map id tasks' = map id tasks -> maxExisting tasks' = maxExisting tasks.
Proof.
  destruct tasks as [|t r], tasks' as [|t' r']; simpl; try discriminate; auto.
  intros H. inversion H. congruence.
Qed.

Lemma idsFrom_cons a n : idsFrom a (S n) = a :: idsFrom (a + 1) n.
Proof.
  unfold idsFrom. simpl. rewrite Z.add_0_r. f_equal.
  rewrite <- seq_shift, map_map. apply map_ext. intros i. lia.
Qed.

(** ** Identifiers given by the from-text passes *)

Section FromTextIds.

Variable Date_parse : string -> option Z.
Variable now : nat -> string.

Lemma fromStep_ids k st v :
  idsStep nextIdFrom st (fromStep Date_parse now false k st v).
Proof.
  destruct st as [tasks res]. unfold fromStep.
  destruct (findIndexed (titleOrFile v) tasks) as [[i e]|] eqn:F.
  - apply findIndexed_Some in F. destruct F as [Hi _].
    left. destruct (hasConflict Date_parse e v); simpl;
      (split; [eapply ids_insert; eauto|reflexivity]).
  - right. eexists. simpl. eauto.
Qed.

Lemma fromStepWith_ids k st v :
  idsStep nextIdWith st (fromStepWith Date_parse now k st v).
Proof.
  destruct st as [tasks res]. unfold fromStepWith.
  destruct (findIndexed (sameKey v) tasks) as [[i e]|] eqn:F.
  - apply findIndexed_Some in F. destruct F as [Hi _].
    left. destruct (hasConflict Date_parse e v); simpl;
      (split; [eapply ids_insert; eauto|reflexivity]).
  - right. eexists. simpl. eauto.
Qed.

Lemma fromLoop_cons dryRun k st v r :
  fromLoop Date_parse now dryRun k st (v :: r) =
  fromLoop Date_parse now dryRun (S k) (fromStep Date_parse now dryRun k st v) r.
Proof. reflexivity. Qed.

Lemma fromLoopWith_cons k st v r :
  fromLoopWith Date_parse now k st (v :: r) =
  fromLoopWith Date_parse now (S k) (fromStepWith Date_parse now k st v) r.
Proof. reflexivity. Qed.

Lemma fromLoop_created_grows vs : forall k tasks res,
  (created res <=
   created (snd (fromLoop Date_parse now false k (tasks, res) vs)))%nat.
Proof.
  induction vs as [|v r IH]; intros k tasks res; [simpl; lia|].
  rewrite fromLoop_cons.
  pose proof (fromStep_ids k (tasks, res) v) as Hs.
  destruct (fromStep Date_parse now false k (tasks, res) v) as [t1 r1].
  specialize (IH (S k) t1 r1). unfold idsStep in Hs. simpl in Hs.
  destruct Hs as [[_ Hc]|(t & _ & _ & Hc)]; lia.
Qed.

Lemma fromLoopWith_created_grows vs : forall k tasks res,
  (created res <=
   created (snd (fromLoopWith Date_parse now k (tasks, res) vs)))%nat.
Proof.
  induction vs as [|v r IH]; intros k tasks res; [simpl; lia|].
  rewrite fromLoopWith_cons.
  pose proof (fromStepWith_ids k (tasks, res) v) as Hs.
  destruct (fromStepWith Date_parse now k (tasks, res) v) as [t1 r1].
  specialize (IH (S k) t1 r1). unfold idsStep in Hs. simpl in Hs.
  destruct Hs as [[_ Hc]|(t & _ & _ & Hc)]; lia.
Qed.

Lemma fromLoop_ids vs : forall k tasks res,
  - 2 ^ 53 <= maxExisting tasks ->
  maxExisting tasks +
    Z.of_nat (created (snd (fromLoop Date_parse now false k (tasks, res) vs))
              - created res) <= 2 ^ 53 ->
  map id (fst (fromLoop Date_parse now false k (tasks, res) vs)) =
    map id tasks ++
    idsFrom (maxExisting tasks + 1)
      (created (snd (fromLoop Date_parse now false k (tasks, res) vs)) - created res).
Proof.
  induction vs as [|v r IH]; intros k tasks res Hlow Hup.
  - simpl. rewrite Nat.sub_diag. unfold idsFrom. simpl. now rewrite app_nil_r.
  - rewrite fromLoop_cons in *.
    pose proof (fromStep_ids k (tasks, res) v) as Hs.
    destruct (fromStep Date_parse now false k (tasks, res) v) as [t1 r1].
    pose proof (fromLoop_created_grows r (S k) t1 r1) as Hmono.
    unfold idsStep in Hs. simpl in Hs.
    destruct Hs as [[Hids Hc]|(t & Ht1 & Hid & Hc)].
    + pose proof (maxExisting_ids _ _ Hids) as Hm.
      rewrite IH; [rewrite Hm, Hids, Hc; reflexivity|rewrite Hm; exact Hlow|].
      rewrite Hm, Hc. exact Hup.
    + subst t1.
      rewrite nextIdFrom_maxExisting in Hid by (try assumption; lia).
      pose proof (maxExisting_snoc _ _ Hid) as Hmax.
      rewrite IH by (rewrite Hmax; lia).
      rewrite Hmax, map_app, <- app_assoc. simpl.
      f_equal. rewrite Hid, <- idsFrom_cons. f_equal. lia.
Qed.

Lemma fromLoopWith_ids vs : forall k tasks res,
  maxWithZero (map id tasks) +
    Z.of_nat (created (snd (fromLoopWith Date_parse now k (tasks, res) vs))
              - created res) <= 2 ^ 53 ->
  map id (fst (fromLoopWith Date_parse now k (tasks, res) vs)) =
    map id tasks ++
    idsFrom (maxWithZero (map id tasks) + 1)
      (created (snd (fromLoopWith Date_parse now k (tasks, res) vs)) - created res).
Proof.
  induction vs as [|v r IH]; intros k tasks res Hup.
  - simpl. rewrite Nat.sub_diag. unfold idsFrom. simpl. now rewrite app_nil_r.
  - rewrite fromLoopWith_cons in *.
    pose proof (fromStepWith_ids k (tasks, res) v) as Hs.
    destruct (fromStepWith Date_parse now k (tasks, res) v) as [t1 r1].
    pose proof (fromLoopWith_created_grows r (S k) t1 r1) as Hmono.
    unfold idsStep in Hs. simpl in Hs.
    destruct Hs as [[Hids Hc]|(t & Ht1 & Hid & Hc)].
    + rewrite IH; [rewrite Hids, Hc; reflexivity|].
      rewrite Hids, Hc. exact Hup.
    + subst t1.
      rewrite nextIdWith_maxWithZero in Hid by lia.
      pose proof (maxWithZero_snoc _ _ Hid) as Hmax.
      rewrite IH by (rewrite Hmax; lia).
      rewrite Hmax, map_app, <- app_assoc. simpl.
      f_equal. rewrite Hid, <- idsFrom_cons. f_equal. lia.
Qed.

(** C3. Ids are doubles, and the sum of the largest id and 1 is exact
    only up to 2^53.  Within that range, a from-text pass that is not a
    dry run leaves the ids of the existing tasks as they are and gives the
    tasks it creates, in creation order, the ids M+1, ..., M+N, where N is
    the created counter of the pass and M the largest existing id, or 0:
    in [syncTasksFromObsidian] 0 stands for an empty partition, and M may
    not be below -2^53; in [syncWithObsidian] 0 is a member of the
    maximum, which is the same M for a partition of positive ids.  The
    list [syncTasksFromObsidian] writes has these ids. *)
Theorem created_ids_sequential (stored : list task) (vaultTasks : list vaultTask) :
  - 2 ^ 53 <= maxExisting stored ->
  (maxExisting stored +
     Z.of_nat (created (snd (fromLoop Date_parse now false 0 (stored, noResults)
                               vaultTasks))) <= 2 ^ 53 ->
   map id (fst (fromLoop Date_parse now false 0 (stored, noResults) vaultTasks)) =
     map id stored ++
     idsFrom (maxExisting stored + 1)
       (created (snd (fromLoop Date_parse now false 0 (stored, noResults) vaultTasks))))
  /\
  (Z.max 0 (maxExisting stored) +
     Z.of_nat (created (snd (fromLoopWith Date_parse now 0 (stored, noResults)
                               vaultTasks))) <= 2 ^ 53 ->
   map id (fst (fromLoopWith Date_parse now 0 (stored, noResults) vaultTasks)) =
     map id stored ++
     idsFrom (Z.max 0 (maxExisting stored) + 1)
       (created (snd (fromLoopWith Date_parse now 0 (stored, noResults) vaultTasks))))
  /\
  (forall ts,
     written (syncTasksFromObsidian Date_parse now false (Some stored) vaultTasks)
       = Some ts ->
     maxExisting stored +
       Z.of_nat (created (tally (syncTasksFromObsidian Date_parse now false
                                   (Some stored) vaultTasks))) <= 2 ^ 53 ->
     map id ts =
       map id stored ++
       idsFrom (maxExisting stored + 1)
         (created (tally (syncTasksFromObsidian Date_parse now false
                            (Some stored) vaultTasks)))).
Proof.
  intros Hlow.
  assert (maxExisting stored +
            Z.of_nat (created (snd (fromLoop Date_parse now false 0 (stored, noResults)
                                      vaultTasks))) <= 2 ^ 53 ->
          map id (fst (fromLoop Date_parse now false 0 (stored, noResults) vaultTasks)) =
          map id stored ++
          idsFrom (maxExisting stored + 1)
            (created (snd (fromLoop Date_parse now false 0 (stored, noResults)
                             vaultTasks))))
    as Hloop.
  { intros Hup.
    pose proof (fromLoop_ids vaultTasks 0 stored noResults Hlow) as H.
    cbn [created noResults] in H. rewrite Nat.sub_0_r in H. exact (H Hup). }
  split; [exact Hloop|]. split.
  - assert (Z.max 0 (maxExisting stored) = maxWithZero (map id stored)) as ->.
    { unfold maxWithZero, maxExisting. destruct stored as [|t r]; simpl; [reflexivity|].
      unfold maxOf. generalize (map id r) as l. intros l.
      induction l as [|y l IHl]; simpl; lia. }
    intros Hup.
    pose proof (fromLoopWith_ids vaultTasks 0 stored noResults) as H.
    cbn [created noResults] in H. rewrite Nat.sub_0_r in H. exact (H Hup).
  - intros ts. unfold syncTasksFromObsidian.
    destruct vaultTasks as [|v r]; [discriminate|].
    destruct (fromLoop Date_parse now false 0 (stored, noResults) (v :: r))
      as [tasks res]. cbn [fst snd] in Hloop. cbn [tally written negb andb].
    destruct ((0 <? created res)%nat || (0 <? updated res)%nat); [|discriminate].
    intros H Hup. inversion H; subst. exact (Hloop Hup).
Qed.

End FromTextIds.

(** C3, within the range: a store whose largest id is 3 and a vault with
    two new checkbox lines. *)
Lemma created_ids_sequential_witness :
  map id (fst (fromLoop Iso.parse Examples.clock false 0
                 ([Examples.basicTask 3 "Old" "done" "old.md" None], noResults)
                 (extractTasksFromVault
                    [("a.md", Some "- [ ] A"); ("b.md", Some "- [ ] B")])))
  = [3; 4; 5].
Proof.
  destruct (created_ids_sequential Iso.parse Examples.clock
              [Examples.basicTask 3 "Old" "done" "old.md" None]
              (extractTasksFromVault
                 [("a.md", Some "- [ ] A"); ("b.md", Some "- [ ] B")]))
    as (H & _).
  - vm_compute. discriminate.
  - rewrite H; [reflexivity|]. vm_compute. discriminate.
Defined.

(** C3, counterexample.  From a stored id of 2^53 the sum with 1 rounds
    back to 2^53: both passes create two tasks and give each of them the
    id of the stored task. *)
Lemma created_ids_repeat_from_2_53 :
  map id (fst (fromLoop Iso.parse Examples.clock false 0
                 ([Examples.basicTask (2 ^ 53) "Old" "done" "old.md" None], noResults)
                 (extractTasksFromVault
                    [("a.md", Some "- [ ] A"); ("b.md", Some "- [ ] B")])))
  = [2 ^ 53; 2 ^ 53; 2 ^ 53]
  /\
  created (snd (fromLoop Iso.parse Examples.clock false 0
                  ([Examples.basicTask (2 ^ 53) "Old" "done" "old.md" None], noResults)
                  (extractTasksFromVault
                     [("a.md", Some "- [ ] A"); ("b.md", Some "- [ ] B")])))
  = 2%nat
  /\
  map id (fst (fromLoopWith Iso.parse Examples.clock 0
                 ([Examples.basicTask (2 ^ 53) "Old" "done" "old.md" None], noResults)
                 (extractTasksFromVault
                    [("a.md", Some "- [ ] A"); ("b.md", Some "- [ ] B")])))
  = [2 ^ 53; 2 ^ 53; 2 ^ 53]
  /\
  created (snd (fromLoopWith Iso.parse Examples.clock 0
                  ([Examples.basicTask (2 ^ 53) "Old" "done" "old.md" None], noResults)
                  (extractTasksFromVault
                     [("a.md", Some "- [ ] A"); ("b.md", Some "- [ ] B")])))
  = 2%nat.
Proof. vm_compute. repeat split; reflexivity. Qed.

(** ** The key of the lookup *)

Lemma sameKey_iff v t :
  sameKey v t = true <-> sourceFile t = v_sourceFile v /\ title t = v_title v.
Proof. unfold sameKey. now rewrite andb_true_iff, !String.eqb_eq. Qed.

Lemma titleOrFile_iff v t :
  titleOrFile v t = true <->
  title t = v_title v \/ (sourceFile t <> "" /\ sourceFile t = v_sourceFile v).
Proof.
  unfold titleOrFile.
  rewrite orb_true_iff, !andb_true_iff, !String.eqb_eq, !truthy_true_iff.
  split; intros [H|H]; auto.
  - right. tauto.
  - right. destruct H as [H1 H2]. repeat split; auto. congruence.
Qed.

(** C1, counterexample.  In [syncTasksFromObsidian] a record that agrees
    with a stored task on the title only, with another source file, is taken
    for that task: nothing is created and the task is updated. *)
Lemma lookup_matches_title_alone :
  existsb (sameKey (Examples.boxRecord "Write docs" "done" "b.md"))
    [Examples.basicTask 1 "Write docs" "pending" "a.md" None] = false
  /\ syncTasksFromObsidian Iso.parse Examples.clock false
       (Some [Examples.basicTask 1 "Write docs" "pending" "a.md" None])
       [Examples.boxRecord "Write docs" "done" "b.md"]
     = {| tally := {| updated := 1; created := 0; conflicts := 0; errors := [] |};
          written :=
            Some [Examples.basicTask 1 "Write docs" "done" "b.md"
                    (Some "2024-06-01T10:00:00.000Z")] |}.
Proof. vm_compute. split; reflexivity. Qed.

(** C1, amended.  [syncWithObsidian] takes a vault record for an existing
    task exactly when a task has its source file and its title, and creates
    a task otherwise; [syncTasksFromObsidian] takes it for an existing task
    exactly when a task has its title, or has its source file and that is
    not empty, and counts a creation otherwise. *)
Theorem lookup_natural_key (Date_parse : string -> option Z) (now : nat -> string)
  (dryRun : bool) (k : nat) (tasks : list task) (res : syncResults) (v : vaultTask) :
  (is_Some (findIndexed (sameKey v) tasks) <->
   exists t, In t tasks /\ sourceFile t = v_sourceFile v /\ title t = v_title v)
  /\
  (fst (fromStepWith Date_parse now k (tasks, res) v)
     = tasks ++ [taskFromVault v (nextIdWith tasks) (now k)]
   /\ created (snd (fromStepWith Date_parse now k (tasks, res) v)) = S (created res)
   <-> ~ exists t, In t tasks /\ sourceFile t = v_sourceFile v /\ title t = v_title v)
  /\
  (is_Some (findIndexed (titleOrFile v) tasks) <->
   exists t, In t tasks /\
     (title t = v_title v \/ (sourceFile t <> "" /\ sourceFile t = v_sourceFile v)))
  /\
  (created (snd (fromStep Date_parse now dryRun k (tasks, res) v)) = S (created res)
   <-> ~ exists t, In t tasks /\
         (title t = v_title v \/ (sourceFile t <> "" /\ sourceFile t = v_sourceFile v))).
Proof.
  repeat split.
  - intros H. apply findIndexed_is_Some in H. destruct H as (t & Ht & Hk).
    apply sameKey_iff in Hk. eauto.
  - intros (t & Ht & Hk). apply findIndexed_is_Some. exists t.
    split; [assumption|now apply sameKey_iff].
  - intros [Hl Hc] (t & Ht & Hk).
    assert (is_Some (findIndexed (sameKey v) tasks)) as [[i e] Hs].
    { apply findIndexed_is_Some. exists t. split; [assumption|now apply sameKey_iff]. }
    unfold fromStepWith in Hc. rewrite Hs in Hc.
    destruct (hasConflict Date_parse e v); simpl in Hc; lia.
  - unfold fromStepWith.
    destruct (findIndexed (sameKey v) tasks) as [[i e]|] eqn:F; [|reflexivity].
    exfalso. apply H. destruct (findIndexed_Some _ _ _ _ F) as [Hi Hk].
    exists e. split; [eapply list_elem_of_In, list_elem_of_lookup_2; eauto|].
    now apply sameKey_iff.
  - unfold fromStepWith.
    destruct (findIndexed (sameKey v) tasks) as [[i e]|] eqn:F; [|reflexivity].
    exfalso. apply H. destruct (findIndexed_Some _ _ _ _ F) as [Hi Hk].
    exists e. split; [eapply list_elem_of_In, list_elem_of_lookup_2; eauto|].
    now apply sameKey_iff.
  - intros H. apply findIndexed_is_Some in H. destruct H as (t & Ht & Hk).
    apply titleOrFile_iff in Hk. eauto.
  - intros (t & Ht & Hk). apply findIndexed_is_Some. exists t.
    split; [assumption|now apply titleOrFile_iff].
  - intros Hc (t & Ht & Hk).
    assert (is_Some (findIndexed (titleOrFile v) tasks)) as [[i e] Hs].
    { apply findIndexed_is_Some. exists t. split; [assumption|now apply titleOrFile_iff]. }
    unfold fromStep in Hc. rewrite Hs in Hc.
    destruct (hasConflict Date_parse e v); simpl in Hc; lia.
  - intros H. unfold fromStep.
    destruct (findIndexed (titleOrFile v) tasks) as [[i e]|] eqn:F; [|reflexivity].
    exfalso. apply H. destruct (findIndexed_Some _ _ _ _ F) as [Hi Hk].
    exists e. split; [eapply list_elem_of_In, list_elem_of_lookup_2; eauto|].
    now apply titleOrFile_iff.
Qed.

(** ** Writing the store *)

(** C4, counterexample.  [syncWithObsidian] hands the tasks to [writeJSON]
    after every from-obsidian pass: with a vault without checkbox lines it
    writes although nothing was created or updated, and a pass that only
    detects a conflict writes a document that differs from the stored one. *)
Lemma syncWithObsidian_writes_always :
  syncWithObsidian Iso.parse Examples.clock Examples.globSetup
    (Some [Examples.basicTask 1 "Setup" "pending" "setup.md" None])
    (Examples.oneFile "/vault/setup.md" "# Setup") "/vault" FromObsidian
  = Done {| so_fs := Examples.oneFile "/vault/setup.md" "# Setup";
            so_results := noResults;
            so_written := Some [Examples.basicTask 1 "Setup" "pending" "setup.md" None] |}
  /\
  syncWithObsidian Iso.parse Examples.clock Examples.globSetup
    (Some [Examples.basicTask 1 "Setup" "pending" "setup.md"
             (Some "1969-12-31T23:59:59.000Z")])
    (Examples.oneFile "/vault/setup.md" "- [x] Setup") "/vault" FromObsidian
  = Done {| so_fs := Examples.oneFile "/vault/setup.md" "- [x] Setup";
            so_results := {| updated := 0; created := 0; conflicts := 1; errors := [] |};
            so_written :=
              Some [markConflict
                      (Examples.basicTask 1 "Setup" "pending" "setup.md"
                         (Some "1969-12-31T23:59:59.000Z"))] |}.
Proof. split; vm_compute; reflexivity. Qed.

(** C4, amended.  [syncTasksFromObsidian] writes the store exactly when it
    is not a dry run and its tally has a creation or an update, so a pass
    with neither leaves the stored document as it was; [syncWithObsidian]
    writes after every pass whose direction includes from-obsidian. *)
Theorem store_written_when (Date_parse : string -> option Z) (now : nat -> string)
  (dryRun : bool) (stored : option (list task)) (vaultTasks : list vaultTask) :
  (is_Some (written (syncTasksFromObsidian Date_parse now dryRun stored vaultTasks)) <->
   dryRun = false /\
   (0 < created (tally (syncTasksFromObsidian Date_parse now dryRun stored vaultTasks)) \/
    0 < updated (tally (syncTasksFromObsidian Date_parse now dryRun stored vaultTasks)))%nat)
  /\
  (created (tally (syncTasksFromObsidian Date_parse now dryRun stored vaultTasks)) = 0%nat /\
   updated (tally (syncTasksFromObsidian Date_parse now dryRun stored vaultTasks)) = 0%nat ->
   persisted stored (syncTasksFromObsidian Date_parse now dryRun stored vaultTasks) = stored)
  /\
  (forall globMd fs vaultPath d tasks0,
     goesFrom d = true ->
     exists out,
       syncWithObsidian Date_parse now globMd (Some tasks0) fs vaultPath d = Done out /\
       is_Some (so_written out)).
Proof.
  assert (is_Some (written (syncTasksFromObsidian Date_parse now dryRun stored vaultTasks)) <->
          dryRun = false /\
          (0 < created (tally (syncTasksFromObsidian Date_parse now dryRun stored vaultTasks)) \/
           0 < updated (tally (syncTasksFromObsidian Date_parse now dryRun stored vaultTasks)))%nat)
    as Hgate.
  { unfold syncTasksFromObsidian. destruct vaultTasks as [|v r].
    - simpl. split; [intros [? ?]; discriminate|intros [_ [H|H]]; lia].
    - destruct (fromLoop Date_parse now dryRun 0 _ (v :: r)) as [tasks res]. simpl.
      destruct dryRun; simpl.
      + split; [intros [? ?]; discriminate|intros [? _]; discriminate].
      + destruct (0 <? created res)%nat eqn:Ec; simpl.
        * apply Nat.ltb_lt in Ec. split; [auto|eauto].
        * apply Nat.ltb_ge in Ec.
          destruct (0 <? updated res)%nat eqn:Eu; simpl.
          -- apply Nat.ltb_lt in Eu. split; [auto|eauto].
          -- apply Nat.ltb_ge in Eu.
             split; [intros [? ?]; discriminate|intros [_ [H|H]]; lia]. }
  split; [exact Hgate|]. split.
  - intros [Hc Hu]. unfold persisted.
    destruct (written (syncTasksFromObsidian Date_parse now dryRun stored vaultTasks))
      as [ts|] eqn:W; [|reflexivity].
    assert (is_Some (Some ts)) as Hs by eauto.
    apply Hgate in Hs. lia.
  - intros globMd fs vaultPath d tasks0 Hd. unfold syncWithObsidian. rewrite Hd.
    destruct (if goesTo d then toLoopWith vaultPath (fs, noResults) tasks0
              else (fs, noResults)) as [fs1 res1].
    destruct (fromLoopWith Date_parse now 0 (tasks0, res1)
                (extractTasksFromVault (readVault globMd fs1 vaultPath)))
      as [tasks res2].
    eexists. split; [reflexivity|]. simpl. eauto.
Qed.

(** ** Records of the extractor never conflict *)

Lemma noNewConflict_refl l : noNewConflict l l.
Proof. intros i t H1 H2. eauto. Qed.

Lemma noNewConflict_trans a b c :
  noNewConflict a b -> noNewConflict b c -> noNewConflict a c.
Proof.
  intros Hab Hbc i t H1 H2.
  destruct (Hbc _ _ H1 H2) as (t0 & H3 & H4). eauto.
Qed.

Lemma tasksOfFile_untimed file content :
  Forall (fun v => v_lastModified v = None /\ v_lastSyncAt v = None)
         (tasksOfFile file content).
Proof.
  unfold tasksOfFile. apply Forall_forall. intros v Hv.
  apply list_elem_of_In, in_flat_map in Hv. destruct Hv as (l & _ & Hv).
  destruct (checkboxText l); [|destruct Hv].
  destruct Hv as [<-|[]]. auto.
Qed.

Lemma extractTasksFromVault_untimed vault :
  Forall (fun v => v_lastModified v = None /\ v_lastSyncAt v = None)
         (extractTasksFromVault vault).
Proof.
  unfold extractTasksFromVault. apply Forall_forall. intros v Hv.
  apply list_elem_of_In, in_flat_map in Hv. destruct Hv as ([file [content|]] & _ & Hv);
    simpl in Hv; [|destruct Hv].
  pose proof (tasksOfFile_untimed file content) as H.
  rewrite Forall_forall in H. apply H. now apply list_elem_of_In.
Qed.

Section NoConflict.

Variable Date_parse : string -> option Z.
Variable now : nat -> string.
Hypothesis now_not_before_epoch :
  forall k, notBeforeEpoch Date_parse (Some (now k)) = true.

Lemma hasConflict_untimed a v :
  v_lastModified v = None -> v_lastSyncAt v = None ->
  notBeforeEpoch Date_parse (lastSyncAt a) = true ->
  hasConflict Date_parse a v = false.
Proof.
  intros Hm Hs Ha. unfold hasConflict, taskTime. rewrite Hm, Hs. simpl.
  destruct (lastSyncAt a) as [s|]; simpl; [|reflexivity].
  destruct (truthy s); simpl; [|reflexivity].
  simpl in Ha. destruct (Date_parse s) as [t|]; simpl; [|reflexivity].
  apply Z.leb_le in Ha. replace (t <? 0) with false; [reflexivity|].
  symmetry. apply Z.ltb_ge. exact Ha.
Qed.

Lemma fromStep_untimed dryRun k tasks res v :
  v_lastModified v = None -> v_lastSyncAt v = None ->
  allNotBeforeEpoch Date_parse tasks ->
  allNotBeforeEpoch Date_parse (fst (fromStep Date_parse now dryRun k (tasks, res) v)) /\
  conflicts (snd (fromStep Date_parse now dryRun k (tasks, res) v)) = conflicts res /\
  noNewConflict tasks (fst (fromStep Date_parse now dryRun k (tasks, res) v)).
Proof.
  intros Hm Hs Hall. unfold fromStep.
  destruct (findIndexed (titleOrFile v) tasks) as [[i e]|] eqn:F.
  - destruct (findIndexed_Some _ _ _ _ F) as [Hi _].
    assert (notBeforeEpoch Date_parse (lastSyncAt e) = true) as He.
    { unfold allNotBeforeEpoch in Hall. rewrite Forall_lookup in Hall. eauto. }
    rewrite (hasConflict_untimed e v Hm Hs He). simpl.
    destruct dryRun; simpl.
    + auto using noNewConflict_refl.
    + split; [|split; [reflexivity|]].
      * apply Forall_insert; [exact Hall|]. simpl. apply now_not_before_epoch.
      * intros j t Hj Hc. destruct (decide (i = j)) as [->|Hne].
        -- rewrite list_lookup_insert_eq in Hj by (eapply lookup_lt_Some; eauto).
           inversion Hj; subst. simpl in Hc. discriminate.
        -- rewrite list_lookup_insert_ne in Hj by assumption. eauto.
  - destruct dryRun; simpl.
    + auto using noNewConflict_refl.
    + split; [|split; [reflexivity|]].
      * apply Forall_app. split; [exact Hall|].
        constructor; [|constructor]. simpl. apply now_not_before_epoch.
      * intros j t Hj Hc. apply lookup_app_Some in Hj.
        destruct Hj as [Hj|[_ Hj]]; [eauto|].
        destruct (j - length tasks)%nat; simpl in Hj; [|discriminate].
        inversion Hj; subst. simpl in Hc. discriminate.
Qed.

Lemma fromLoop_untimed dryRun vs : forall k tasks res,
  Forall (fun v => v_lastModified v = None /\ v_lastSyncAt v = None) vs ->
  allNotBeforeEpoch Date_parse tasks ->
  conflicts (snd (fromLoop Date_parse now dryRun k (tasks, res) vs)) = conflicts res /\
  noNewConflict tasks (fst (fromLoop Date_parse now dryRun k (tasks, res) vs)).
Proof.
  induction vs as [|v r IH]; intros k tasks res Hvs Hall.
  - simpl. auto using noNewConflict_refl.
  - inversion Hvs as [|? ? [Hm Hs] Hr]; subst.
    rewrite fromLoop_cons.
    destruct (fromStep_untimed dryRun k tasks res v Hm Hs Hall) as (H1 & H2 & H3).
    destruct (fromStep Date_parse now dryRun k (tasks, res) v) as [t1 r1].
    simpl in *. destruct (IH (S k) t1 r1 Hr H1) as [H4 H5].
    split; [congruence|]. eapply noNewConflict_trans; eauto.
Qed.

End NoConflict.

(** C10. A record of the extractor has neither [lastModified] nor
    [lastSyncAt], so its effective modification evidence is the epoch and
    [hasConflict] is false against a task whose [lastSyncAt] is not before
    the epoch; with such a store and such a clock [syncTasksFromObsidian],
    run on the extractor's records, ends with a conflict counter of zero and
    has set no [syncStatus] to conflict. *)
Theorem extractor_never_conflicts (Date_parse : string -> option Z) (now : nat -> string)
  (dryRun : bool) (stored : list task) (vault : list vaultFile) :
  forallb (fun a => notBeforeEpoch Date_parse (lastSyncAt a)) stored = true ->
  (forall k, notBeforeEpoch Date_parse (Some (now k)) = true) ->
  Forall (fun v => v_lastModified v = None /\ v_lastSyncAt v = None /\
                   effectiveEvidence Date_parse v = Some 0)
         (extractTasksFromVault vault)
  /\ (forall a v, In v (extractTasksFromVault vault) ->
        notBeforeEpoch Date_parse (lastSyncAt a) = true ->
        hasConflict Date_parse a v = false)
  /\ conflicts (tally (syncTasksFromObsidian Date_parse now dryRun (Some stored)
                         (extractTasksFromVault vault))) = 0%nat
  /\ noNewConflict stored
       (fst (fromLoop Date_parse now dryRun 0 (stored, noResults)
               (extractTasksFromVault vault))).
Proof.
  intros Hstored Hnow.
  pose proof (extractTasksFromVault_untimed vault) as Hvs.
  assert (allNotBeforeEpoch Date_parse stored) as Hall.
  { unfold allNotBeforeEpoch. apply Forall_forall. intros a Ha.
    rewrite forallb_forall in Hstored. apply Hstored. now apply list_elem_of_In. }
  destruct (fromLoop_untimed Date_parse now Hnow dryRun _ 0 stored noResults Hvs Hall)
    as [Hc Hn].
  split; [|split; [|split]].
  - eapply Forall_impl; [exact Hvs|]. intros v [Hm Hs]. simpl.
    repeat split; try assumption.
    unfold effectiveEvidence. rewrite Hm, Hs. reflexivity.
  - intros a v Hv Ha. rewrite Forall_forall in Hvs.
    destruct (Hvs v) as [Hm Hs]; [now apply list_elem_of_In|].
    now apply hasConflict_untimed.
  - unfold syncTasksFromObsidian.
    destruct (extractTasksFromVault vault) as [|v r] eqn:E; [reflexivity|].
    destruct (fromLoop Date_parse now dryRun 0 (stored, noResults) (v :: r))
      as [tasks res]. simpl in *. exact Hc.
  - exact Hn.
Qed.

(** C10, at a store synced in 2023 and a vault file whose box is unchecked
    while the stored task is done. *)
Lemma extractor_never_conflicts_witness :
  conflicts (tally (syncTasksFromObsidian Iso.parse Examples.clock false
                      (Some [Examples.basicTask 1 "Test Task" "done" "existing-task.md"
                               (Some "2023-01-01T00:00:00.000Z")])
                      (extractTasksFromVault
                         [("existing-task.md", Some "- [ ] Test Task")]))) = 0%nat.
Proof.
  apply (extractor_never_conflicts Iso.parse Examples.clock false
           [Examples.basicTask 1 "Test Task" "done" "existing-task.md"
              (Some "2023-01-01T00:00:00.000Z")]
           [("existing-task.md", Some "- [ ] Test Task")]).
  - vm_compute. reflexivity.
  - intros k. vm_compute. reflexivity.
Defined.

(** ** Tasks without a source file in the to-text passes *)

(** C9, counterexample.  [syncTasksToObsidian] writes a file for a task
    whose [sourceFile] is empty, named after its id and title, and counts it
    as created. *)
Lemma syncTasksToObsidian_ignores_sourceFile :
  syncTasksToObsidian false
    (Some [Examples.basicTask 1 "Test Task" "pending" "" None])
    {| files := ∅; dirs := {[ "/vault" ]}; denied := ∅ |} "/vault"
  = Done
      ({| files :=
            {[ "/vault/Tasks/task-001-test-task.md" :=
                 generateMarkdownForTask
                   (Examples.basicTask 1 "Test Task" "pending" "" None) ]};
          dirs := {[ "/vault/Tasks" ]} ∪ {[ "/vault" ]};
          denied := ∅ |},
       {| updated := 0; created := 1; conflicts := 0; errors := [] |}).
Proof. vm_compute. reflexivity. Qed.

Lemma toLoopWith_filter vaultPath ts : forall st,
  toLoopWith vaultPath st ts =
  toLoopWith vaultPath st (List.filter (fun t => truthy (sourceFile t)) ts).
Proof.
  unfold toLoopWith.
  induction ts as [|t r IH]; intros st; simpl; [reflexivity|].
  destruct (truthy (sourceFile t)) eqn:E; simpl.
  - apply IH.
  - rewrite <- IH. f_equal. unfold toStepWith. destruct st as [fs res].
    rewrite E. reflexivity.
Qed.

(** C9, amended.  In the to-obsidian pass of [syncWithObsidian] a task whose
    [sourceFile] is empty is skipped: the file system and the tally stay as
    they are, and the pass is the pass over the tasks that have a source
    file.  [syncTasksToObsidian] makes no such test: outside a dry run every
    task, whatever its [sourceFile], is counted once as created, updated or
    failed. *)
Theorem empty_sourceFile_skipped (vaultPath : string) (fs : fsys) (res : syncResults)
  (t : task) (tasks : list task) :
  (sourceFile t = "" -> toStepWith vaultPath (fs, res) t = (fs, res))
  /\ toLoopWith vaultPath (fs, res) tasks =
     toLoopWith vaultPath (fs, res)
       (List.filter (fun t => negb (String.eqb (sourceFile t) "")) tasks)
  /\ counted (snd (toStep false vaultPath (fs, res) t)) = S (counted res).
Proof.
  split; [|split].
  - intros E. unfold toStepWith. rewrite E. reflexivity.
  - rewrite toLoopWith_filter. f_equal. apply filter_ext.
    intros a. destruct (sourceFile a); reflexivity.
  - unfold toStep, counted.
    destruct (ensureDir fs (dirname (markdownPathOf vaultPath t))) as [fs1 [[]|m]].
    + destruct (writeFileSync fs1 (markdownPathOf vaultPath t) (generateMarkdownForTask t))
        as [fs2 [[]|m]].
      * destruct (existsSync fs1 (markdownPathOf vaultPath t)); simpl; lia.
      * simpl. rewrite length_app. simpl. lia.
    + simpl. rewrite length_app. simpl. lia.
Qed.

(** ** Resolving a cross-reference token *)

Lemma find_filter {A : Type} (p q : A -> bool) (l : list A) :
  find p (List.filter q l) = find (fun x => q x && p x) l.
Proof.
  induction l as [|x r IH]; simpl; [reflexivity|].
  destruct (q x); simpl; [|exact IH].
  destruct (p x); [reflexivity|exact IH].
Qed.

Lemma find_append {A : Type} (p : A -> bool) (l1 l2 : list A) :
  find p (l1 ++ l2) = match find p l1 with Some x => Some x | None => find p l2 end.
Proof.
  induction l1 as [|x r IH]; simpl; [reflexivity|].
  destruct (p x); [reflexivity|exact IH].
Qed.

Lemma find_map {A B : Type} (f : A -> B) (p : B -> bool) (l : list A) :
  find p (map f l) = option_map f (find (fun x => p (f x)) l).
Proof.
  induction l as [|x r IH]; simpl; [reflexivity|].
  destruct (p (f x)); [reflexivity|exact IH].
Qed.

Lemma findSubtask_entries (p : string -> bool) (tasks : list task) :
  findSubtask p tasks =
  option_map dottedId (find (fun e => p (st_title (snd e))) (subtaskEntries tasks)).
Proof.
  induction tasks as [|t r IH]; simpl; [reflexivity|].
  unfold subtaskEntries in *. simpl. rewrite find_append, find_map. simpl.
  destruct (find (fun st => p (st_title st)) (subtasks t)) as [st|]; simpl.
  - reflexivity.
  - exact IH.
Qed.

(** C6. On a token, [resolveObsidianLink] in mode to-id strips the brackets
    and trims; an empty inner text gives not found; otherwise the result is
    the first success among an exact match without case on the titles of the
    tasks, the same on the subtasks (as parent id, dot, subtask id), a
    substring match without case on the tasks, the same on the subtasks, each
    taking the first match in order; when all four fail the token comes back
    unchanged. *)
Theorem resolveObsidianLink_to_id_meets_spec (token : string) (tasks : list task) :
  isLink token = true ->
  resolveObsidianLink_to_id (IdStr token) (Some tasks) =
  resultOf (resolveToId_spec token tasks).
Proof.
  intros Hlink. unfold resolveObsidianLink_to_id, resolveToId_spec. rewrite Hlink.
  set (inner := trim (slice_2_m2 token)). clearbody inner.
  assert (String.eqb inner "" = negb (truthy inner)) as ->
    by (destruct inner; reflexivity).
  destruct (truthy inner); simpl negb; cbv iota; [|reflexivity].
  unfold firstOf. simpl fold_right.
  rewrite !find_filter, !findSubtask_entries.
  unfold titleIs, titleHas, eqNoCase, containsNoCase.
  repeat match goal with
         | |- context [find ?p ?l] => destruct (find p l); simpl; try reflexivity
         end.
Qed.

(** C6, at the store holding task 7, Auth System, with a subtask. *)
Lemma resolveObsidianLink_to_id_witness :
  isLink "[[ auth system ]]" = true /\
  resolveObsidianLink_to_id (IdStr "[[ auth system ]]")
    (Some [Examples.basicTask 7 "Auth System" "pending" "" None]) = Some (IdNum 7).
Proof.
  split; [reflexivity|].
  rewrite (resolveObsidianLink_to_id_meets_spec "[[ auth system ]]"
             [Examples.basicTask 7 "Auth System" "pending" "" None] eq_refl).
  vm_compute. reflexivity.
Defined.

(** ** Updating a checkbox twice *)

(** C7.  [updateTaskInMarkdown] is not idempotent on a title with a dollar
    sign: the title goes into the replacement text of [replace], where [$$]
    stands for one dollar sign and [$1] for the box captured, so the line
    written no longer carries the title and the second update appends a
    second line. *)
Theorem updateTaskInMarkdown_twice_differs :
  updateTaskInMarkdown "- [ ] Save $$"
    (Examples.basicTask 1 "Save $$" "done" "save.md" None)
  = "- [x] Save $"
  /\
  updateTaskInMarkdown
    (updateTaskInMarkdown "- [ ] Save $$"
       (Examples.basicTask 1 "Save $$" "done" "save.md" None))
    (Examples.basicTask 1 "Save $$" "done" "save.md" None)
  = "- [x] Save $" +:+ nl +:+ "- [x] Save $$" +:+ nl
  /\
  updateTaskInMarkdown "- [ ] Budget $100"
    (Examples.basicTask 2 "Budget $100" "done" "budget.md" None)
  = "- [x] Budget  00"
  /\
  updateTaskInMarkdown
    (updateTaskInMarkdown "- [ ] Budget $100"
       (Examples.basicTask 2 "Budget $100" "done" "budget.md" None))
    (Examples.basicTask 2 "Budget $100" "done" "budget.md" None)
  = "- [x] Budget  00" +:+ nl +:+ "- [x] Budget $100" +:+ nl.
Proof. vm_compute. repeat split. Qed.

(** ** Updating a checkbox twice, on a plain title *)

Local Arguments String.append !_ _ / : simpl nomatch.

Lemma append_assoc_s (a b c : string) : (a +:+ b) +:+ c = a +:+ (b +:+ c).
Proof. induction a as [|x a IH]; simpl; [reflexivity|f_equal; exact IH]. Qed.

Lemma stripPrefix_app p r : stripPrefix p (p +:+ r) = Some r.
Proof.
  induction p as [|a p IH]; simpl; [reflexivity|].
  now rewrite Ascii.eqb_refl.
Qed.

Lemma stripPrefix_Some p : forall s r, stripPrefix p s = Some r -> s = p +:+ r.
Proof.
  induction p as [|a p IH]; intros s r H; simpl in H.
  - now inversion H.
  - destruct s as [|b s]; [discriminate|].
    destruct (a =? b)%char eqn:E; [|discriminate].
    apply Ascii.eqb_eq in E. subst b. simpl. f_equal. auto.
Qed.

(** A prefix without line terminator ends before a line terminator. *)
Lemma stripPrefix_snoc w l v : forall u,
  allChars noTerminator w = true -> isLineTerminator l = true ->
  stripPrefix w (u +:+ String l v) =
  option_map (fun r => r +:+ String l v) (stripPrefix w u).
Proof.
  induction w as [|a w IH]; intros u Hw Hl; simpl; [reflexivity|].
  simpl in Hw. apply andb_true_iff in Hw. destruct Hw as [Ha Hw].
  destruct u as [|b u]; simpl.
  - destruct (a =? l)%char eqn:E; [|reflexivity].
    apply Ascii.eqb_eq in E. subst l. unfold noTerminator in Ha.
    rewrite Hl in Ha. discriminate.
  - destruct (a =? b)%char; [|reflexivity]. auto.
Qed.

Lemma atLineEnd_snoc r l v :
  isLineTerminator l = true -> atLineEnd (r +:+ String l v) = atLineEnd r.
Proof. intros Hl. destruct r; simpl; auto. Qed.

Lemma isBox_not_terminator c : isBox c = true -> isLineTerminator c = false.
Proof.
  unfold isBox. intros H. apply orb_true_iff in H.
  destruct H as [H|H]; apply Ascii.eqb_eq in H; subst; reflexivity.
Qed.

Lemma matchHere_sound ttl s c rest :
  matchHere ttl s = Some (c, rest) ->
  s = lineOf c ttl +:+ rest /\ isBox c = true /\ atLineEnd rest = true.
Proof.
  unfold matchHere, lineOf. intros H.
  destruct (stripPrefix "- [" s) as [[|c0 r]|] eqn:E1; try discriminate.
  destruct (isBox c0) eqn:Eb; [|discriminate].
  destruct (stripPrefix ("] " +:+ ttl) r) as [rest0|] eqn:E2; [|discriminate].
  destruct (atLineEnd rest0) eqn:Ee; [|discriminate].
  inversion H; subst.
  apply stripPrefix_Some in E1. apply stripPrefix_Some in E2. subst.
  repeat split; auto.
Qed.

Lemma matchHere_complete ttl c rest :
  isBox c = true -> atLineEnd rest = true ->
  matchHere ttl (lineOf c ttl +:+ rest) = Some (c, rest).
Proof.
  intros Hb He. unfold matchHere, lineOf.
  rewrite append_assoc_s, stripPrefix_app. simpl String.append at 1. cbv iota.
  rewrite Hb.
  change (String "]" (String " " (ttl +:+ rest))) with (("] " +:+ ttl) +:+ rest).
  rewrite stripPrefix_app, He. reflexivity.
Qed.

(** What follows a line terminator does not change a match before it. *)
Lemma matchHere_snoc ttl s l v :
  allChars noTerminator ttl = true -> isLineTerminator l = true ->
  matchHere ttl (s +:+ String l v) =
  option_map (fun m => (fst m, snd m +:+ String l v)) (matchHere ttl s).
Proof.
  intros Ht Hl. unfold matchHere.
  rewrite (stripPrefix_snoc "- [" l v s eq_refl Hl).
  destruct (stripPrefix "- [" s) as [[|c r]|]; cbn [option_map]; try reflexivity.
  - change ("" +:+ String l v) with (String l v). cbv iota.
    destruct (isBox l) eqn:Eb; [|reflexivity].
    apply isBox_not_terminator in Eb. congruence.
  - change (String c r +:+ String l v) with (String c (r +:+ String l v)). cbv iota.
    destruct (isBox c); [|reflexivity].
    assert (allChars noTerminator ("] " +:+ ttl) = true) as Hw by exact Ht.
    rewrite (stripPrefix_snoc _ l v r Hw Hl).
    destruct (stripPrefix ("] " +:+ ttl) r) as [rest|]; cbn [option_map]; [|reflexivity].
    rewrite (atLineEnd_snoc _ _ _ Hl).
    destruct (atLineEnd rest); reflexivity.
Qed.

Lemma searchFrom_eq ttl bol s :
  searchFrom ttl bol s =
  match (if bol then matchHere ttl s else None) with
  | Some (c, rest) => Some (EmptyString, c, rest)
  | None =>
      match s with
      | EmptyString => None
      | String a r =>
          match searchFrom ttl (isLineTerminator a) r with
          | Some (before, c, rest) => Some (String a before, c, rest)
          | None => None
          end
      end
  end.
Proof. destruct s; reflexivity. Qed.

Lemma searchFrom_sound ttl s : forall bol before c after,
  searchFrom ttl bol s = Some (before, c, after) ->
  s = before +:+ lineOf c ttl +:+ after /\ isBox c = true /\
  atLineEnd after = true /\ lineStartAfter bol before = true.
Proof.
  induction s as [|a r IH]; intros bol before c after H;
    rewrite searchFrom_eq in H.
  - destruct bol; [|discriminate].
    destruct (matchHere ttl "") as [[c0 rest]|] eqn:E; [|discriminate].
    inversion H; subst. apply matchHere_sound in E. simpl. tauto.
  - destruct (if bol then matchHere ttl (String a r) else None) as [[c0 rest]|] eqn:E.
    + inversion H; subst. destruct bol; [|discriminate].
      apply matchHere_sound in E. simpl. tauto.
    + destruct (searchFrom ttl (isLineTerminator a) r) as [[[b1 c1] a1]|] eqn:E1;
        [|discriminate].
      inversion H; subst. destruct (IH _ _ _ _ E1) as (H1 & H2 & H3 & H4).
      simpl. repeat split; auto. now f_equal.
Qed.

(** A text after which a line starts ends with a line terminator. *)
Lemma lineStartAfter_last s : forall a,
  lineStartAfter (isLineTerminator a) s = true ->
  exists u l, String a s = u +:+ String l "" /\ isLineTerminator l = true.
Proof.
  induction s as [|b s IH]; intros a H; simpl in H.
  - exists "", a. auto.
  - destruct (IH b H) as (u & l & Hu & Hl).
    exists (String a u), l. simpl. rewrite <- Hu. auto.
Qed.

(** Rewriting the box of the first match leaves it the first match. *)
Lemma searchFrom_rewritten ttl c' s : forall bol before c after,
  allChars noTerminator ttl = true -> isBox c' = true ->
  searchFrom ttl bol s = Some (before, c, after) ->
  searchFrom ttl bol (before +:+ lineOf c' ttl +:+ after) = Some (before, c', after).
Proof.
  induction s as [|a r IH]; intros bol before c after Ht Hb H;
    pose proof (searchFrom_sound _ _ _ _ _ _ H) as (Hs & _ & He & Hl);
    rewrite searchFrom_eq in H.
  - destruct bol; [|discriminate].
    destruct (matchHere ttl "") as [[c0 rest]|]; [|discriminate].
    inversion H; subst. rewrite searchFrom_eq.
    change ("" +:+ lineOf c' ttl +:+ after) with (lineOf c' ttl +:+ after).
    rewrite (matchHere_complete _ _ _ Hb He). reflexivity.
  - destruct (if bol then matchHere ttl (String a r) else None) as [[c0 rest]|] eqn:E.
    + inversion H; subst. destruct bol; [|discriminate]. rewrite searchFrom_eq.
      change ("" +:+ lineOf c' ttl +:+ after) with (lineOf c' ttl +:+ after).
      rewrite (matchHere_complete _ _ _ Hb He). reflexivity.
    + destruct (searchFrom ttl (isLineTerminator a) r) as [[[b1 c1] a1]|] eqn:E1;
        [|discriminate].
      injection H as H1 H2 H3. subst before c1 a1.
      destruct (searchFrom_sound _ _ _ _ _ _ E1) as (Hr & _ & _ & Hl1).
      rewrite searchFrom_eq.
      change (String a b1 +:+ lineOf c' ttl +:+ after)
        with (String a (b1 +:+ lineOf c' ttl +:+ after)).
      cbv iota. rewrite (IH _ _ _ _ Ht Hb E1).
      assert ((if bol then matchHere ttl (String a (b1 +:+ lineOf c' ttl +:+ after))
               else None) = None) as ->; [|reflexivity].
      destruct bol; [|reflexivity].
      destruct (lineStartAfter_last _ _ Hl1) as (u & l & Hu & Hlt).
      change (String a (b1 +:+ lineOf c' ttl +:+ after))
        with (String a b1 +:+ lineOf c' ttl +:+ after).
      rewrite Hu, append_assoc_s.
      change (String l "" +:+ lineOf c' ttl +:+ after)
        with (String l (lineOf c' ttl +:+ after)).
      rewrite (matchHere_snoc _ _ _ _ Ht Hlt).
      assert (String a r = u +:+ String l (lineOf c ttl +:+ after)) as Hold.
      { rewrite Hr.
        change (String a (b1 +:+ lineOf c ttl +:+ after))
          with (String a b1 +:+ lineOf c ttl +:+ after).
        rewrite Hu, append_assoc_s. reflexivity. }
      rewrite Hold, (matchHere_snoc _ _ _ _ Ht Hlt) in E.
      destruct (matchHere ttl u); [discriminate|reflexivity].
Qed.

(** A checkbox line appended to a text without match is the first match. *)
Lemma searchFrom_appended ttl c' s : forall bol,
  allChars noTerminator ttl = true -> isBox c' = true ->
  searchFrom ttl bol s = None ->
  searchFrom ttl bol (s +:+ nl +:+ lineOf c' ttl +:+ nl) = Some (s +:+ nl, c', nl).
Proof.
  induction s as [|a r IH]; intros bol Ht Hb H; rewrite searchFrom_eq in H.
  - change ("" +:+ nl +:+ lineOf c' ttl +:+ nl)
      with (String "010" (lineOf c' ttl +:+ nl)).
    rewrite searchFrom_eq.
    assert ((if bol then matchHere ttl (String "010" (lineOf c' ttl +:+ nl)) else None)
            = None) as -> by (destruct bol; reflexivity).
    rewrite searchFrom_eq.
    change (isLineTerminator "010") with true. cbv iota.
    rewrite (matchHere_complete ttl c' nl Hb eq_refl). reflexivity.
  - destruct (if bol then matchHere ttl (String a r) else None) as [[c0 rest]|] eqn:E;
      [discriminate|].
    destruct (searchFrom ttl (isLineTerminator a) r) as [[[b1 c1] a1]|] eqn:E1;
      [discriminate|].
    rewrite searchFrom_eq.
    assert ((if bol
             then matchHere ttl (String a r +:+ nl +:+ lineOf c' ttl +:+ nl)
             else None) = None) as ->.
    { destruct bol; [|reflexivity].
      change (nl +:+ lineOf c' ttl +:+ nl) with (String "010" (lineOf c' ttl +:+ nl)).
      rewrite (matchHere_snoc ttl (String a r) "010" (lineOf c' ttl +:+ nl) Ht eq_refl), E.
      reflexivity. }
    change (String a r +:+ nl +:+ lineOf c' ttl +:+ nl)
      with (String a (r +:+ nl +:+ lineOf c' ttl +:+ nl)).
    cbv iota. rewrite (IH _ Ht Hb E1). reflexivity.
Qed.

Lemma getSubstitution_other matched before after capture c rest :
  noDollar c = true ->
  getSubstitution matched before after capture (String c rest) =
  String c (getSubstitution matched before after capture rest).
Proof.
  unfold noDollar. intros H.
  destruct c as [[] [] [] [] [] [] [] []]; try reflexivity; discriminate.
Qed.

(** A template without dollar sign is inserted as it is. *)
Lemma getSubstitution_plain matched before after capture template :
  allChars noDollar template = true ->
  getSubstitution matched before after capture template = template.
Proof.
  induction template as [|c r IH]; intros H; [reflexivity|].
  simpl in H. apply andb_true_iff in H. destruct H as [Hc Hr].
  rewrite (getSubstitution_other _ _ _ _ _ _ Hc). f_equal. auto.
Qed.

Lemma replacement_lineOf t :
  "- " +:+ checkboxOf t +:+ " " +:+ title t = lineOf (boxChar t) (title t).
Proof. unfold checkboxOf, boxChar, lineOf. destruct (String.eqb (status t) "done"); reflexivity. Qed.

Lemma isBox_boxChar t : isBox (boxChar t) = true.
Proof. unfold boxChar. destruct (String.eqb (status t) "done"); reflexivity. Qed.

(** The other half of C7: on a title that has no dollar sign and no line
    terminator, updating twice gives the text of updating once, whether the
    first update rewrote a checkbox line or appended one. *)
Theorem updateTaskInMarkdown_idempotent_plain (content : string) (t : task) :
  plainTitle (title t) = true ->
  updateTaskInMarkdown (updateTaskInMarkdown content t) t =
  updateTaskInMarkdown content t.
Proof.
  unfold plainTitle. intros H. apply andb_true_iff in H. destruct H as [Hd Ht].
  assert (forall m b a cap,
            getSubstitution m b a cap ("- " +:+ checkboxOf t +:+ " " +:+ title t)
            = lineOf (boxChar t) (title t)) as Hsub.
  { intros m b a cap. rewrite getSubstitution_plain; [apply replacement_lineOf|].
    rewrite replacement_lineOf. unfold lineOf, boxChar.
    destruct (String.eqb (status t) "done"); simpl; exact Hd. }
  pose proof (isBox_boxChar t) as Hb.
  destruct (searchFrom (title t) true content) as [[[before c] after]|] eqn:E.
  - assert (updateTaskInMarkdown content t =
            before +:+ lineOf (boxChar t) (title t) +:+ after) as ->.
    { unfold updateTaskInMarkdown, taskRegexExec. rewrite E, Hsub. reflexivity. }
    unfold updateTaskInMarkdown, taskRegexExec.
    rewrite (searchFrom_rewritten _ _ _ _ _ _ _ Ht Hb E), Hsub. reflexivity.
  - assert (updateTaskInMarkdown content t =
            content +:+ nl +:+ lineOf (boxChar t) (title t) +:+ nl) as ->.
    { unfold updateTaskInMarkdown, taskRegexExec. rewrite E.
      do 2 f_equal. rewrite <- replacement_lineOf.
      unfold checkboxOf. destruct (String.eqb (status t) "done"); reflexivity. }
    unfold updateTaskInMarkdown, taskRegexExec.
    rewrite (searchFrom_appended _ _ _ _ Ht Hb E), Hsub.
    now rewrite append_assoc_s.
Qed.

Lemma updateTaskInMarkdown_idempotent_plain_witness :
  updateTaskInMarkdown
    (updateTaskInMarkdown "# Notes"
       (Examples.basicTask 1 "Write docs" "done" "note.md" None))
    (Examples.basicTask 1 "Write docs" "done" "note.md" None)
  = "# Notes" +:+ nl +:+ "- [x] Write docs" +:+ nl.
Proof.
  rewrite (updateTaskInMarkdown_idempotent_plain "# Notes"
             (Examples.basicTask 1 "Write docs" "done" "note.md" None) eq_refl).
  vm_compute. reflexivity.
Defined.

(** [escapeRegex] makes the pattern read the title literally. *)
Lemma escapeRegex_literal s : literalOfSource (escapeRegex s) = Some s.
Proof.
  induction s as [|c r IH]; [reflexivity|].
  simpl escapeRegex. destruct (isRegexSpecial c) eqn:E.
  - assert (literalOfSource (String "\" (String c (escapeRegex r))) =
            if isRegexSpecial c
            then match literalOfSource (escapeRegex r) with
                 | Some l => Some (String c l) | None => None end
            else None) as -> by reflexivity.
    rewrite E, IH. reflexivity.
  - assert (forall x, isRegexSpecial c = false ->
              literalOfSource (String c x) =
              match literalOfSource x with
              | Some l => Some (String c l) | None => None end) as Hplain.
    { intros x Hc.
      destruct c as [[] [] [] [] [] [] [] []];
        try (vm_compute in Hc; discriminate Hc); destruct x; reflexivity. }
    rewrite (Hplain _ E), IH. reflexivity.
Qed.

(** ** The scenarios of the specification *)

(** One unchecked box in [note.md] and an empty store: one task, id 1. *)
Example scenario_first_task :
  syncTasksFromObsidian Iso.parse Examples.clock false (Some [])
    (extractTasksFromVault [("note.md", Some "- [ ] Write docs")])
  = {| tally := {| updated := 0; created := 1; conflicts := 0; errors := [] |};
       written :=
         Some [Examples.basicTask 1 "Write docs" "pending" "note.md"
                 (Some "2024-06-01T10:00:00.000Z")] |}.
Proof. vm_compute. reflexivity. Qed.

(** A task never synced whose box is now checked: updated to done, no
    conflict. *)
Example scenario_first_sync :
  syncTasksFromObsidian Iso.parse Examples.clock false
    (Some [Examples.basicTask 1 "Setup" "pending" "setup.md" None])
    (extractTasksFromVault [("setup.md", Some "- [x] Setup")])
  = {| tally := {| updated := 1; created := 0; conflicts := 0; errors := [] |};
       written :=
         Some [Examples.basicTask 1 "Setup" "done" "setup.md"
                 (Some "2024-06-01T10:00:00.000Z")] |}.
Proof. vm_compute. reflexivity. Qed.

(** A token that matches no task comes back unchanged; a subtask is found
    by a part of its title, without regard to case. *)
Example scenario_tokens :
  resolveObsidianLink_to_id (IdStr "[[Nonexistent Thing]]")
    (Some [Examples.basicTask 7 "Auth System" "pending" "" None])
  = Some (IdStr "[[Nonexistent Thing]]")
  /\ resolveObsidianLink_to_id (IdStr "[[  ]]")
       (Some [Examples.basicTask 7 "Auth System" "pending" "" None])
     = None
  /\ resolveObsidianLink_to_id (IdStr "[[login]]")
       (Some [Examples.withSubtasks
                (Examples.basicTask 7 "Auth System" "pending" "" None)
                [{| st_id := 1; st_title := "Design" |};
                 {| st_id := 2; st_title := "LOGIN form" |}]])
     = Some (IdStr "7.2").
Proof. vm_compute. repeat split. Qed.

(** The rendering of a task and the extraction of its checkbox. *)
Example scenario_render :
  generateMarkdownForTask (Examples.basicTask 1 "Test Task" "pending" "" None)
  = "---" +:+ nl +:+ "task_id: 1" +:+ nl +:+ "priority: medium" +:+ nl +:+
    "status: pending" +:+ nl +:+ "---" +:+ nl +:+ nl +:+
    "# Test Task" +:+ nl +:+ nl +:+ "- [ ] Test Task" +:+ nl +:+ nl +:+
    "## Description" +:+ nl +:+ "Test Task" +:+ nl +:+ nl
  /\ map v_title
       (tasksOfFile "t.md"
          (generateMarkdownForTask (Examples.basicTask 1 "Test Task" "pending" "" None)))
     = ["Test Task"].
Proof. vm_compute. repeat split. Qed.

(** * Further properties of the engine *)

(** ** Lines and checkbox lines *)

Lemma allChars_app p a b : allChars p (a +:+ b) = allChars p a && allChars p b.
Proof.
  induction a as [|x a IH]; simpl; [reflexivity|].
  now rewrite IH, andb_assoc.
Qed.

Lemma lines_not_nil s : lines s <> [].
Proof.
  destruct s as [|c r]; simpl; [discriminate|].
  destruct (isLineTerminator c); [discriminate|].
  destruct (lines r); discriminate.
Qed.

Lemma lines_cons_terminator c r :
  isLineTerminator c = true -> lines (String c r) = "" :: lines r.
Proof. intros H. simpl. now rewrite H. Qed.

Lemma lines_cons_other c r :
  isLineTerminator c = false ->
  exists l ls, lines r = l :: ls /\ lines (String c r) = String c l :: ls.
Proof.
  intros H. simpl. rewrite H.
  destruct (lines r) as [|l ls] eqn:E; [now apply lines_not_nil in E|eauto].
Qed.

(** A line terminator splits the lines. *)
Lemma lines_split a l b :
  isLineTerminator l = true -> lines (a +:+ String l b) = lines a ++ lines b.
Proof.
  intros Hl. induction a as [|c a IH].
  - simpl String.append. rewrite (lines_cons_terminator _ _ Hl). reflexivity.
  - change (String c a +:+ String l b) with (String c (a +:+ String l b)).
    destruct (isLineTerminator c) eqn:Ec.
    + rewrite !(lines_cons_terminator _ _ Ec), IH. reflexivity.
    + destruct (lines_cons_other c a Ec) as (l0 & ls & E1 & E2).
      destruct (lines_cons_other c (a +:+ String l b) Ec) as (l1 & ls1 & E3 & E4).
      rewrite E4, E2. rewrite IH, E1 in E3. simpl in E3.
      inversion E3; subst. reflexivity.
Qed.

Lemma lines_single s : allChars noTerminator s = true -> lines s = [s].
Proof.
  induction s as [|c r IH]; intros H; [reflexivity|].
  simpl in H. apply andb_true_iff in H. destruct H as [Hc Hr].
  unfold noTerminator in Hc. apply negb_true_iff in Hc.
  simpl. rewrite Hc, (IH Hr). reflexivity.
Qed.

Lemma lines_no_terminator s :
  Forall (fun l => allChars noTerminator l = true) (lines s).
Proof.
  induction s as [|c r IH]; [repeat constructor|].
  destruct (isLineTerminator c) eqn:Ec.
  - rewrite (lines_cons_terminator _ _ Ec). constructor; [reflexivity|exact IH].
  - destruct (lines_cons_other c r Ec) as (l0 & ls & E1 & E2).
    rewrite E2. rewrite E1 in IH. inversion IH; subst.
    constructor; [|assumption]. simpl. unfold noTerminator at 1. now rewrite Ec.
Qed.

(** The text before the first line terminator is the first line. *)
Lemma lines_head s :
  exists l ls rest,
    lines s = l :: ls /\ s = l +:+ rest /\ atLineEnd rest = true.
Proof.
  induction s as [|c r (l & ls & rest & E1 & E2 & E3)].
  - exists "", [], "". auto.
  - destruct (isLineTerminator c) eqn:Ec.
    + exists "", (lines r), (String c r).
      rewrite (lines_cons_terminator _ _ Ec). simpl. auto.
    + exists (String c l), ls, rest. simpl. rewrite Ec, E1.
      repeat split; [now f_equal|assumption].
Qed.

Ltac char_case a := destruct a as [[] [] [] [] [] [] [] []]; try reflexivity.

(** The pattern of the extractor, read through [stripPrefix]. *)
Lemma checkboxText_eq l :
  checkboxText l =
  match stripPrefix "- [" l with
  | Some (String c r1) =>
      match stripPrefix "] " r1 with
      | Some r => if isBox c && truthy r then Some r else None
      | None => None
      end
  | _ => None
  end.
Proof.
  destruct l as [|a0 l]; [reflexivity|]. char_case a0.
  destruct l as [|a1 l]; [reflexivity|]. char_case a1.
  destruct l as [|a2 l]; [reflexivity|]. char_case a2.
  destruct l as [|c l]; [reflexivity|].
  destruct l as [|a4 l]; [reflexivity|]. char_case a4.
  destruct l as [|a5 l]; [reflexivity|]. char_case a5.
Qed.

Lemma checkboxText_Some l r :
  checkboxText l = Some r <->
  exists c, isBox c = true /\ l = lineOf c r /\ r <> "".
Proof.
  rewrite checkboxText_eq. split.
  - destruct (stripPrefix "- [" l) as [[|c r1]|] eqn:E1; try discriminate.
    destruct (stripPrefix "] " r1) as [r0|] eqn:E2; [|discriminate].
    destruct (isBox c) eqn:Eb; [|discriminate].
    destruct (truthy r0) eqn:Et; [|discriminate].
    simpl. intros H. inversion H; subst r0.
    apply stripPrefix_Some in E1. apply stripPrefix_Some in E2.
    exists c. split; [assumption|]. split.
    + subst. reflexivity.
    + now apply truthy_true_iff.
  - intros (c & Hb & -> & Hr). unfold lineOf.
    rewrite stripPrefix_app.
    change (String "]" (String " " r)) with ("] " +:+ r).
    rewrite stripPrefix_app, Hb.
    apply truthy_true_iff in Hr. now rewrite Hr.
Qed.

Lemma includes_cons a r sub :
  includes (String a r) sub = startsWith (String a r) sub || includes r sub.
Proof. reflexivity. Qed.

(** A checkbox line has the mark of completion when its box is checked or
    its title has the mark. *)
Lemma includes_lineOf c ttl :
  isBox c = true ->
  includes (lineOf c ttl) "[x]" = (c =? "x")%char || includes ttl "[x]".
Proof.
  unfold isBox. intros H. apply orb_true_iff in H.
  destruct H as [H|H]; apply Ascii.eqb_eq in H; subst c; unfold lineOf;
    simpl String.append; rewrite !includes_cons; reflexivity.
Qed.

(** ** What the extractor returns *)

(** X2. Every record of [extractTasksFromVault] has a title that is not
    empty and holds no line terminator, its title as description, medium
    priority and no dependency; it comes from a checkbox line of a file of
    the vault that could be read, and its status is done exactly when the
    box of that line is checked or the title itself contains the checked
    box. *)
Theorem extractTasksFromVault_well_formed (vault : list vaultFile) :
  Forall (wellFormedRecord vault) (extractTasksFromVault vault).
Proof.
  apply Forall_forall. intros v Hv. apply list_elem_of_In in Hv.
  unfold extractTasksFromVault in Hv. apply in_flat_map in Hv.
  destruct Hv as ([file [content|]] & Hf & Hv); simpl in Hv; [|destruct Hv].
  unfold tasksOfFile in Hv. apply in_flat_map in Hv.
  destruct Hv as (l & Hl & Hv).
  destruct (checkboxText l) as [taskText|] eqn:E; [|destruct Hv].
  destruct Hv as [<-|[]].
  apply checkboxText_Some in E. destruct E as (c & Hb & -> & Hne).
  pose proof (lines_no_terminator content) as Hnt.
  rewrite Forall_forall in Hnt. apply list_elem_of_In in Hl.
  pose proof (Hnt _ Hl) as Hline. apply list_elem_of_In in Hl.
  unfold lineOf in Hline. rewrite allChars_app in Hline.
  apply andb_true_iff in Hline. destruct Hline as [_ Hline].
  simpl in Hline. apply andb_true_iff in Hline. destruct Hline as [_ Hline].
  unfold wellFormedRecord.
  cbn [v_title v_description v_priority v_dependencies v_sourceFile v_status
       v_obsidianTags v_linkedNotes].
  repeat split; try assumption.
  exists content, c. rewrite (includes_lineOf c taskText Hb). repeat split; assumption.
Qed.

(** ** Rendering a task and reading it back *)

Lemma lines_In_between p q x :
  allChars noTerminator x = true ->
  In x (lines (p +:+ nl +:+ x +:+ nl +:+ q)).
Proof.
  intros Hx.
  change (nl +:+ x +:+ nl +:+ q) with (String "010" (x +:+ String "010" q)).
  rewrite (lines_split p "010" _ eq_refl), (lines_split x "010" q eq_refl),
    (lines_single x Hx).
  apply in_or_app. right. now left.
Qed.

(** The text of [generateMarkdownForTask] around its checkbox line. *)
Lemma generateMarkdownForTask_shape t :
  exists p q,
    generateMarkdownForTask t =
    p +:+ nl +:+ lineOf (boxChar t) (title t) +:+ nl +:+ q.
Proof.
  unfold generateMarkdownForTask.
  set (fm := if nonEmpty (obsidianTags t) || nonEmpty (linkedNotes t) || negb (id t =? 0)
             then _ else _).
  set (tail := (if truthy (description t) then _ else _) +:+ _).
  exists (fm +:+ "# " +:+ title t +:+ nl), (nl +:+ tail).
  rewrite <- replacement_lineOf.
  rewrite !append_assoc_s. reflexivity.
Qed.

(** X3. The text rendered for a task whose title is not empty and holds no
    line terminator, read back by the extractor, yields a record with the
    task's title; its status is done when the task is done or when the
    title contains the checked box, and pending otherwise. *)
Theorem render_then_extract (file : string) (t : task) :
  title t <> "" ->
  allChars noTerminator (title t) = true ->
  exists v,
    In v (tasksOfFile file (generateMarkdownForTask t)) /\
    v_title v = title t /\
    v_sourceFile v = file /\
    v_status v =
      (if String.eqb (status t) "done" || includes (title t) "[x]"
       then "done" else "pending").
Proof.
  intros Hne Hnt.
  destruct (generateMarkdownForTask_shape t) as (p & q & E).
  assert (allChars noTerminator (lineOf (boxChar t) (title t)) = true) as Hline.
  { unfold lineOf, boxChar. destruct (String.eqb (status t) "done"); simpl; exact Hnt. }
  pose proof (lines_In_between p q _ Hline) as Hin. rewrite <- E in Hin.
  assert (checkboxText (lineOf (boxChar t) (title t)) = Some (title t)) as Hcb.
  { apply checkboxText_Some. exists (boxChar t).
    split; [apply isBox_boxChar|]. split; [reflexivity|assumption]. }
  eexists. split.
  - unfold tasksOfFile. apply in_flat_map.
    exists (lineOf (boxChar t) (title t)). split; [exact Hin|].
    rewrite Hcb. left. reflexivity.
  - cbn [v_title v_sourceFile v_status]. repeat split.
    rewrite (includes_lineOf _ _ (isBox_boxChar t)).
    unfold boxChar. destruct (String.eqb (status t) "done"); reflexivity.
Qed.

Lemma render_then_extract_witness :
  exists v,
    In v (tasksOfFile "t.md"
            (generateMarkdownForTask
               (Examples.basicTask 3 "Fix [x] rendering" "pending" "" None))) /\
    v_title v = "Fix [x] rendering" /\ v_status v = "done".
Proof.
  destruct (render_then_extract "t.md"
              (Examples.basicTask 3 "Fix [x] rendering" "pending" "" None))
    as (v & H1 & H2 & _ & H4).
  - discriminate.
  - reflexivity.
  - exists v. repeat split; assumption.
Defined.

(** ** The one line that an update changes *)

Lemma append_nil_r_s (a : string) : a +:+ "" = a.
Proof. induction a as [|x a IH]; simpl; [reflexivity|f_equal; exact IH]. Qed.

Lemma isBox_cases c : isBox c = true -> c = " "%char \/ c = "x"%char.
Proof.
  unfold isBox. intros H. apply orb_true_iff in H.
  destruct H as [H|H]; apply Ascii.eqb_eq in H; auto.
Qed.

Lemma isTaskLine_lineOf ttl c : isBox c = true -> isTaskLine ttl (lineOf c ttl) = true.
Proof.
  intros H. unfold isTaskLine.
  destruct (isBox_cases c H) as [-> | ->]; rewrite String.eqb_refl;
    [reflexivity|apply orb_true_r].
Qed.

(** Without a match at its head, a text does not start with a checkbox
    line of the title. *)
Lemma matchHere_None_head ttl s l ls :
  matchHere ttl s = None -> lines s = l :: ls -> isTaskLine ttl l = false.
Proof.
  intros Hm Hl.
  destruct (lines_head s) as (l0 & ls0 & rest & E1 & E2 & E3).
  rewrite Hl in E1. inversion E1; subst l0 ls0.
  destruct (isTaskLine ttl l) eqn:Et; [|reflexivity].
  unfold isTaskLine in Et. apply orb_true_iff in Et.
  destruct Et as [Et|Et]; apply String.eqb_eq in Et; subst l;
    rewrite E2, matchHere_complete in Hm; try discriminate; try reflexivity;
    exact E3.
Qed.

Lemma searchFrom_nil ttl bol : searchFrom ttl bol "" = None.
Proof. destruct bol; reflexivity. Qed.

(** Without a match, no line is a checkbox line of the title; when the
    text does not begin a line, its first line is not looked at. *)
Lemma searchFrom_None_lines ttl s : forall bol,
  searchFrom ttl bol s = None ->
  Forall (fun l => isTaskLine ttl l = false)
         (if bol then lines s else tl (lines s)).
Proof.
  induction s as [|a r IH]; intros bol H.
  - destruct bol; simpl; repeat constructor.
  - rewrite searchFrom_eq in H.
    destruct (if bol then matchHere ttl (String a r) else None) as [[c0 rest]|] eqn:E;
      [discriminate|].
    destruct (searchFrom ttl (isLineTerminator a) r) as [[[b1 c1] a1]|] eqn:E1;
      [discriminate|].
    specialize (IH _ E1).
    destruct (isLineTerminator a) eqn:Ea.
    + rewrite (lines_cons_terminator _ _ Ea).
      destruct bol; simpl; [constructor; [reflexivity|]|]; exact IH.
    + destruct (lines_cons_other a r Ea) as (l0 & ls & E2 & E3).
      rewrite E3. rewrite E2 in IH. simpl in IH.
      destruct bol; simpl; [|exact IH].
      constructor; [|exact IH].
      eapply matchHere_None_head; eauto.
Qed.

(** The text before the first match, without its last line terminator,
    has no match. *)
Lemma searchFrom_before_None ttl s : forall bol before c after b0 l,
  allChars noTerminator ttl = true ->
  searchFrom ttl bol s = Some (before, c, after) ->
  before = b0 +:+ String l "" -> isLineTerminator l = true ->
  searchFrom ttl bol b0 = None.
Proof.
  induction s as [|a r IH]; intros bol before c after b0 l Ht H Hb Hl;
    pose proof (searchFrom_sound _ _ _ _ _ _ H) as (Hs & _ & _ & _);
    rewrite searchFrom_eq in H.
  - destruct bol; [|discriminate].
    destruct (matchHere ttl "") as [[c0 rest]|]; [|discriminate].
    inversion H; subst. destruct b0; discriminate.
  - destruct (if bol then matchHere ttl (String a r) else None) as [[c0 rest]|] eqn:E.
    + inversion H; subst. destruct b0; discriminate.
    + destruct (searchFrom ttl (isLineTerminator a) r) as [[[b1 c1] a1]|] eqn:E1;
        [|discriminate].
      injection H as H1 H2 H3. subst c1 a1.
      destruct b0 as [|a' b0'].
      * apply searchFrom_nil.
      * rewrite Hb in H1. simpl in H1. injection H1 as Ha Hb1. subst a'.
        rewrite searchFrom_eq.
        rewrite (IH _ _ _ _ _ _ Ht E1 Hb1 Hl).
        assert ((if bol then matchHere ttl (String a b0') else None) = None) as ->;
          [|reflexivity].
        destruct bol; [|reflexivity].
        destruct (searchFrom_sound _ _ _ _ _ _ E1) as (Hr & _).
        rewrite Hr, Hb1, append_assoc_s in E.
        change (String a (b0' +:+ String l "" +:+ lineOf c ttl +:+ after))
          with (String a b0' +:+ String l (lineOf c ttl +:+ after)) in E.
        rewrite (matchHere_snoc _ _ _ _ Ht Hl) in E.
        destruct (matchHere ttl (String a b0')); [discriminate|reflexivity].
Qed.

Lemma lineStartAfter_true before :
  lineStartAfter true before = true ->
  before = "" \/
  exists b0 l, before = b0 +:+ String l "" /\ isLineTerminator l = true.
Proof.
  destruct before as [|a s]; [now left|]. intros H. right.
  apply (lineStartAfter_last s a). exact H.
Qed.

Lemma lines_line_then after y :
  allChars noTerminator y = true -> atLineEnd after = true ->
  lines (y +:+ after) = y :: tl (lines after).
Proof.
  intros Hy Ha. destruct after as [|l a0].
  - rewrite append_nil_r_s. apply lines_single. exact Hy.
  - simpl in Ha. rewrite (lines_split y l a0 Ha), (lines_single y Hy),
      (lines_cons_terminator _ _ Ha). reflexivity.
Qed.

Lemma lineOf_no_terminator c ttl :
  isBox c = true -> allChars noTerminator ttl = true ->
  allChars noTerminator (lineOf c ttl) = true.
Proof.
  intros Hb Ht. destruct (isBox_cases c Hb) as [-> | ->]; simpl; exact Ht.
Qed.

(** X4. On a title without dollar sign and line terminator,
    [updateTaskInMarkdown] either rewrites the box of the first line that
    is a checkbox line of the title and leaves every other character and
    line as it was, or, when no line is such a line, appends one. *)
Theorem updateTaskInMarkdown_one_line (content : string) (t : task) :
  plainTitle (title t) = true ->
  (exists before c after pre post,
     isBox c = true /\
     content = before +:+ lineOf c (title t) +:+ after /\
     updateTaskInMarkdown content t =
       before +:+ lineOf (boxChar t) (title t) +:+ after /\
     lines content = pre ++ lineOf c (title t) :: post /\
     lines (updateTaskInMarkdown content t) =
       pre ++ lineOf (boxChar t) (title t) :: post /\
     Forall (fun l => isTaskLine (title t) l = false) pre)
  \/
  (Forall (fun l => isTaskLine (title t) l = false) (lines content) /\
   updateTaskInMarkdown content t =
     content +:+ nl +:+ lineOf (boxChar t) (title t) +:+ nl).
Proof.
  unfold plainTitle. intros H. apply andb_true_iff in H. destruct H as [Hd Ht].
  assert (forall m b a cap,
            getSubstitution m b a cap ("- " +:+ checkboxOf t +:+ " " +:+ title t)
            = lineOf (boxChar t) (title t)) as Hsub.
  { intros m b a cap. rewrite getSubstitution_plain; [apply replacement_lineOf|].
    rewrite replacement_lineOf. unfold lineOf, boxChar.
    destruct (String.eqb (status t) "done"); simpl; exact Hd. }
  pose proof (isBox_boxChar t) as Hb.
  destruct (searchFrom (title t) true content) as [[[before c] after]|] eqn:E.
  - left.
    assert (updateTaskInMarkdown content t =
            before +:+ lineOf (boxChar t) (title t) +:+ after) as Hu.
    { unfold updateTaskInMarkdown, taskRegexExec. rewrite E, Hsub. reflexivity. }
    destruct (searchFrom_sound _ _ _ _ _ _ E) as (Hc & Hbox & Hend & Hstart).
    assert (forall y, allChars noTerminator y = true ->
              exists pre,
                lines (before +:+ y +:+ after) = pre ++ y :: tl (lines after) /\
                Forall (fun l => isTaskLine (title t) l = false) pre /\
                (before = "" /\ pre = [] \/
                 exists b0 l, before = b0 +:+ String l "" /\ pre = lines b0)) as Hpre.
    { intros y Hy. destruct (lineStartAfter_true before Hstart) as [->|(b0 & l & -> & Hl)].
      - exists []. simpl String.append. rewrite (lines_line_then after y Hy Hend).
        repeat split; [constructor|now left].
      - exists (lines b0). rewrite append_assoc_s.
        change (String l "" +:+ y +:+ after) with (String l (y +:+ after)).
        rewrite (lines_split b0 l _ Hl), (lines_line_then after y Hy Hend).
        split; [reflexivity|]. split; [|right; eauto].
        apply (searchFrom_None_lines (title t) b0 true).
        eapply searchFrom_before_None; eauto. }
    destruct (Hpre _ (lineOf_no_terminator c _ Hbox Ht)) as (pre & Hl1 & Hf & Hshape).
    destruct (Hpre _ (lineOf_no_terminator _ _ Hb Ht)) as (pre' & Hl2 & _ & Hshape').
    assert (pre' = pre) as ->.
    { destruct Hshape as [[-> ->]|(b0 & l & -> & ->)];
        destruct Hshape' as [[Hb0 ->]|(b0' & l' & Hb0 & ->)]; try reflexivity.
      - destruct b0'; discriminate.
      - destruct b0; discriminate.
      - f_equal.
        assert (forall x y l l' : _, x +:+ String l "" = y +:+ String l' "" -> x = y) as Hinj.
        { induction x as [|a x IHx]; intros [|a' y] k k' Hk; simpl in Hk;
            try reflexivity.
          - destruct y; discriminate.
          - destruct x; discriminate.
          - injection Hk as -> Hk. f_equal. eauto. }
        symmetry. eapply Hinj; eauto. }
    exists before, c, after, pre, (tl (lines after)).
    split; [exact Hbox|]. split; [exact Hc|]. split; [exact Hu|].
    split; [|split; [|exact Hf]].
    + rewrite <- Hl1. f_equal. exact Hc.
    + rewrite <- Hl2. f_equal. exact Hu.
  - right. split.
    + apply (searchFrom_None_lines (title t) content true E).
    + unfold updateTaskInMarkdown, taskRegexExec. rewrite E.
      do 2 f_equal. rewrite <- replacement_lineOf.
      unfold checkboxOf. destruct (String.eqb (status t) "done"); reflexivity.
Qed.

Lemma updateTaskInMarkdown_one_line_witness :
  updateTaskInMarkdown ("# Plan" +:+ nl +:+ "- [ ] Write docs" +:+ nl +:+ "- [ ] Other")
    (Examples.basicTask 1 "Write docs" "done" "note.md" None)
  = "# Plan" +:+ nl +:+ "- [x] Write docs" +:+ nl +:+ "- [ ] Other"
  /\ plainTitle "Write docs" = true.
Proof.
  split; [|reflexivity].
  destruct (updateTaskInMarkdown_one_line
              ("# Plan" +:+ nl +:+ "- [ ] Write docs" +:+ nl +:+ "- [ ] Other")
              (Examples.basicTask 1 "Write docs" "done" "note.md" None) eq_refl)
    as [_|_]; vm_compute; reflexivity.
Defined.

(** ** What a from-text pass counts and keeps *)

Section FromTextFrame.

Variable Date_parse : string -> option Z.
Variable now : nat -> string.

Lemma fromStep_tally dryRun k tasks res v :
  tallied (snd (fromStep Date_parse now dryRun k (tasks, res) v)) = S (tallied res) /\
  errors (snd (fromStep Date_parse now dryRun k (tasks, res) v)) = errors res /\
  length (fst (fromStep Date_parse now dryRun k (tasks, res) v)) =
    (length tasks +
     (created (snd (fromStep Date_parse now dryRun k (tasks, res) v)) - created res) *
     (if dryRun then 0 else 1))%nat /\
  (dryRun = true -> fst (fromStep Date_parse now dryRun k (tasks, res) v) = tasks).
Proof.
  unfold fromStep, tallied.
  destruct (findIndexed (titleOrFile v) tasks) as [[i e]|].
  - destruct (hasConflict Date_parse e v); destruct dryRun; simpl;
      rewrite ?length_insert; repeat split; lia.
  - destruct dryRun; simpl; rewrite ?length_app; simpl; repeat split; lia.
Qed.

Lemma fromLoop_tally dryRun vs : forall k tasks res,
  tallied (snd (fromLoop Date_parse now dryRun k (tasks, res) vs)) =
    (tallied res + length vs)%nat /\
  errors (snd (fromLoop Date_parse now dryRun k (tasks, res) vs)) = errors res /\
  (created res <= created (snd (fromLoop Date_parse now dryRun k (tasks, res) vs)))%nat /\
  length (fst (fromLoop Date_parse now dryRun k (tasks, res) vs)) =
    (length tasks +
     (created (snd (fromLoop Date_parse now dryRun k (tasks, res) vs)) - created res) *
     (if dryRun then 0 else 1))%nat /\
  (dryRun = true -> fst (fromLoop Date_parse now dryRun k (tasks, res) vs) = tasks).
Proof.
  induction vs as [|v r IH]; intros k tasks res.
  - simpl. repeat split; lia.
  - rewrite fromLoop_cons.
    destruct (fromStep_tally dryRun k tasks res v) as (H1 & H2 & H3 & H4).
    assert (created res <= created (snd (fromStep Date_parse now dryRun k (tasks, res) v)))%nat
      as Hc.
    { unfold fromStep. destruct (findIndexed (titleOrFile v) tasks) as [[i e]|];
        [destruct (hasConflict Date_parse e v)|]; simpl; lia. }
    destruct (fromStep Date_parse now dryRun k (tasks, res) v) as [t1 r1].
    simpl in H1, H2, H3, H4, Hc.
    destruct (IH (S k) t1 r1) as (I1 & I2 & I3 & I4 & I5).
    split; [simpl; lia|]. split; [congruence|]. split; [lia|]. split.
    + rewrite I4, H3. destruct dryRun; lia.
    + intros Hd. rewrite (I5 Hd). auto.
Qed.

Lemma fromStep_untouched dryRun k tasks res v i t :
  tasks !! i = Some t -> titleOrFile v t = false ->
  fst (fromStep Date_parse now dryRun k (tasks, res) v) !! i = Some t.
Proof.
  intros Hi Hv. unfold fromStep.
  destruct (findIndexed (titleOrFile v) tasks) as [[j e]|] eqn:F.
  - destruct (findIndexed_Some _ _ _ _ F) as [Hj Hm].
    assert (j <> i) as Hne by (intros ->; congruence).
    destruct (hasConflict Date_parse e v); destruct dryRun; simpl;
      rewrite ?list_lookup_insert_ne by assumption; exact Hi.
  - destruct dryRun; simpl; [exact Hi|].
    apply lookup_app_l_Some. exact Hi.
Qed.

Lemma fromStepWith_untouched k tasks res v i t :
  tasks !! i = Some t -> sameKey v t = false ->
  fst (fromStepWith Date_parse now k (tasks, res) v) !! i = Some t.
Proof.
  intros Hi Hv. unfold fromStepWith.
  destruct (findIndexed (sameKey v) tasks) as [[j e]|] eqn:F.
  - destruct (findIndexed_Some _ _ _ _ F) as [Hj Hm].
    assert (j <> i) as Hne by (intros ->; congruence).
    destruct (hasConflict Date_parse e v); simpl;
      rewrite ?list_lookup_insert_ne by assumption; exact Hi.
  - simpl. apply lookup_app_l_Some. exact Hi.
Qed.

(** X5. [syncTasksFromObsidian] counts every record of the vault once, as
    updated, created or conflicting, and records no error; outside a dry
    run the list it writes has one task more for each creation counted, and
    in a dry run nothing is written and the task list stays as it was. *)
Theorem syncTasksFromObsidian_tally (dryRun : bool) (stored : list task)
  (vaultTasks : list vaultTask) :
  tallied (tally (syncTasksFromObsidian Date_parse now dryRun (Some stored) vaultTasks))
    = length vaultTasks
  /\ errors (tally (syncTasksFromObsidian Date_parse now dryRun (Some stored) vaultTasks))
     = []
  /\ (forall ts,
        written (syncTasksFromObsidian Date_parse now dryRun (Some stored) vaultTasks)
          = Some ts ->
        length ts =
          (length stored +
           created (tally (syncTasksFromObsidian Date_parse now dryRun
                             (Some stored) vaultTasks)))%nat)
  /\ fst (fromLoop Date_parse now true 0 (stored, noResults) vaultTasks) = stored
  /\ written (syncTasksFromObsidian Date_parse now true (Some stored) vaultTasks) = None.
Proof.
  destruct (fromLoop_tally dryRun vaultTasks 0 stored noResults) as (H1 & H2 & _ & H4 & _).
  destruct (fromLoop_tally true vaultTasks 0 stored noResults) as (_ & _ & _ & _ & H5).
  unfold syncTasksFromObsidian.
  destruct vaultTasks as [|v r].
  - simpl. repeat split; try reflexivity. discriminate.
  - destruct (fromLoop Date_parse now dryRun 0 (stored, noResults) (v :: r))
      as [tasks res]. simpl fst in *. simpl snd in *.
    split; [exact H1|]. split; [exact H2|]. split; [|split; [auto|]].
    + cbn [written tally]. destruct dryRun; simpl; [discriminate|].
      destruct ((0 <? created res)%nat || (0 <? updated res)%nat); [|discriminate].
      intros ts Hts. inversion Hts; subst. rewrite H4. simpl. lia.
    + destruct (fromLoop Date_parse now true 0 (stored, noResults) (v :: r)).
      reflexivity.
Qed.

(** X6. A stored task that no record of the vault matches, by title or
    by a non-empty source file for [syncTasksFromObsidian], by source file
    and title for [syncWithObsidian], is at the same place and unchanged
    after the pass. *)
Theorem unmatched_task_untouched (dryRun : bool) (stored : list task)
  (vaultTasks : list vaultTask) (i : nat) (t : task) :
  stored !! i = Some t ->
  (forallb (fun v => negb (titleOrFile v t)) vaultTasks = true ->
   fst (fromLoop Date_parse now dryRun 0 (stored, noResults) vaultTasks) !! i = Some t)
  /\
  (forallb (fun v => negb (sameKey v t)) vaultTasks = true ->
   fst (fromLoopWith Date_parse now 0 (stored, noResults) vaultTasks) !! i = Some t).
Proof.
  intros Hi. split.
  - generalize 0%nat at 1. generalize noResults. revert stored Hi.
    induction vaultTasks as [|v r IH]; intros stored Hi res k Hall; [exact Hi|].
    simpl in Hall. apply andb_true_iff in Hall. destruct Hall as [Hv Hr].
    apply negb_true_iff in Hv.
    rewrite fromLoop_cons.
    pose proof (fromStep_untouched dryRun k stored res v i t Hi Hv) as Hs.
    destruct (fromStep Date_parse now dryRun k (stored, res) v) as [t1 r1].
    apply IH; assumption.
  - generalize 0%nat at 1. generalize noResults. revert stored Hi.
    induction vaultTasks as [|v r IH]; intros stored Hi res k Hall; [exact Hi|].
    simpl in Hall. apply andb_true_iff in Hall. destruct Hall as [Hv Hr].
    apply negb_true_iff in Hv.
    rewrite fromLoopWith_cons.
    pose proof (fromStepWith_untouched k stored res v i t Hi Hv) as Hs.
    destruct (fromStepWith Date_parse now k (stored, res) v) as [t1 r1].
    apply IH; assumption.
Qed.

End FromTextFrame.

Lemma unmatched_task_untouched_witness :
  fst (fromLoop Iso.parse Examples.clock false 0
         ([Examples.basicTask 1 "Setup" "pending" "setup.md" None;
           Examples.basicTask 2 "Deploy" "pending" "" None], noResults)
         [Examples.boxRecord "Setup" "done" "setup.md";
          Examples.boxRecord "Write docs" "pending" "note.md"]) !! 1%nat
  = Some (Examples.basicTask 2 "Deploy" "pending" "" None).
Proof.
  apply (unmatched_task_untouched Iso.parse Examples.clock false
           [Examples.basicTask 1 "Setup" "pending" "setup.md" None;
            Examples.basicTask 2 "Deploy" "pending" "" None]
           [Examples.boxRecord "Setup" "done" "setup.md";
            Examples.boxRecord "Write docs" "pending" "note.md"]
           1 (Examples.basicTask 2 "Deploy" "pending" "" None));
    reflexivity.
Defined.

(** ** What a to-text pass touches *)

Lemma onlyWrites_refl targets fs : onlyWrites targets fs fs.
Proof. unfold onlyWrites. repeat split; auto. Qed.

Lemma onlyWrites_trans t1 t2 a b c :
  onlyWrites t1 a b -> onlyWrites t2 b c -> onlyWrites (t1 ++ t2) a c.
Proof.
  intros (A1 & A2 & A3 & A4) (B1 & B2 & B3 & B4). unfold onlyWrites.
  repeat split.
  - intros p Hp. rewrite B1, A1; [reflexivity| |];
      intros H; apply Hp, in_or_app; auto.
  - auto.
  - etransitivity; eassumption.
  - congruence.
Qed.

Lemma writeFileSync_onlyWrites fs p content :
  onlyWrites [p] fs (fst (writeFileSync fs p content)).
Proof.
  unfold writeFileSync.
  destruct (bool_decide (p ∈ denied fs)); [apply onlyWrites_refl|].
  destruct (bool_decide (p ∈ dirs fs)); [apply onlyWrites_refl|].
  unfold onlyWrites. simpl. repeat split; auto.
  - intros q Hq. apply lookup_insert_ne. intros ->. apply Hq. now left.
  - intros q Hq. destruct (decide (p = q)) as [->|Hne].
    + rewrite lookup_insert_eq. eauto.
    + now rewrite lookup_insert_ne.
Qed.

Lemma ensureDir_onlyWrites fs d : onlyWrites [] fs (fst (ensureDir fs d)).
Proof.
  unfold ensureDir. destruct (negb (existsSync fs d)); [|apply onlyWrites_refl].
  unfold mkdirSync.
  destruct (bool_decide (d ∈ denied fs)); [apply onlyWrites_refl|].
  destruct (files fs !! d); [apply onlyWrites_refl|].
  unfold onlyWrites. simpl. repeat split; auto. set_solver.
Qed.

Lemma updateMarkdownFile_onlyWrites fs vaultPath t :
  onlyWrites [pathJoin vaultPath (sourceFile t)] fs
    (fst (updateMarkdownFile fs vaultPath t)).
Proof.
  unfold updateMarkdownFile.
  destruct (negb (existsSync fs (pathJoin vaultPath (sourceFile t)))).
  - pose proof (ensureDir_onlyWrites fs (dirname (pathJoin vaultPath (sourceFile t)))) as H1.
    destruct (ensureDir fs (dirname (pathJoin vaultPath (sourceFile t)))) as [fs1 [[]|m]];
      simpl in H1.
    + apply (onlyWrites_trans [] _ _ _ _ H1), writeFileSync_onlyWrites.
    + simpl. destruct H1 as (A & B & C & D). repeat split; auto.
  - destruct (readFileSync fs (pathJoin vaultPath (sourceFile t))) as [content|m].
    + apply writeFileSync_onlyWrites.
    + apply onlyWrites_refl.
Qed.

Lemma toStepWith_onlyWrites vaultPath fs res t :
  onlyWrites [pathJoin vaultPath (sourceFile t)] fs
    (fst (toStepWith vaultPath (fs, res) t)).
Proof.
  unfold toStepWith. destruct (truthy (sourceFile t)); [|apply onlyWrites_refl].
  pose proof (updateMarkdownFile_onlyWrites fs vaultPath t) as H.
  destruct (updateMarkdownFile fs vaultPath t) as [fs' [[]|m]]; exact H.
Qed.

Lemma toStep_onlyWrites dryRun vaultPath fs res t :
  onlyWrites [markdownPathOf vaultPath t] fs
    (fst (toStep dryRun vaultPath (fs, res) t)).
Proof.
  unfold toStep. destruct dryRun; [apply onlyWrites_refl|].
  pose proof (ensureDir_onlyWrites fs (dirname (markdownPathOf vaultPath t))) as H1.
  destruct (ensureDir fs (dirname (markdownPathOf vaultPath t))) as [fs1 [[]|m]];
    simpl in H1.
  - pose proof (writeFileSync_onlyWrites fs1 (markdownPathOf vaultPath t)
                  (generateMarkdownForTask t)) as H2.
    destruct (writeFileSync fs1 (markdownPathOf vaultPath t) (generateMarkdownForTask t))
      as [fs2 [[]|m]]; simpl in *;
      apply (onlyWrites_trans [] _ _ _ _ H1 H2).
  - simpl. destruct H1 as (A & B & C & D). repeat split; auto.
Qed.

Lemma fold_onlyWrites {R : Type} (step : fsys * R -> task -> fsys * R)
  (target : task -> string) :
  (forall fs r t, onlyWrites [target t] fs (fst (step (fs, r) t))) ->
  forall tasks fs r,
    onlyWrites (map target tasks) fs (fst (fold_left step tasks (fs, r))).
Proof.
  intros Hstep. induction tasks as [|t ts IH]; intros fs r; simpl.
  - apply onlyWrites_refl.
  - pose proof (Hstep fs r t) as H1.
    destruct (step (fs, r) t) as [fs1 r1]. simpl in H1.
    apply (onlyWrites_trans [target t] (map target ts) _ _ _ H1 (IH fs1 r1)).
Qed.

(** X7. For a vault path and source files in normal form, which
    [path.join] only concatenates: the to-obsidian pass of
    [syncWithObsidian] changes no file but those at the source files of the
    tasks, below the vault, and [syncTasksToObsidian] none but the task
    files it names after id and title; neither removes a file, a directory
    or changes what is forbidden, and a dry run of [syncTasksToObsidian]
    leaves the file system and the tally as they were. *)
Theorem to_text_only_writes_targets (vaultPath : string) (fs : fsys)
  (res : syncResults) (tasks : list task) (dryRun : bool) :
  plainPath vaultPath = true ->
  forallb (fun t => negb (truthy (sourceFile t)) || plainRelative (sourceFile t))
    tasks = true ->
  onlyWrites (map (fun t => pathJoin vaultPath (sourceFile t)) tasks) fs
    (fst (toLoopWith vaultPath (fs, res) tasks))
  /\ onlyWrites (map (markdownPathOf vaultPath) tasks) fs
       (fst (fold_left (toStep dryRun vaultPath) tasks (fs, res)))
  /\ fold_left (toStep true vaultPath) tasks (fs, res) = (fs, res).
Proof.
  intros _ _. split; [|split].
  - apply (fold_onlyWrites (toStepWith vaultPath)
             (fun t => pathJoin vaultPath (sourceFile t))).
    intros. apply toStepWith_onlyWrites.
  - apply (fold_onlyWrites (toStep dryRun vaultPath) (markdownPathOf vaultPath)).
    intros. apply toStep_onlyWrites.
  - induction tasks as [|t ts IH]; [reflexivity|exact IH].
Qed.

Lemma to_text_only_writes_targets_witness :
  files (fst (toLoopWith "/vault"
                (Examples.oneFile "/vault/other.md" "# Other", noResults)
                [Examples.basicTask 1 "Setup" "pending" "notes/setup.md" None]))
    !! "/vault/other.md" = Some "# Other".
Proof.
  destruct (to_text_only_writes_targets "/vault"
              (Examples.oneFile "/vault/other.md" "# Other") noResults
              [Examples.basicTask 1 "Setup" "pending" "notes/setup.md" None] false)
    as ((H & _) & _).
  - reflexivity.
  - reflexivity.
  - rewrite H; [reflexivity|]. simpl. intros [E|[]]. discriminate E.
Defined.

(** ** Validating and resolving a token *)

Lemma resolveObsidianLink_to_id_None s tasks :
  resolveObsidianLink_to_id (IdStr s) (Some tasks) = None <->
  isLink s = true /\ trim (slice_2_m2 s) = "".
Proof.
  unfold resolveObsidianLink_to_id.
  destruct (isLink s); [|split; [discriminate|intros [? _]; discriminate]].
  destruct (trim (slice_2_m2 s)) as [|c r] eqn:E; simpl negb; cbv iota.
  - tauto.
  - split; [|intros [_ ?]; discriminate].
    repeat match goal with
           | |- context [find ?p ?l] => destruct (find p l)
           | |- context [findSubtask ?p ?l] => destruct (findSubtask p l)
           end; discriminate.
Qed.

(** X8. A token that [validateObsidianLink] accepts is never resolved to
    null by [resolveObsidianLink]: the resolver answers null exactly for
    the tokens the validation rejects as empty, and the validation sets its
    warning exactly when it accepts the token, the task list is not empty
    and the resolver gives the token back unchanged. *)
Theorem validateObsidianLink_resolves (s : string) (tasks : list task) :
  (valid (validateObsidianLink (IdStr s) tasks) = true ->
   is_Some (resolveObsidianLink_to_id (IdStr s) (Some tasks)))
  /\
  (resolveObsidianLink_to_id (IdStr s) (Some tasks) = None <->
   message (validateObsidianLink (IdStr s) tasks) = "Link cannot be empty")
  /\
  (warning (validateObsidianLink (IdStr s) tasks) = true <->
   valid (validateObsidianLink (IdStr s) tasks) = true /\ tasks <> [] /\
   resolveObsidianLink_to_id (IdStr s) (Some tasks) = Some (IdStr s)).
Proof.
  assert (isLink s = startsWith s "[[" && endsWith s "]]") as Hlink by reflexivity.
  pose proof (resolveObsidianLink_to_id_None s tasks) as HN.
  unfold validateObsidianLink.
  destruct (startsWith s "[[") eqn:E1, (endsWith s "]]") eqn:E2; simpl in Hlink;
    simpl negb; simpl orb; cbv iota;
    try (cbn [valid message warning];
         split; [discriminate|];
         split; [rewrite HN, Hlink; split; [intros [? _]|]; discriminate|];
         split; [discriminate|intros [? _]; discriminate]).
  destruct (trim (slice_2_m2 s)) as [|c r] eqn:E; simpl negb; cbv iota.
  - cbn [valid message warning]. split; [discriminate|].
    split; [rewrite HN; tauto|]. split; [discriminate|intros [? _]; discriminate].
  - assert (resolveObsidianLink_to_id (IdStr s) (Some tasks) <> None) as Hsome.
    { rewrite HN. intros [_ ?]; discriminate. }
    destruct (includes (String c r) "[[" || includes (String c r) "]]").
    + cbn [valid message warning]. split; [discriminate|].
      split; [split; [contradiction|discriminate]|].
      split; [discriminate|intros [? _]; discriminate].
    + destruct (resolveObsidianLink_to_id (IdStr s) (Some tasks)) as [res|] eqn:R;
        [|contradiction].
      assert (sameIdent res (IdStr s) = true <-> res = IdStr s) as Hsame.
      { destruct res as [n|x|]; simpl; split; try discriminate.
        - intros H. apply String.eqb_eq in H. now subst.
        - intros H. inversion H. apply String.eqb_refl. }
      destruct tasks as [|t ts]; simpl nonEmpty; simpl andb; cbv iota.
      * cbn [valid message warning]. split; [eauto|].
        split; [split; discriminate|].
        split; [discriminate|intros (_ & H & _); contradiction].
      * destruct (sameIdent res (IdStr s)) eqn:Es; cbn [valid message warning].
        -- split; [eauto|]. split; [split; discriminate|].
           split; [|reflexivity]. intros _. split; [reflexivity|].
           split; [discriminate|]. f_equal. now apply Hsame.
        -- split; [eauto|]. split; [split; discriminate|].
           split; [discriminate|]. intros (_ & _ & H). inversion H as [H'].
           apply Hsame in H'. congruence.
Qed.

(** ** The status report *)

Lemma nonEmpty_false {A : Type} (l : list A) : nonEmpty l = false <-> l = [].
Proof. destruct l; simpl; split; congruence. Qed.

Lemma find_title_None (x : string) (vs : list vaultTask) :
  find (fun ot => String.eqb (v_title ot) x) vs = None <-> ~ In x (map v_title vs).
Proof.
  induction vs as [|v r IH]; simpl; [tauto|].
  destruct (String.eqb (v_title v) x) eqn:E.
  - apply String.eqb_eq in E. split; [discriminate|]. intros H. exfalso. auto.
  - apply String.eqb_neq in E. rewrite IH. tauto.
Qed.

Lemma find_task_title_None (x : string) (ts : list task) :
  find (fun tm => String.eqb (title tm) x) ts = None <-> ~ In x (map title ts).
Proof.
  induction ts as [|t r IH]; simpl; [tauto|].
  destruct (String.eqb (title t) x) eqn:E.
  - apply String.eqb_eq in E. split; [discriminate|]. intros H. exfalso. auto.
  - apply String.eqb_neq in E. rewrite IH. tauto.
Qed.

Section StatusFacts.

Variable Date_parse : string -> option Z.

Lemma statusOfStored_fold obsidianTasks ts : forall c o,
  (snd (fold_left (statusOfStored Date_parse obsidianTasks) ts (c, o)) = o <->
   forall t, In t ts -> In (title t) (map v_title obsidianTasks)) /\
  (exists more, snd (fold_left (statusOfStored Date_parse obsidianTasks) ts (c, o))
                = o ++ more) /\
  (fst (fold_left (statusOfStored Date_parse obsidianTasks) ts (c, o)) = c <->
   forall t ot, In t ts ->
     find (fun ot => String.eqb (v_title ot) (title t)) obsidianTasks = Some ot ->
     hasConflict Date_parse t ot = false) /\
  (exists more, fst (fold_left (statusOfStored Date_parse obsidianTasks) ts (c, o))
                = c ++ more).
Proof.
  induction ts as [|t r IH]; intros c o.
  - simpl. repeat split; try tauto; try (exists []; now rewrite app_nil_r).
  - simpl fold_left.
    destruct (statusOfStored Date_parse obsidianTasks (c, o) t) as [c1 o1] eqn:Est.
    unfold statusOfStored in Est.
    destruct (IH c1 o1) as (I1 & (moreO & I2) & I3 & (moreC & I4)).
    destruct (find (fun ot => String.eqb (v_title ot) (title t)) obsidianTasks)
      as [ot|] eqn:F.
    + assert (In (title t) (map v_title obsidianTasks)) as Hin.
      { destruct (in_dec string_dec (title t) (map v_title obsidianTasks)) as [H|H];
          [exact H|]. apply find_title_None in H. congruence. }
      destruct (hasConflict Date_parse t ot) eqn:Hc; inversion Est; subst c1 o1; clear Est.
      * split; [|split; [eauto|split]].
        -- rewrite I1. split; [intros H x [<-|Hx]; auto|intros H x Hx; apply H; now right].
        -- rewrite I4. split.
           ++ intros H. exfalso.
              apply (f_equal (@length string)) in H.
              rewrite !length_app in H. simpl in H. lia.
           ++ intros H. specialize (H t ot (or_introl eq_refl) F). congruence.
        -- eexists. rewrite I4, <- app_assoc. reflexivity.
      * split; [|split; [eauto|split; [|eauto]]].
        -- rewrite I1. split; [intros H x [<-|Hx]; auto|intros H x Hx; apply H; now right].
        -- rewrite I3. split.
           ++ intros H x ox [<-|Hx] Hf; [congruence|eauto].
           ++ intros H x ox Hx Hf. apply (H x ox); [now right|exact Hf].
    + inversion Est; subst c1 o1; clear Est.
      split; [|split; [|split; [|eauto]]].
      * rewrite I2. split.
        -- intros H. exfalso. apply (f_equal (@length string)) in H.
           rewrite !length_app in H. simpl in H. lia.
        -- intros H. apply find_title_None in F. exfalso. apply F, H. now left.
      * eexists. rewrite I2, <- app_assoc. reflexivity.
      * rewrite I3. split.
        -- intros H x ox [<-|Hx] Hf; [congruence|eauto].
        -- intros H x ox Hx Hf. apply (H x ox); [now right|exact Hf].
Qed.

Lemma statusOfVault_fold taskMasterTasks vs : forall o,
  (fold_left (statusOfVault taskMasterTasks) vs o = o <->
   forall v, In v vs -> In (v_title v) (map title taskMasterTasks)) /\
  (exists more, fold_left (statusOfVault taskMasterTasks) vs o = o ++ more).
Proof.
  induction vs as [|v r IH]; intros o.
  - simpl. split; [tauto|]. exists []. now rewrite app_nil_r.
  - simpl fold_left.
    destruct (IH (statusOfVault taskMasterTasks o v)) as (I1 & (more & I2)).
    unfold statusOfVault in I1, I2 |- *.
    destruct (find (fun tm => String.eqb (title tm) (v_title v)) taskMasterTasks)
      as [tm|] eqn:F.
    + assert (In (v_title v) (map title taskMasterTasks)) as Hin.
      { destruct (in_dec string_dec (v_title v) (map title taskMasterTasks)) as [H|H];
          [exact H|]. apply find_task_title_None in H. congruence. }
      split; [|eauto].
      rewrite I1. split; [intros H x [<-|Hx]; auto|intros H x Hx; apply H; now right].
    + split.
      * rewrite I2. split.
        -- intros H. exfalso. apply (f_equal (@length string)) in H.
           rewrite !length_app in H. simpl in H. lia.
        -- intros H. apply find_task_title_None in F. exfalso. apply F, H. now left.
      * eexists. rewrite I2, <- app_assoc. reflexivity.
Qed.

End StatusFacts.

(** X9. [getObsidianSyncStatus] reports the two sides in sync exactly when
    it lists no conflict and the titles of the stored tasks are the titles
    of the records of the vault; it lists no conflict when no stored
    [lastSyncAt] is before the epoch. *)
Theorem getObsidianSyncStatus_inSync (Date_parse : string -> option Z)
  (globMd : fsys -> string -> list string) (configInitialized : string -> option string)
  (stored : option (list task)) (fs : fsys) (vaultPath tasksPath tag : string) :
  (sr_inSync (getObsidianSyncStatus Date_parse globMd configInitialized
                stored fs vaultPath tasksPath tag) = true <->
   sr_conflicts (getObsidianSyncStatus Date_parse globMd configInitialized
                   stored fs vaultPath tasksPath tag) = [] /\
   forall x,
     In x (map title (match stored with Some ts => ts | None => [] end)) <->
     In x (map v_title (extractTasksFromVault (readVault globMd fs vaultPath))))
  /\
  (forallb (fun a => notBeforeEpoch Date_parse (lastSyncAt a))
     (match stored with Some ts => ts | None => [] end) = true ->
   sr_conflicts (getObsidianSyncStatus Date_parse globMd configInitialized
                   stored fs vaultPath tasksPath tag) = []).
Proof.
  unfold getObsidianSyncStatus.
  set (tasks := match stored with Some ts => ts | None => [] end).
  set (vault := extractTasksFromVault (readVault globMd fs vaultPath)).
  destruct (statusOfStored_fold Date_parse vault tasks [] [])
    as (S1 & (more1 & S2) & S3 & _).
  destruct (fold_left (statusOfStored Date_parse vault) tasks ([], []))
    as [c o1] eqn:E. simpl fst in *. simpl snd in *.
  destruct (statusOfVault_fold tasks vault o1) as (V1 & (more2 & V2)).
  cbn [sr_inSync sr_conflicts]. split.
  - rewrite andb_true_iff, !negb_true_iff, !nonEmpty_false. split.
    + intros [Hc Ho]. split; [exact Hc|].
      rewrite V2 in Ho. apply app_eq_nil in Ho. destruct Ho as [Ho1 Hm2].
      assert (fold_left (statusOfVault tasks) vault o1 = o1) as Hfix
        by (rewrite V2, Hm2, app_nil_r; reflexivity).
      intros x. split; intros Hx.
      * apply in_map_iff in Hx. destruct Hx as (t & <- & Ht).
        apply S1; [exact Ho1|exact Ht].
      * apply in_map_iff in Hx. destruct Hx as (v & <- & Hv).
        apply V1; [exact Hfix|exact Hv].
    + intros [Hc Hset]. split; [exact Hc|].
      assert (o1 = []) as ->.
      { apply S1. intros t Ht. apply Hset, in_map, Ht. }
      apply V1. intros v Hv. apply Hset, in_map, Hv.
  - intros Hall. apply S3. intros t ot Ht Hf.
    apply find_some in Hf. destruct Hf as [Hot _].
    pose proof (extractTasksFromVault_untimed (readVault globMd fs vaultPath)) as Hu.
    rewrite Forall_forall in Hu. destruct (Hu ot) as [Hm Hs];
      [now apply list_elem_of_In|].
    apply hasConflict_untimed; try assumption.
    rewrite forallb_forall in Hall. apply Hall. exact Ht.
Qed.

(** ** Scanning and importing a vault *)

Lemma truthy_app_cons a c r : truthy (a +:+ String c r) = true.
Proof. destruct a; reflexivity. Qed.

Lemma scanMarkdownFiles_truthy vault : truthy (scanMarkdownFiles vault) = true.
Proof. unfold scanMarkdownFiles, nl. apply truthy_app_cons. Qed.

Lemma checkboxText_drop l r : checkboxText l = Some r -> drop 6 l = r.
Proof.
  intros H. apply checkboxText_Some in H. destruct H as (c & _ & -> & _). reflexivity.
Qed.

Lemma scanned_of_file file content :
  map (fun v => (v_title v, String.eqb (v_status v) "done", v_sourceFile v))
      (tasksOfFile file content)
  = map (fun l => (drop 6 l, includes l "[x]", file)) (checkboxLines content).
Proof.
  unfold tasksOfFile, checkboxLines.
  induction (lines content) as [|l ls IH]; [reflexivity|].
  cbn -[drop includes String.eqb].
  destruct (checkboxText l) as [r|] eqn:E; cbn -[drop includes String.eqb]; [|exact IH].
  rewrite IH, (checkboxText_drop l r E).
  destruct (includes l "[x]"); reflexivity.
Qed.

(** X10. The text of [scanMarkdownFiles] is never empty, so the emptiness
    test of [parseObsidianVault] never fires; the checkbox entries it counts
    in its summary are, in order, the records of [extractTasksFromVault]:
    the same text, the same file, completed exactly when the record is
    done. *)
Theorem scanMarkdownFiles_agrees_with_extractor (vault : list vaultFile) :
  scanMarkdownFiles vault <> ""
  /\ scannedTasks vault =
     map (fun v => (v_title v, String.eqb (v_status v) "done", v_sourceFile v))
         (extractTasksFromVault vault)
  /\ length (scannedTasks vault) = length (extractTasksFromVault vault).
Proof.
  assert (scannedTasks vault =
          map (fun v => (v_title v, String.eqb (v_status v) "done", v_sourceFile v))
              (extractTasksFromVault vault)) as H.
  { unfold scannedTasks, extractTasksFromVault.
    induction vault as [|[file [content|]] r IH]; simpl; [reflexivity| |exact IH].
    rewrite map_app, <- IH, scanned_of_file. reflexivity. }
  split; [|split; [exact H|]].
  - apply truthy_true_iff, scanMarkdownFiles_truthy.
  - rewrite H. apply length_map.
Qed.

Lemma mapIndexed_ids vaultPath now nextId l : forall k,
  map id (mapIndexed (fun index => importedTask vaultPath (now index) nextId index) k l)
  = map (fun i => jsAdd nextId (Z.of_nat i)) (seq k (length l)).
Proof.
  induction l as [|v r IH]; intros k; simpl; [reflexivity|].
  now rewrite IH.
Qed.

Lemma mapIndexed_titles vaultPath now nextId l : forall k,
  map title (mapIndexed (fun index => importedTask vaultPath (now index) nextId index) k l)
  = map v_title l.
Proof.
  induction l as [|v r IH]; intros k; simpl; [reflexivity|].
  now rewrite IH.
Qed.

Lemma sliceFromStart_length {A : Type} (n : option Z) (l : list A) :
  (length (sliceFromStart n l) <= length l)%nat.
Proof.
  unfold sliceFromStart. destruct n as [z|]; [|lia].
  destruct (z <? 0); rewrite length_take; lia.
Qed.

Lemma maxExisting_upper tasks e : In e tasks -> id e <= maxExisting tasks.
Proof.
  destruct tasks as [|t r]; [intros []|]. simpl. unfold maxOf.
  destruct (fold_max_upper (id t) (map id r)) as [H1 H2].
  intros [<-|He]; [exact H1|]. apply H2, in_map, He.
Qed.

(** X11. [parseObsidianVault] never fails on the text of the scan; the
    tasks it hands to [writeJSON] are the first [numTasks] records of the
    extractor (all but the last ones for a negative number); where the
    largest id of the tag is not below -2^53 and, with the number of
    records added, not above 2^53, so that the sums of ids are exact, they
    are numbered without gap from one more than that largest id, so above
    every existing id; the existing tasks themselves are not among them,
    whatever [append] says. *)
Theorem parseObsidianVault_ids (vault : list vaultFile) (vaultPath : string)
  (now : nat -> string) (createdAt updatedAt : string)
  (existing : option (list task)) (numTasks : option Z) :
  - 2 ^ 53 <= maxExisting (match existing with Some l => l | None => [] end) ->
  maxExisting (match existing with Some l => l | None => [] end) +
    Z.of_nat (length (extractTasksFromVault vault)) <= 2 ^ 53 ->
  exists out,
    parseObsidianVault vault vaultPath now createdAt updatedAt existing numTasks
      = Done out /\
    map id (im_tasks out) =
      idsFrom (maxExisting (match existing with Some l => l | None => [] end) + 1)
              (length (im_tasks out)) /\
    map title (im_tasks out) =
      map v_title (sliceFromStart numTasks (extractTasksFromVault vault)) /\
    (length (im_tasks out) <= length (extractTasksFromVault vault))%nat /\
    Forall (fun t =>
              Forall (fun e => id e < id t)
                     (match existing with Some l => l | None => [] end))
           (im_tasks out).
Proof.
  intros Hlow Hup.
  unfold parseObsidianVault. rewrite scanMarkdownFiles_truthy. simpl negb. cbv iota.
  eexists. split; [reflexivity|]. cbn [im_tasks].
  set (ex := match existing with Some l => l | None => [] end) in *.
  set (nextId := match existing with
                 | Some (t :: r) => jsAdd (maxOf (id t) (map id r)) 1
                 | _ => 1
                 end).
  set (slice := sliceFromStart numTasks (extractTasksFromVault vault)).
  pose proof (sliceFromStart_length numTasks (extractTasksFromVault vault)) as Hslice.
  fold slice in Hslice.
  assert (length (mapIndexed
                    (fun index => importedTask vaultPath (now index) nextId index)
                    0 slice) = length slice) as Hlen.
  { rewrite <- (length_map title), mapIndexed_titles. apply length_map. }
  assert (map id (mapIndexed
                    (fun index => importedTask vaultPath (now index) nextId index)
                    0 slice) = idsFrom (maxExisting ex + 1) (length slice)) as Hids.
  { rewrite mapIndexed_ids. unfold idsFrom. apply map_ext_in. intros i Hi.
    apply in_seq in Hi.
    assert (nextId = maxExisting ex + 1) as ->.
    { unfold nextId, ex. destruct existing as [[|t r]|]; try reflexivity.
      apply jsAdd_exact. unfold ex in Hlow, Hup.
      cbv beta iota delta [maxExisting] in Hlow, Hup |- *. lia. }
    apply jsAdd_exact. lia. }
  split; [|split; [|split]].
  - rewrite Hids, Hlen. reflexivity.
  - apply mapIndexed_titles.
  - rewrite Hlen. exact Hslice.
  - apply Forall_forall. intros t Ht. apply Forall_forall. intros e He.
    apply list_elem_of_In in Ht, He.
    apply (in_map id) in Ht. rewrite Hids in Ht.
    apply in_map_iff in Ht. destruct Ht as (i & <- & _).
    pose proof (maxExisting_upper ex e He). lia.
Qed.

Lemma parseObsidianVault_ids_witness :
  exists out,
    parseObsidianVault [("a.md", Some "- [ ] A"); ("b.md", Some "- [x] B")] "/vault"
      Examples.clock "t0" "t1"
      (Some [Examples.basicTask 3 "Old" "done" "old.md" None]) (Some 5) = Done out /\
    map id (im_tasks out) = [4; 5].
Proof.
  destruct (parseObsidianVault_ids [("a.md", Some "- [ ] A"); ("b.md", Some "- [x] B")]
              "/vault" Examples.clock "t0" "t1"
              (Some [Examples.basicTask 3 "Old" "done" "old.md" None]) (Some 5))
    as (out & H1 & H2 & _).
  - vm_compute. discriminate.
  - vm_compute. discriminate.
  - exists out. split; [exact H1|].
    rewrite H2. vm_compute in H1. inversion H1. reflexivity.
Defined.

(** ** More on the remapping of drafts *)

Lemma processDrafts_map_position vaultPath stamp drafts : forall start m ts m' y v,
  processDrafts vaultPath stamp start m drafts = (ts, m') ->
  m' !! y = Some v ->
  (exists j d, drafts !! j = Some d /\ d_id d = y /\ v = start + Z.of_nat j) \/
  m !! y = Some v.
Proof.
  induction drafts as [|d0 r IH]; intros start m ts m' y v H Hy; simpl in H.
  - inversion H; subst. now right.
  - destruct (processDrafts vaultPath stamp (start + 1) (<[d_id d0:=start]> m) r)
      as [ts1 m1] eqn:E.
    inversion H; subst; clear H.
    destruct (IH _ _ _ _ _ _ E Hy) as [(j & d & Hj & Hd & Hv)|H1].
    + left. exists (S j), d. simpl. repeat split; try assumption. lia.
    + destruct (decide (d_id d0 = y)) as [Heq|Hne].
      * rewrite <- Heq, lookup_insert_eq in H1. inversion H1; subst v.
        left. exists 0%nat, d0. simpl. repeat split; try assumption. lia.
      * rewrite lookup_insert_ne in H1 by assumption. now right.
Qed.

Lemma remapDrafts_ids vaultPath stamp existing drafts :
  map id (remapDrafts vaultPath stamp existing drafts) =
  idsFrom (maxExisting existing + 1) (length drafts).
Proof.
  unfold remapDrafts.
  destruct (processDrafts vaultPath stamp (nextIdOfExisting existing) ∅ drafts)
    as [new taskMap] eqn:E.
  rewrite map_map. simpl.
  assert (nextIdOfExisting existing = maxExisting existing + 1) as Hn
    by (destruct existing; reflexivity).
  rewrite Hn in E. clear Hn.
  revert new taskMap E. generalize (maxExisting existing + 1) as start.
  generalize (∅ : gmap Z Z) as m.
  induction drafts as [|d r IH]; intros m start new taskMap E; simpl in E.
  - inversion E. reflexivity.
  - destruct (processDrafts vaultPath stamp (start + 1) (<[d_id d:=start]> m) r)
      as [ts1 m1] eqn:E1.
    inversion E; subst; clear E. simpl length. rewrite idsFrom_cons. simpl.
    f_equal. eapply IH; eauto.
Qed.

(** X12. Where the largest existing id is not below -2^53 and, with the
    number of drafts added, not above 2^53, so that the sums of ids are
    exact: in the list [parseObsidianNotes] builds, every dependency of a
    new task is the id given to a draft that stands earlier in the same
    batch and that the draft named as a target; it is above every existing
    id, so no edge to a task that existed before the batch is kept. *)
Theorem remapDrafts_edges_point_back (vaultPath stamp : string)
  (existing : list task) (drafts : list draft) (k : nat) (t : task) (dep : Z) :
  - 2 ^ 53 <= maxExisting existing ->
  maxExisting existing + Z.of_nat (length drafts) <= 2 ^ 53 ->
  remapDrafts vaultPath stamp existing drafts !! k = Some t ->
  In dep (dependencies t) ->
  exists j target d,
    (j < k)%nat /\
    drafts !! j = Some target /\
    dep = maxExisting existing + 1 + Z.of_nat j /\
    drafts !! k = Some d /\
    In (d_id target) (d_dependencies d) /\
    Forall (fun e => id e < dep) existing.
Proof.
  intros _ _ Hk Hdep.
  assert (nextIdOfExisting existing = maxExisting existing + 1) as Hn
    by (destruct existing; reflexivity).
  unfold remapDrafts in Hk.
  destruct (processDrafts vaultPath stamp (nextIdOfExisting existing) ∅ drafts)
    as [new taskMap] eqn:E.
  rewrite list_lookup_fmap in Hk.
  destruct (new !! k) as [t0|] eqn:Hnew; [|discriminate].
  simpl in Hk. inversion Hk; subst t; clear Hk. simpl in Hdep.
  assert (k < length drafts)%nat as Hlt.
  { rewrite <- (processDrafts_length _ _ _ _ _ _ _ E). eapply lookup_lt_Some; eauto. }
  destruct (lookup_lt_is_Some_2 drafts k Hlt) as [d Hd].
  pose proof (processDrafts_lookup _ _ _ _ _ _ _ _ _ E Hd) as Ht0.
  rewrite Hnew in Ht0. inversion Ht0; subst t0; clear Ht0.
  apply remapDependencies_In in Hdep.
  destruct Hdep as (y & Hy & Hm & Hlow & _). simpl in Hy, Hlow.
  destruct (processDrafts_map_position _ _ _ _ _ _ _ _ _ E Hm)
    as [(j & target & Hj & Hid & Hv)|Hempty];
    [|rewrite lookup_empty in Hempty; discriminate].
  exists j, target, d. rewrite Hn in Hv, Hlow.
  repeat split; try assumption; try lia.
  - now rewrite Hid.
  - apply Forall_forall. intros e He. apply list_elem_of_In in He.
    pose proof (maxExisting_upper existing e He). lia.
Qed.

Lemma remapDrafts_edges_point_back_witness :
  exists j target,
    (j < 1)%nat /\ Examples.batch !! j = Some target /\ d_id target = 10.
Proof.
  destruct (remapDrafts_edges_point_back "/vault" "2024-06-01T10:00:00.000Z"
              [Examples.basicTask 4 "Old" "done" "" None] Examples.batch 1
              (withDependencies
                 (processDraft "/vault" "2024-06-01T10:00:00.000Z"
                    (Examples.basicDraft 30 "Z" [10; 30]) 6) [5]) 5)
    as (j & target & d & Hj & Ht & Hdep & _).
  - vm_compute. discriminate.
  - vm_compute. discriminate.
  - vm_compute. reflexivity.
  - simpl. now left.
  - exists j, target. repeat split; try assumption.
    assert (j = 0%nat) as -> by lia. simpl in Ht. inversion Ht. reflexivity.
Defined.

Lemma idsFrom_NoDup a n : NoDup (idsFrom a n).
Proof.
  unfold idsFrom. apply NoDup_fmap_2; [|apply NoDup_seq].
  intros x y H. lia.
Qed.

(** X13. When the ids of the existing tasks are pairwise distinct, the
    largest of them is not below -2^53 and, with the number of drafts
    added, not above 2^53, the ids of the list [parseObsidianNotes] writes
    are pairwise distinct too, with or without [append]. *)
Theorem finalTasks_unique_ids (vaultPath stamp : string) (append : bool)
  (existing : list task) (drafts : list draft) :
  - 2 ^ 53 <= maxExisting existing ->
  maxExisting existing + Z.of_nat (length drafts) <= 2 ^ 53 ->
  NoDup (map id existing) ->
  NoDup (map id (finalTasks append existing
                   (remapDrafts vaultPath stamp existing drafts))).
Proof.
  intros _ _ Hnd. unfold finalTasks. destruct append.
  - rewrite map_app, remapDrafts_ids. apply NoDup_app.
    split; [exact Hnd|]. split; [|apply idsFrom_NoDup].
    intros x Hx Hy. apply list_elem_of_In in Hx, Hy.
    apply in_map_iff in Hx. destruct Hx as (e & <- & He).
    unfold idsFrom in Hy. apply in_map_iff in Hy. destruct Hy as (i & Hi & _).
    pose proof (maxExisting_upper existing e He). lia.
  - rewrite remapDrafts_ids. apply idsFrom_NoDup.
Qed.

Lemma finalTasks_unique_ids_witness :
  NoDup (map id (finalTasks true [Examples.basicTask 4 "Old" "done" "" None]
                   (remapDrafts "/vault" "2024-06-01T10:00:00.000Z"
                      [Examples.basicTask 4 "Old" "done" "" None] Examples.batch))).
Proof.
  apply (finalTasks_unique_ids "/vault" "2024-06-01T10:00:00.000Z" true
           [Examples.basicTask 4 "Old" "done" "" None] Examples.batch).
  - vm_compute. discriminate.
  - vm_compute. discriminate.
  - simpl. apply NoDup_singleton.
Defined.

(** ** A second pass of [syncTasksToObsidian] *)

Lemma beforeLastSlash_none s : allChars notSlash s = true -> beforeLastSlash s = None.
Proof.
  induction s as [|c r IH]; simpl; [reflexivity|].
  intros H. apply andb_prop in H. destruct H as [Hc Hr].
  rewrite (IH Hr). unfold notSlash in Hc.
  destruct (c =? "/")%char; [discriminate|reflexivity].
Qed.

Lemma beforeLastSlash_join a name :
  allChars notSlash name = true ->
  beforeLastSlash (a +:+ "/" +:+ name) = Some a.
Proof.
  intros H. induction a as [|c r IH].
  - simpl. now rewrite (beforeLastSlash_none _ H).
  - change (String c r +:+ "/" +:+ name) with (String c (r +:+ "/" +:+ name)).
    cbn [beforeLastSlash]. now rewrite IH.
Qed.

Lemma digit_cases (p : ascii -> bool) :
  forallb (fun m => p (ascii_of_N (48 + m))) [0; 1; 2; 3; 4; 5; 6; 7; 8; 9]%N = true ->
  forall m, (m < 10)%N -> p (ascii_of_N (48 + m)) = true.
Proof.
  intros H m Hm. rewrite forallb_forall in H. apply H.
  assert (m = 0 \/ m = 1 \/ m = 2 \/ m = 3 \/ m = 4 \/ m = 5 \/ m = 6 \/
          m = 7 \/ m = 8 \/ m = 9)%N as Hc by lia.
  repeat (destruct Hc as [->|Hc]; [simpl; tauto|]). subst m. simpl. tauto.
Qed.

Lemma digitsFuel_allChars (p : ascii -> bool) fuel :
  (forall m, (m < 10)%N -> p (ascii_of_N (48 + m)) = true) ->
  forall n acc,
  allChars p acc = true -> allChars p (digitsFuel fuel n acc) = true.
Proof.
  intros Hp. induction fuel as [|f IH]; intros n acc H; simpl; [exact H|].
  assert (allChars p (String (ascii_of_N (48 + n mod 10)) acc) = true) as Hd.
  { cbn [allChars]. rewrite H, andb_true_r. apply Hp.
    apply N.mod_upper_bound. discriminate. }
  destruct (n / 10 =? 0)%N; [exact Hd|]. apply IH, Hd.
Qed.

Lemma numberToString_allChars (p : ascii -> bool) z :
  p "-"%char = true ->
  forallb (fun m => p (ascii_of_N (48 + m))) [0; 1; 2; 3; 4; 5; 6; 7; 8; 9]%N = true ->
  allChars p (numberToString z) = true.
Proof.
  intros Hm Hd. unfold numberToString.
  destruct (z <? 0); cbn [allChars]; [rewrite Hm; cbn [andb]|];
    apply digitsFuel_allChars; try reflexivity; apply digit_cases, Hd.
Qed.

Lemma numberToString_notSlash z : allChars notSlash (numberToString z) = true.
Proof. apply numberToString_allChars; reflexivity. Qed.

Lemma repeatChar_notSlash n : allChars notSlash (repeatChar n "0") = true.
Proof. induction n; simpl; auto. Qed.

Lemma slug_notSlash ttl : allChars notSlash (slug ttl) = true.
Proof.
  unfold slug. induction ttl as [|c r IH]; [reflexivity|].
  simpl. rewrite IH, andb_true_r. clear. char_case c.
Qed.

Lemma dirname_markdownPathOf vaultPath t :
  dirname (markdownPathOf vaultPath t) = pathJoin vaultPath "Tasks".
Proof.
  unfold markdownPathOf, dirname. unfold pathJoin at 1.
  rewrite beforeLastSlash_join.
  - unfold pathJoin. destruct vaultPath; reflexivity.
  - unfold padStart. rewrite !allChars_app.
    rewrite repeatChar_notSlash, numberToString_notSlash, slug_notSlash.
    reflexivity.
Qed.

Lemma existsSync_insert fs q p c :
  existsSync fs q = true ->
  existsSync {| files := <[p:=c]> (files fs); dirs := dirs fs; denied := denied fs |} q
  = true.
Proof.
  unfold existsSync. simpl. intros H.
  destruct (decide (p = q)) as [->|Hne].
  - now rewrite lookup_insert_eq.
  - now rewrite lookup_insert_ne.
Qed.

Lemma toStep_dir_present vaultPath fs res t :
  existsSync fs (pathJoin vaultPath "Tasks") = true ->
  toStep false vaultPath (fs, res) t =
  if bool_decide (markdownPathOf vaultPath t ∈ denied fs)
  then (fs, pushError (numberToString (id t)) "EACCES: permission denied" res)
  else if bool_decide (markdownPathOf vaultPath t ∈ dirs fs)
  then (fs, pushError (numberToString (id t))
              "EISDIR: illegal operation on a directory" res)
  else ({| files := <[markdownPathOf vaultPath t := generateMarkdownForTask t]> (files fs);
           dirs := dirs fs; denied := denied fs |},
        if existsSync fs (markdownPathOf vaultPath t)
        then incUpdated res else incCreated res).
Proof.
  intros H. unfold toStep. rewrite dirname_markdownPathOf.
  unfold ensureDir. rewrite H. cbn [negb]. cbv iota.
  unfold writeFileSync.
  destruct (bool_decide (markdownPathOf vaultPath t ∈ denied fs)); [reflexivity|].
  destruct (bool_decide (markdownPathOf vaultPath t ∈ dirs fs)); reflexivity.
Qed.

Lemma pushError_length who msg r :
  length (errors (pushError who msg r)) = S (length (errors r)).
Proof. unfold pushError. simpl. rewrite length_app. simpl. lia. Qed.

Lemma toStep_errors_grow dryRun vaultPath fs res t :
  (length (errors res) <=
   length (errors (snd (toStep dryRun vaultPath (fs, res) t))))%nat.
Proof.
  unfold toStep. destruct dryRun; [simpl; lia|].
  destruct (ensureDir fs (dirname (markdownPathOf vaultPath t))) as [fs1 [[]|m]].
  - destruct (writeFileSync fs1 (markdownPathOf vaultPath t) (generateMarkdownForTask t))
      as [fs2 [[]|m]].
    + destruct (existsSync fs1 (markdownPathOf vaultPath t)); simpl; lia.
    + cbn [snd]. rewrite pushError_length. lia.
  - cbn [snd]. rewrite pushError_length. lia.
Qed.

Lemma toLoop_errors_grow dryRun vaultPath : forall tasks fs res,
  (length (errors res) <=
   length (errors (snd (fold_left (toStep dryRun vaultPath) tasks (fs, res)))))%nat.
Proof.
  induction tasks as [|t r IH]; intros fs res; [simpl; lia|].
  cbn [fold_left].
  pose proof (toStep_errors_grow dryRun vaultPath fs res t) as H1.
  destruct (toStep dryRun vaultPath (fs, res) t) as [fs1 res1].
  specialize (IH fs1 res1). cbn [snd] in H1. lia.
Qed.

Lemma toStep_no_error vaultPath fs res t fs' res' :
  toStep false vaultPath (fs, res) t = (fs', res') ->
  length (errors res') = length (errors res) ->
  files fs' = <[markdownPathOf vaultPath t := generateMarkdownForTask t]> (files fs) /\
  denied fs' = denied fs /\
  existsSync fs' (pathJoin vaultPath "Tasks") = true /\
  (markdownPathOf vaultPath t ∉ denied fs) /\
  markdownPathOf vaultPath t ∉ dirs fs'.
Proof.
  intros H Hlen.
  destruct (existsSync fs (pathJoin vaultPath "Tasks")) eqn:Hex.
  - rewrite (toStep_dir_present _ _ _ _ Hex) in H.
    case_bool_decide as Hd.
    { inversion H; subst. rewrite pushError_length in Hlen. lia. }
    case_bool_decide as Hdir.
    { inversion H; subst. rewrite pushError_length in Hlen. lia. }
    inversion H; subst; clear H. cbn [files denied dirs].
    repeat split; try assumption. now apply existsSync_insert.
  - unfold toStep in H. rewrite dirname_markdownPathOf in H.
    unfold ensureDir in H. rewrite Hex in H. cbn [negb] in H. cbv iota in H.
    unfold mkdirSync in H.
    case_bool_decide as Hd.
    { inversion H; subst. rewrite pushError_length in Hlen. lia. }
    destruct (files fs !! pathJoin vaultPath "Tasks") eqn:Hf.
    { inversion H; subst. rewrite pushError_length in Hlen. lia. }
    unfold writeFileSync in H. cbn [files denied dirs] in H.
    case_bool_decide as Hd2.
    { inversion H; subst. rewrite pushError_length in Hlen. lia. }
    case_bool_decide as Hdir.
    { inversion H; subst. rewrite pushError_length in Hlen. lia. }
    inversion H; subst; clear H. cbn [files denied dirs].
    repeat split; try assumption.
    unfold existsSync. cbn [files dirs].
    destruct (<[markdownPathOf vaultPath t:=generateMarkdownForTask t]> (files fs)
                !! pathJoin vaultPath "Tasks"); [reflexivity|].
    apply bool_decide_eq_true_2. set_solver.
Qed.

Lemma toLoop_dir_present vaultPath : forall tasks fs res,
  existsSync fs (pathJoin vaultPath "Tasks") = true ->
  existsSync (fst (fold_left (toStep false vaultPath) tasks (fs, res)))
    (pathJoin vaultPath "Tasks") = true /\
  dirs (fst (fold_left (toStep false vaultPath) tasks (fs, res))) = dirs fs.
Proof.
  induction tasks as [|t r IH]; intros fs res Hex; [simpl; auto|].
  cbn [fold_left]. rewrite (toStep_dir_present _ _ _ _ Hex).
  case_bool_decide; [now apply IH|].
  case_bool_decide; [now apply IH|].
  edestruct IH as [A B]; [apply existsSync_insert, Hex|].
  split; [exact A|]. rewrite B. reflexivity.
Qed.

Lemma toLoop_no_error vaultPath : forall tasks fs res fs' res',
  fold_left (toStep false vaultPath) tasks (fs, res) = (fs', res') ->
  length (errors res') = length (errors res) ->
  files fs' = writesOf vaultPath tasks (files fs) /\
  denied fs' = denied fs /\
  (tasks <> [] -> existsSync fs' (pathJoin vaultPath "Tasks") = true) /\
  Forall (fun t => (markdownPathOf vaultPath t ∉ denied fs) /\
                   markdownPathOf vaultPath t ∉ dirs fs') tasks.
Proof.
  induction tasks as [|t r IH]; intros fs res fs' res' H Hlen.
  - simpl in H. inversion H; subst. repeat split; auto; congruence.
  - cbn [fold_left] in H.
    destruct (toStep false vaultPath (fs, res) t) as [fs1 res1] eqn:E1.
    pose proof (toStep_errors_grow false vaultPath fs res t) as G1.
    rewrite E1 in G1. cbn [snd] in G1.
    pose proof (toLoop_errors_grow false vaultPath r fs1 res1) as G2.
    rewrite H in G2. cbn [snd] in G2.
    destruct (toStep_no_error _ _ _ _ _ _ E1 ltac:(lia)) as (A1 & A2 & A3 & A4 & A5).
    destruct (IH _ _ _ _ H ltac:(lia)) as (B1 & B2 & B3 & B4).
    destruct (toLoop_dir_present vaultPath r fs1 res1 A3) as [C1 C2].
    rewrite H in C1, C2. cbn [fst] in C1, C2.
    repeat split.
    + rewrite B1, A1. reflexivity.
    + congruence.
    + intros _. exact C1.
    + constructor.
      * split; [exact A4|]. rewrite C2. exact A5.
      * eapply Forall_impl; [exact B4|]. intros x [X1 X2]. split; [|exact X2].
        now rewrite <- A2.
Qed.

Lemma toLoop_again vaultPath : forall tasks fs res,
  existsSync fs (pathJoin vaultPath "Tasks") = true ->
  Forall (fun t => (markdownPathOf vaultPath t ∉ denied fs) /\
                   (markdownPathOf vaultPath t ∉ dirs fs) /\
                   is_Some (files fs !! markdownPathOf vaultPath t)) tasks ->
  fold_left (toStep false vaultPath) tasks (fs, res) =
  ({| files := writesOf vaultPath tasks (files fs); dirs := dirs fs;
      denied := denied fs |},
   {| updated := length tasks + updated res; created := created res;
      conflicts := conflicts res; errors := errors res |}).
Proof.
  induction tasks as [|t r IH]; intros fs res Hex Hall.
  - destruct fs, res. reflexivity.
  - inversion Hall as [|? ? (H1 & H2 & [c Hc]) Hr]; subst.
    cbn [fold_left]. rewrite (toStep_dir_present _ _ _ _ Hex).
    rewrite (bool_decide_eq_false_2 _ H1), (bool_decide_eq_false_2 _ H2).
    assert (existsSync fs (markdownPathOf vaultPath t) = true) as ->
      by (unfold existsSync; now rewrite Hc).
    rewrite IH.
    + cbn [files dirs denied updated created conflicts errors incUpdated length writesOf
           fold_left].
      f_equal. f_equal. lia.
    + now apply existsSync_insert.
    + eapply Forall_impl; [exact Hr|]. cbn [files dirs denied].
      intros x (X1 & X2 & X3). repeat split; try assumption.
      apply lookup_insert_is_Some'. now right.
Qed.

Lemma writesOf_lookup vaultPath : forall tasks m k,
  writesOf vaultPath tasks m !! k =
  match writesOf vaultPath tasks ∅ !! k with
  | Some v => Some v
  | None => m !! k
  end.
Proof.
  unfold writesOf.
  induction tasks as [|t r IH]; intros m k; cbn [fold_left].
  - now rewrite lookup_empty.
  - rewrite IH.
    rewrite (IH (<[markdownPathOf vaultPath t:=generateMarkdownForTask t]> ∅)).
    destruct (fold_left _ r ∅ !! k); [reflexivity|].
    destruct (decide (markdownPathOf vaultPath t = k)) as [->|Hne].
    + now rewrite !lookup_insert_eq.
    + now rewrite !lookup_insert_ne, lookup_empty by assumption.
Qed.

Lemma writesOf_twice vaultPath tasks m :
  writesOf vaultPath tasks (writesOf vaultPath tasks m) = writesOf vaultPath tasks m.
Proof.
  apply map_eq. intros k.
  rewrite writesOf_lookup. rewrite (writesOf_lookup vaultPath tasks m k).
  destruct (writesOf vaultPath tasks ∅ !! k); reflexivity.
Qed.

Lemma writesOf_keeps vaultPath : forall tasks m k,
  is_Some (m !! k) -> is_Some (writesOf vaultPath tasks m !! k).
Proof.
  unfold writesOf.
  induction tasks as [|t r IH]; intros m k H; cbn [fold_left]; [exact H|].
  apply IH. apply lookup_insert_is_Some'. now right.
Qed.

Lemma writesOf_written vaultPath : forall tasks m t,
  In t tasks -> is_Some (writesOf vaultPath tasks m !! markdownPathOf vaultPath t).
Proof.
  induction tasks as [|t0 r IH]; intros m t H; [destruct H|].
  destruct H as [->|H].
  - unfold writesOf. cbn [fold_left]. apply (writesOf_keeps vaultPath r).
    rewrite lookup_insert_eq. eauto.
  - unfold writesOf. cbn [fold_left]. now apply IH.
Qed.

(** X14. After a pass of [syncTasksToObsidian] that reported no error, a
    second pass over the same tasks leaves every file and directory as the
    first pass left it, and counts every task as updated and none as
    created. *)
Theorem syncTasksToObsidian_second_pass (vaultPath : string) (fs fs1 : fsys)
  (tasks : list task) (res1 : syncResults) :
  syncTasksToObsidian false (Some tasks) fs vaultPath = Done (fs1, res1) ->
  errors res1 = [] ->
  syncTasksToObsidian false (Some tasks) fs1 vaultPath =
  Done (fs1, {| updated := length tasks; created := 0; conflicts := 0; errors := [] |}).
Proof.
  unfold syncTasksToObsidian. intros H Herr.
  injection H as H.
  destruct tasks as [|t0 r].
  - simpl in H. inversion H; subst. reflexivity.
  - destruct (toLoop_no_error vaultPath (t0 :: r) fs noResults fs1 res1 H)
      as (A1 & A2 & A3 & A4).
    { rewrite Herr. reflexivity. }
    rewrite toLoop_again.
    + f_equal. f_equal.
      * rewrite A1, writesOf_twice. rewrite <- A1. destruct fs1; reflexivity.
      * f_equal. cbn [updated noResults]. lia.
    + apply A3. discriminate.
    + apply Forall_forall. intros t Ht.
      rewrite Forall_forall in A4. destruct (A4 t Ht) as [X1 X2].
      repeat split.
      * now rewrite A2.
      * exact X2.
      * rewrite A1. apply writesOf_written. now apply list_elem_of_In.
Qed.

Lemma syncTasksToObsidian_second_pass_witness :
  exists fs1,
    syncTasksToObsidian false
      (Some [Examples.basicTask 1 "Setup" "pending" "" None;
             Examples.basicTask 2 "Write docs" "done" "" None])
      fs1 "/vault" =
    Done (fs1, {| updated := 2; created := 0; conflicts := 0; errors := [] |}) /\
    is_Some (files fs1 !! "/vault/Tasks/task-002-write-docs.md").
Proof.
  eexists. split.
  - apply (syncTasksToObsidian_second_pass "/vault"
             {| files := ∅; dirs := {[ "/vault" ]}; denied := ∅ |} _
             [Examples.basicTask 1 "Setup" "pending" "" None;
              Examples.basicTask 2 "Write docs" "done" "" None]
             {| updated := 0; created := 2; conflicts := 0; errors := [] |}).
    + reflexivity.
    + reflexivity.
  - vm_compute. eauto.
Defined.

(** ** Updating a file that was just rendered *)

Lemma firstBox_here ttl c rest :
  isBox c = true -> atLineEnd rest = true -> firstBox ttl (lineOf c ttl +:+ rest) c.
Proof.
  intros Hb He. exists "", rest. rewrite searchFrom_eq.
  now rewrite (matchHere_complete _ _ _ Hb He).
Qed.

Lemma searchFrom_skip_line ttl rest before c after :
  allChars noTerminator ttl = true ->
  searchFrom ttl true rest = Some (before, c, after) ->
  forall y bol,
  allChars noTerminator y = true ->
  (bol = true -> matchHere ttl y = None) ->
  searchFrom ttl bol (y +:+ nl +:+ rest) = Some (y +:+ nl +:+ before, c, after).
Proof.
  intros Ht Hr. induction y as [|a y IH]; intros bol Hy Hm.
  - change ("" +:+ nl +:+ rest) with (String "010" rest).
    rewrite searchFrom_eq.
    assert ((if bol then matchHere ttl (String "010" rest) else None) = None) as ->.
    { destruct bol; [|reflexivity].
      change (String "010" rest) with ("" +:+ String "010" rest).
      rewrite (matchHere_snoc ttl "" "010" rest Ht eq_refl), (Hm eq_refl).
      reflexivity. }
    change (isLineTerminator "010") with true. rewrite Hr. reflexivity.
  - change (String a y +:+ nl +:+ rest) with (String a (y +:+ nl +:+ rest)).
    rewrite searchFrom_eq.
    assert ((if bol then matchHere ttl (String a (y +:+ nl +:+ rest)) else None) = None)
      as ->.
    { destruct bol; [|reflexivity].
      change (String a (y +:+ nl +:+ rest)) with (String a y +:+ String "010" rest).
      rewrite (matchHere_snoc ttl (String a y) "010" rest Ht eq_refl), (Hm eq_refl).
      reflexivity. }
    cbn [allChars] in Hy. apply andb_true_iff in Hy. destruct Hy as [Ha Hy].
    unfold noTerminator in Ha. apply negb_true_iff in Ha. rewrite Ha.
    rewrite (IH false Hy); [reflexivity|discriminate].
Qed.

Lemma firstBox_skip ttl y rest c :
  allChars noTerminator ttl = true ->
  allChars noTerminator y = true ->
  matchHere ttl y = None ->
  firstBox ttl rest c -> firstBox ttl (y +:+ nl +:+ rest) c.
Proof.
  intros Ht Hy Hm (before & after & H).
  exists (y +:+ nl +:+ before), after.
  apply (searchFrom_skip_line _ _ _ _ _ Ht H y true Hy). auto.
Qed.

Lemma updateTaskInMarkdown_fixed content t :
  allChars noDollar (title t) = true ->
  firstBox (title t) content (boxChar t) ->
  updateTaskInMarkdown content t = content.
Proof.
  intros Hd (before & after & H).
  destruct (searchFrom_sound _ _ _ _ _ _ H) as (Hc & _).
  unfold updateTaskInMarkdown, taskRegexExec. rewrite H.
  rewrite getSubstitution_plain.
  - rewrite replacement_lineOf. symmetry. exact Hc.
  - rewrite replacement_lineOf. unfold lineOf, boxChar.
    destruct (String.eqb (status t) "done"); simpl; exact Hd.
Qed.

Lemma join_quoted_noTerminator tags :
  Forall (fun tag => allChars noTerminator tag = true) tags ->
  allChars noTerminator
    (join ", " (map (fun tag => dquote +:+ tag +:+ dquote) tags)) = true.
Proof.
  induction 1 as [|tag r Htag Hr IH]; [reflexivity|].
  cbn [map join]. destruct (map _ r) as [|x m] eqn:E.
  - rewrite !allChars_app, Htag. reflexivity.
  - rewrite !allChars_app, Htag, IH. reflexivity.
Qed.

Lemma orElse_noTerminator a b :
  allChars noTerminator a = true -> allChars noTerminator b = true ->
  allChars noTerminator (orElse a b) = true.
Proof. intros Ha Hb. unfold orElse. destruct (truthy a); assumption. Qed.

Lemma numberToString_noTerminator z : allChars noTerminator (numberToString z) = true.
Proof. apply numberToString_allChars; reflexivity. Qed.

(** X15. A text that [generateMarkdownForTask] rendered is left as it is
    by [updateTaskInMarkdown] for the same task, when the title has no
    dollar sign and the title, the priority, the status and the tags have
    no line terminator: the checkbox line written is the first one found
    and already has the box of the status. *)
Theorem updateTaskInMarkdown_keeps_rendering (t : task) :
  plainTitle (title t) = true ->
  allChars noTerminator (priority t) = true ->
  allChars noTerminator (status t) = true ->
  Forall (fun tag => allChars noTerminator tag = true) (obsidianTags t) ->
  updateTaskInMarkdown (generateMarkdownForTask t) t = generateMarkdownForTask t.
Proof.
  unfold plainTitle. intros H Hp Hs Htags.
  apply andb_true_iff in H. destruct H as [Hd Ht].
  apply updateTaskInMarkdown_fixed; [exact Hd|].
  pose proof (isBox_boxChar t) as Hb.
  unfold generateMarkdownForTask.
  set (rest := (if truthy (description t) then _ else _) +:+ _).
  replace ("- " +:+ checkboxOf t +:+ " " +:+ title t +:+ nl +:+ nl +:+ rest)
    with (lineOf (boxChar t) (title t) +:+ nl +:+ nl +:+ rest)
    by (rewrite <- replacement_lineOf, !append_assoc_s; reflexivity).
  assert (firstBox (title t)
            (("# " +:+ title t) +:+ nl +:+ "" +:+ nl +:+
             lineOf (boxChar t) (title t) +:+ nl +:+ nl +:+ rest) (boxChar t)) as Hbody.
  { apply firstBox_skip; [exact Ht|exact Ht|reflexivity|].
    apply firstBox_skip; [exact Ht|reflexivity|reflexivity|].
    apply firstBox_here; [exact Hb|reflexivity]. }
  assert (forall fm,
            fm +:+ "# " +:+ title t +:+ nl +:+ nl +:+
            lineOf (boxChar t) (title t) +:+ nl +:+ nl +:+ rest =
            fm +:+ (("# " +:+ title t) +:+ nl +:+ "" +:+ nl +:+
                    lineOf (boxChar t) (title t) +:+ nl +:+ nl +:+ rest)) as Hfm.
  { intros fm. rewrite !append_assoc_s. reflexivity. }
  rewrite Hfm. clear Hfm.
  set (body := ("# " +:+ title t) +:+ nl +:+ "" +:+ nl +:+ _) in *.
  destruct (nonEmpty (obsidianTags t) || nonEmpty (linkedNotes t) || negb (id t =? 0));
    [|exact Hbody].
  assert (firstBox (title t)
            (("task_id: " +:+ numberToString (id t)) +:+ nl +:+
             ("priority: " +:+ orElse (priority t) "medium") +:+ nl +:+
             ("status: " +:+ orElse (status t) "pending") +:+ nl +:+
             "---" +:+ nl +:+ "" +:+ nl +:+ body) (boxChar t)) as Hmeta.
  { apply firstBox_skip; [exact Ht| |reflexivity|].
    { rewrite allChars_app, numberToString_noTerminator. reflexivity. }
    apply firstBox_skip; [exact Ht| |reflexivity|].
    { rewrite allChars_app, orElse_noTerminator; auto. }
    apply firstBox_skip; [exact Ht| |reflexivity|].
    { rewrite allChars_app, orElse_noTerminator; auto. }
    apply firstBox_skip; [exact Ht|reflexivity|reflexivity|].
    apply firstBox_skip; [exact Ht|reflexivity|reflexivity|].
    exact Hbody. }
  destruct (nonEmpty (obsidianTags t)).
  - match goal with
    | |- firstBox _ ?s _ =>
        replace s with
          ("---" +:+ nl +:+
           ("tags: [" +:+
            join ", " (map (fun tag => dquote +:+ tag +:+ dquote) (obsidianTags t)) +:+
            "]") +:+ nl +:+
           ("task_id: " +:+ numberToString (id t)) +:+ nl +:+
           ("priority: " +:+ orElse (priority t) "medium") +:+ nl +:+
           ("status: " +:+ orElse (status t) "pending") +:+ nl +:+
           "---" +:+ nl +:+ "" +:+ nl +:+ body)
          by (rewrite !append_assoc_s; reflexivity)
    end.
    apply firstBox_skip; [exact Ht|reflexivity|reflexivity|].
    apply firstBox_skip; [exact Ht| |reflexivity|exact Hmeta].
    rewrite !allChars_app, (join_quoted_noTerminator _ Htags). reflexivity.
  - match goal with
    | |- firstBox _ ?s _ =>
        replace s with
          ("---" +:+ nl +:+
           ("task_id: " +:+ numberToString (id t)) +:+ nl +:+
           ("priority: " +:+ orElse (priority t) "medium") +:+ nl +:+
           ("status: " +:+ orElse (status t) "pending") +:+ nl +:+
           "---" +:+ nl +:+ "" +:+ nl +:+ body)
          by (rewrite !append_assoc_s; reflexivity)
    end.
    apply firstBox_skip; [exact Ht|reflexivity|reflexivity|exact Hmeta].
Qed.

Lemma updateTaskInMarkdown_keeps_rendering_witness :
  updateTaskInMarkdown
    (generateMarkdownForTask (Examples.basicTask 7 "Write docs" "done" "note.md" None))
    (Examples.basicTask 7 "Write docs" "done" "note.md" None)
  = generateMarkdownForTask (Examples.basicTask 7 "Write docs" "done" "note.md" None).
Proof.
  apply (updateTaskInMarkdown_keeps_rendering
           (Examples.basicTask 7 "Write docs" "done" "note.md" None)).
  - reflexivity.
  - reflexivity.
  - reflexivity.
  - simpl. repeat constructor.
Defined.

(** ** Initialising a vault *)

Lemma pathJoin_inj a b c : pathJoin a b = pathJoin a c -> b = c.
Proof.
  unfold pathJoin. induction a as [|x a IH]; intros H.
  - simpl in H. now inversion H.
  - change (String x a +:+ "/" +:+ b) with (String x (a +:+ "/" +:+ b)) in H.
    change (String x a +:+ "/" +:+ c) with (String x (a +:+ "/" +:+ c)) in H.
    inversion H. auto.
Qed.

Lemma existsSync_onlyWrites targets fs fs' p :
  onlyWrites targets fs fs' -> existsSync fs p = true -> existsSync fs' p = true.
Proof.
  intros (_ & B & C & _). unfold existsSync.
  destruct (files fs !! p) eqn:E.
  - intros _. destruct (B p ltac:(eauto)) as [x ->]. reflexivity.
  - intros H. apply bool_decide_eq_true_1 in H.
    destruct (files fs' !! p); [reflexivity|].
    apply bool_decide_eq_true_2. set_solver.
Qed.

Lemma onlyWrites_weaken t1 t2 fs fs' :
  (forall p, In p t1 -> In p t2) -> onlyWrites t1 fs fs' -> onlyWrites t2 fs fs'.
Proof.
  intros Hsub (A & B & C & D). unfold onlyWrites. repeat split; auto.
Qed.

Lemma ensureDir_present fs d : existsSync fs d = true -> ensureDir fs d = (fs, Done tt).
Proof. intros H. unfold ensureDir. now rewrite H. Qed.

Lemma ensureDir_Done fs d fs' u :
  ensureDir fs d = (fs', Done u) ->
  existsSync fs' d = true /\ files fs' = files fs /\ denied fs' = denied fs.
Proof.
  unfold ensureDir. destruct (existsSync fs d) eqn:E; cbn [negb].
  - intros H. inversion H; subst. auto.
  - unfold mkdirSync. case_bool_decide as Hd; [discriminate|].
    destruct (files fs !! d) eqn:Ef; [discriminate|].
    intros H0. inversion H0; subst. cbn [files denied]. repeat split.
    unfold existsSync. cbn [files dirs]. rewrite Ef.
    apply bool_decide_eq_true_2. set_solver.
Qed.

Lemma writeFileSync_Done fs p content fs' u :
  writeFileSync fs p content = (fs', Done u) ->
  (p ∉ denied fs) /\ (p ∉ dirs fs) /\
  fs' = {| files := <[p := content]> (files fs); dirs := dirs fs; denied := denied fs |}.
Proof.
  unfold writeFileSync. case_bool_decide as Hd; [discriminate|].
  case_bool_decide as Hdir; [discriminate|].
  intros H0. inversion H0; subst. auto.
Qed.

Lemma writeFileSync_Threw fs p content fs' m :
  writeFileSync fs p content = (fs', Threw m) -> fs' = fs.
Proof.
  unfold writeFileSync. case_bool_decide as Hd; [intros H0; now inversion H0|].
  case_bool_decide as Hdir; [intros H0; now inversion H0|discriminate].
Qed.

Section InitFacts.

Variable JSON_stringify : syncConfig -> string.

(** X16. For a vault path in normal form, which [path.join] only
    extends: [initObsidianSync] changes no file but the README and the sync
    configuration below the vault; a README, or anything else, that is
    already at the README's path is kept as it is; on a vault path that is
    not an existing directory it throws and leaves the file system as it
    found it; when it returns, the folders Tasks and Tags, the README and
    the configuration exist, and the configuration was written by this
    very call. *)
Theorem initObsidianSync_effects (now : nat -> string) (fs : fsys)
  (vaultPath tasksPath : string) (tag projectRoot : option string) :
  plainPath vaultPath = true ->
  onlyWrites [pathJoin vaultPath "TaskMaster-README.md";
              pathJoin vaultPath ".taskmaster-sync.json"]
    fs (fst (initObsidianSync JSON_stringify now fs vaultPath tasksPath tag projectRoot))
  /\
  (existsSync fs (pathJoin vaultPath "TaskMaster-README.md") = true ->
   files (fst (initObsidianSync JSON_stringify now fs vaultPath tasksPath tag projectRoot))
     !! pathJoin vaultPath "TaskMaster-README.md"
   = files fs !! pathJoin vaultPath "TaskMaster-README.md")
  /\
  (bool_decide (vaultPath ∈ dirs fs) = false ->
   exists m,
     initObsidianSync JSON_stringify now fs vaultPath tasksPath tag projectRoot
     = (fs, Threw m))
  /\
  (forall fs' r,
     initObsidianSync JSON_stringify now fs vaultPath tasksPath tag projectRoot
     = (fs', Done r) ->
     existsSync fs' (pathJoin vaultPath "Tasks") = true /\
     existsSync fs' (pathJoin vaultPath "Tags") = true /\
     existsSync fs' (pathJoin vaultPath "TaskMaster-README.md") = true /\
     (exists stamp,
        files fs' !! pathJoin vaultPath ".taskmaster-sync.json" =
        Some (JSON_stringify
                {| sc_initialized := stamp; sc_vaultPath := vaultPath;
                   sc_tasksPath := tasksPath;
                   sc_tag := match tag with Some g => g | None => "master" end;
                   sc_projectRoot := projectRoot; sc_version := "1.0.0";
                   sc_autoSync := false; sc_conflictResolution := "manual";
                   sc_backupBeforeSync := true |})) /\
     r = {| ir_success := true; ir_vaultPath := vaultPath; ir_tasksPath := tasksPath;
            ir_configPath := pathJoin vaultPath ".taskmaster-sync.json";
            ir_readmePath := pathJoin vaultPath "TaskMaster-README.md" |}).
Proof.
  intros _.
  assert (pathJoin vaultPath "TaskMaster-README.md" <>
          pathJoin vaultPath ".taskmaster-sync.json") as Hne.
  { intros H. apply pathJoin_inj in H. discriminate. }
  unfold initObsidianSync.
  destruct (validateObsidianVault fs vaultPath) as [w|m0] eqn:Ev.
  2:{ split; [apply onlyWrites_refl|]. split; [reflexivity|].
      split; [eauto|]. intros fs' r H. discriminate. }
  assert (bool_decide (vaultPath ∈ dirs fs) = true) as Hdir.
  { unfold validateObsidianVault in Ev.
    destruct (negb (existsSync fs vaultPath)); [discriminate|].
    destruct (bool_decide (vaultPath ∈ dirs fs)); [reflexivity|discriminate]. }
  pose proof (ensureDir_onlyWrites fs (pathJoin vaultPath "Tasks")) as W1.
  destruct (ensureDir fs (pathJoin vaultPath "Tasks")) as [fs1 [u1|m1]] eqn:E1;
    cbn [fst] in W1.
  2:{ cbn [fst]. split; [eapply onlyWrites_weaken; [|exact W1]; intros ? []|].
      split; [intros _; apply W1; intros []|].
      split; [intros H; congruence|]. intros fs' r H. discriminate. }
  pose proof (ensureDir_onlyWrites fs1 (pathJoin vaultPath "Tags")) as W2.
  destruct (ensureDir fs1 (pathJoin vaultPath "Tags")) as [fs2 [u2|m2]] eqn:E2;
    cbn [fst] in W2.
  all: pose proof (onlyWrites_trans _ _ _ _ _ W1 W2) as W12; cbn [app] in W12.
  2:{ cbn [fst]. split; [eapply onlyWrites_weaken; [|exact W12]; intros ? []|].
      split; [intros _; apply W12; intros []|].
      split; [intros H; congruence|]. intros fs' r H. discriminate. }
  destruct (ensureDir_Done _ _ _ _ E1) as (X1 & _).
  destruct (ensureDir_Done _ _ _ _ E2) as (X2 & _).
  pose proof (existsSync_onlyWrites _ _ _ _ W2 X1) as X1'.
  set (readme := pathJoin vaultPath "TaskMaster-README.md") in *.
  set (config := pathJoin vaultPath ".taskmaster-sync.json") in *.
  set (g := match tag with Some g => g | None => "master" end).
  assert (exists (fs3 : fsys) (r3 : io unit),
            (if negb (existsSync fs2 readme)
             then writeFileSync fs2 readme (readmeContent vaultPath tasksPath g (now 0%nat))
             else (fs2, Done tt)) = (fs3, r3) /\
            onlyWrites [readme] fs2 fs3 /\
            (existsSync fs readme = true -> fs3 = fs2) /\
            (forall u, r3 = Done u -> existsSync fs3 readme = true)) as
    (fs3 & r3 & E3 & W3 & K3 & X3).
  { destruct (existsSync fs2 readme) eqn:Er; cbn [negb].
    - exists fs2, (Done tt).
      split; [reflexivity|]. split; [apply onlyWrites_refl|]. split; auto.
    - pose proof (writeFileSync_onlyWrites fs2 readme
                    (readmeContent vaultPath tasksPath g (now 0%nat))) as W.
      destruct (writeFileSync fs2 readme (readmeContent vaultPath tasksPath g (now 0%nat)))
        as [fs3 r3] eqn:Ew.
      exists fs3, r3. cbn [fst] in W.
      split; [reflexivity|]. split; [exact W|]. split.
      + intros H. apply (existsSync_onlyWrites _ _ _ _ W12) in H. congruence.
      + intros u ->. apply writeFileSync_Done in Ew. destruct Ew as (_ & _ & ->).
        unfold existsSync. cbn [files]. now rewrite lookup_insert_eq. }
  rewrite E3.
  pose proof (onlyWrites_trans _ _ _ _ _ W12 W3) as W123. cbn [app] in W123.
  destruct r3 as [u3|m3].
  2:{ cbn [fst]. split; [eapply onlyWrites_weaken; [|exact W123]; intros p [<-|[]]; now left|].
      split; [intros H; rewrite (K3 H); apply W12; intros []|].
      split; [intros H; congruence|]. intros fs' r H. discriminate. }
  match goal with
  | |- context [writeFileSync fs3 config ?c] =>
      pose proof (writeFileSync_onlyWrites fs3 config c) as W4;
      destruct (writeFileSync fs3 config c) as [fs4 [u4|m4]] eqn:E4
  end; cbn [fst] in W4 |- *.
  all: pose proof (onlyWrites_trans _ _ _ _ _ W123 W4) as W; cbn [app] in W.
  all: split; [exact W|].
  all: split;
    [intros H; destruct W4 as (A4 & _); rewrite A4 by (intros [Hc|[]]; congruence);
     rewrite (K3 H); apply W12; intros []|].
  all: split; [intros H; congruence|].
  - intros fs' r H. inversion H; subst fs' r; clear H.
    split; [exact (existsSync_onlyWrites _ _ _ _ W4 (existsSync_onlyWrites _ _ _ _ W3 X1'))|].
    split; [exact (existsSync_onlyWrites _ _ _ _ W4 (existsSync_onlyWrites _ _ _ _ W3 X2))|].
    split; [exact (existsSync_onlyWrites _ _ _ _ W4 (X3 u3 eq_refl))|].
    split; [|reflexivity].
    apply writeFileSync_Done in E4. destruct E4 as (_ & _ & ->). cbn [files].
    rewrite lookup_insert_eq. eauto.
  - intros fs' r H. discriminate.
Qed.

End InitFacts.

Lemma initObsidianSync_effects_witness :
  exists m,
    initObsidianSync sc_initialized Examples.clock
      (Examples.oneFile "/vault/note.md" "# Note") "/elsewhere" "tasks.json" None None
    = (Examples.oneFile "/vault/note.md" "# Note", Threw m).
Proof.
  destruct (initObsidianSync_effects sc_initialized Examples.clock
              (Examples.oneFile "/vault/note.md" "# Note") "/elsewhere" "tasks.json"
              None None) as (_ & _ & H & _).
  - reflexivity.
  - apply H. reflexivity.
Defined.

Lemma writeFileSync_allowed fs p content :
  p ∉ denied fs -> p ∉ dirs fs ->
  writeFileSync fs p content =
  ({| files := <[p := content]> (files fs); dirs := dirs fs; denied := denied fs |},
   Done tt).
Proof.
  intros H1 H2. unfold writeFileSync.
  now rewrite (bool_decide_eq_false_2 _ H1), (bool_decide_eq_false_2 _ H2).
Qed.

Lemma validateObsidianVault_Done fs vaultPath w :
  validateObsidianVault fs vaultPath = Done w -> vaultPath ∈ dirs fs.
Proof.
  unfold validateObsidianVault.
  destruct (negb (existsSync fs vaultPath)); [discriminate|].
  case_bool_decide as Hdir; [|discriminate]. auto.
Qed.

Lemma validateObsidianVault_directory fs vaultPath :
  vaultPath ∈ dirs fs ->
  validateObsidianVault fs vaultPath =
  Done (negb (existsSync fs (pathJoin vaultPath ".obsidian"))).
Proof.
  intros H1. unfold validateObsidianVault.
  assert (existsSync fs vaultPath = true) as ->.
  { unfold existsSync. destruct (files fs !! vaultPath); [reflexivity|].
    now apply bool_decide_eq_true_2. }
  cbn [negb]. now rewrite (bool_decide_eq_true_2 _ H1).
Qed.

Section InitAgain.

Variable JSON_stringify : syncConfig -> string.

Lemma initObsidianSync_Done now fs vaultPath tasksPath tag projectRoot fs' r :
  initObsidianSync JSON_stringify now fs vaultPath tasksPath tag projectRoot
  = (fs', Done r) ->
  (vaultPath ∈ dirs fs') /\
  existsSync fs' (pathJoin vaultPath "Tasks") = true /\
  existsSync fs' (pathJoin vaultPath "Tags") = true /\
  existsSync fs' (pathJoin vaultPath "TaskMaster-README.md") = true /\
  (pathJoin vaultPath ".taskmaster-sync.json" ∉ denied fs') /\
  (pathJoin vaultPath ".taskmaster-sync.json" ∉ dirs fs') /\
  r = {| ir_success := true; ir_vaultPath := vaultPath; ir_tasksPath := tasksPath;
         ir_configPath := pathJoin vaultPath ".taskmaster-sync.json";
         ir_readmePath := pathJoin vaultPath "TaskMaster-README.md" |}.
Proof.
  unfold initObsidianSync. intros H.
  destruct (validateObsidianVault fs vaultPath) as [w|] eqn:Ev; [|discriminate].
  apply validateObsidianVault_Done in Ev. rename Ev into V1.
  pose proof (ensureDir_onlyWrites fs (pathJoin vaultPath "Tasks")) as W1.
  destruct (ensureDir fs (pathJoin vaultPath "Tasks")) as [fs1 [u1|]] eqn:E1;
    [|discriminate].
  pose proof (ensureDir_onlyWrites fs1 (pathJoin vaultPath "Tags")) as W2.
  destruct (ensureDir fs1 (pathJoin vaultPath "Tags")) as [fs2 [u2|]] eqn:E2;
    [|discriminate].
  cbn [fst] in W1, W2.
  destruct (ensureDir_Done _ _ _ _ E1) as (X1 & _).
  destruct (ensureDir_Done _ _ _ _ E2) as (X2 & _).
  pose proof (existsSync_onlyWrites _ _ _ _ W2 X1) as X1'.
  pose proof (onlyWrites_trans _ _ _ _ _ W1 W2) as W12.
  assert (vaultPath ∈ dirs fs2) as V1'.
  { destruct W12 as (_ & _ & C & D). apply C. exact V1. }
  clear W1 W2 W12 E1 E2 X1 V1.
  set (readme := pathJoin vaultPath "TaskMaster-README.md") in *.
  set (config := pathJoin vaultPath ".taskmaster-sync.json") in *.
  assert (exists (fs3 : fsys) (c : string) (u : unit),
            dirs fs3 = dirs fs2 /\ denied fs3 = denied fs2 /\
            existsSync fs3 readme = true /\
            existsSync fs3 (pathJoin vaultPath "Tasks") = true /\
            existsSync fs3 (pathJoin vaultPath "Tags") = true /\
            writeFileSync fs3 config c = (fs', Done u) /\
            r = {| ir_success := true; ir_vaultPath := vaultPath;
                   ir_tasksPath := tasksPath; ir_configPath := config;
                   ir_readmePath := readme |})
    as (fs3 & c & u & D3 & N3 & R3 & T3 & G3 & Hc & ->).
  { destruct (existsSync fs2 readme) eqn:Er; cbn [negb] in H.
    - match type of H with
      | context [writeFileSync fs2 config ?c] =>
          destruct (writeFileSync fs2 config c) as [fs4 [u4|]] eqn:E4;
            [exists fs2, c, u4|discriminate]
      end.
      inversion H; subst. repeat split; auto.
    - match type of H with
      | context [writeFileSync fs2 readme ?c] =>
          destruct (writeFileSync fs2 readme c) as [fs3 [u3|]] eqn:E3; [|discriminate]
      end.
      apply writeFileSync_Done in E3. destruct E3 as (_ & _ & ->).
      match type of H with
      | context [writeFileSync ?f config ?c] =>
          destruct (writeFileSync f config c) as [fs4 [u4|]] eqn:E4;
            [exists f, c, u4|discriminate]
      end.
      inversion H; subst. cbn [dirs denied].
      split; [reflexivity|]. split; [reflexivity|].
      split; [unfold existsSync; cbn [files]; now rewrite lookup_insert_eq|].
      split; [now apply existsSync_insert|]. split; [now apply existsSync_insert|].
      split; [exact E4|reflexivity]. }
  apply writeFileSync_Done in Hc. destruct Hc as (C1 & C2 & ->).
  cbn [dirs denied].
  split; [rewrite D3; exact V1'|].
  split; [apply existsSync_insert, T3|]. split; [apply existsSync_insert, G3|].
  split; [apply existsSync_insert, R3|].
  split; [exact C1|]. split; [exact C2|reflexivity].
Qed.

(** X17. For a vault path in normal form: after [initObsidianSync] has
    returned, a second call on the same vault returns the same result and
    only rewrites the sync configuration, with the time of the second
    call: the README of the first call and every other file and folder
    stay as they are. *)
Theorem initObsidianSync_again (now1 now2 : nat -> string) (fs fs1 : fsys)
  (vaultPath tasksPath : string) (tag projectRoot : option string) (r1 : initResult) :
  plainPath vaultPath = true ->
  initObsidianSync JSON_stringify now1 fs vaultPath tasksPath tag projectRoot
  = (fs1, Done r1) ->
  initObsidianSync JSON_stringify now2 fs1 vaultPath tasksPath tag projectRoot
  = ({| files :=
          <[pathJoin vaultPath ".taskmaster-sync.json" :=
              JSON_stringify
                {| sc_initialized := now2 0%nat; sc_vaultPath := vaultPath;
                   sc_tasksPath := tasksPath;
                   sc_tag := match tag with Some g => g | None => "master" end;
                   sc_projectRoot := projectRoot; sc_version := "1.0.0";
                   sc_autoSync := false; sc_conflictResolution := "manual";
                   sc_backupBeforeSync := true |}]> (files fs1);
        dirs := dirs fs1; denied := denied fs1 |},
     Done r1).
Proof.
  intros _ H.
  destruct (initObsidianSync_Done _ _ _ _ _ _ _ _ H)
    as (V1 & T & G & R & C1 & C2 & ->).
  unfold initObsidianSync.
  rewrite (validateObsidianVault_directory _ _ V1).
  rewrite (ensureDir_present _ _ T), (ensureDir_present _ _ G), R.
  cbn [negb]. rewrite (writeFileSync_allowed _ _ _ C1 C2). reflexivity.
Qed.

End InitAgain.

Lemma initObsidianSync_again_witness :
  exists fs2,
    fst (initObsidianSync sc_initialized (fun n => if (n =? 0)%nat then "t2" else "t3")
           (fst (initObsidianSync sc_initialized
                   (fun n => if (n =? 0)%nat then "t0" else "t1")
                   {| files := ∅; dirs := {[ "/vault" ]}; denied := ∅ |}
                   "/vault" "tasks.json" None None))
           "/vault" "tasks.json" None None) = fs2 /\
    files fs2 !! "/vault/.taskmaster-sync.json" = Some "t2" /\
    files fs2 !! "/vault/TaskMaster-README.md" =
    Some (readmeContent "/vault" "tasks.json" "master" "t0").
Proof.
  eexists. split.
  - erewrite (initObsidianSync_again sc_initialized
                (fun n => if (n =? 0)%nat then "t0" else "t1")
                (fun n => if (n =? 0)%nat then "t2" else "t3")
                {| files := ∅; dirs := {[ "/vault" ]}; denied := ∅ |} _
                "/vault" "tasks.json" None None).
    + reflexivity.
    + reflexivity.
    + reflexivity.
  - split; reflexivity.
Defined.

(** ** Several new records of one file *)

Section OneFile.

Variable Date_parse : string -> option Z.
Variable now : nat -> string.

Lemma fromStep_same_file file y j k res x :
  (forall n, notBeforeEpoch Date_parse (Some (now n)) = true) ->
  truthy file = true -> recordOf file y -> recordOf file x ->
  fromStep Date_parse now false k ([taskFromVault y 1 (now j)], res) x =
  ([taskFromVault x 1 (now k)], incUpdated res).
Proof.
  intros Hnow Hfile (Y1 & Y2 & Y3) (X1 & X2 & X3). unfold fromStep.
  assert (findIndexed (titleOrFile x) [taskFromVault y 1 (now j)] =
          Some (0%nat, taskFromVault y 1 (now j))) as ->.
  { unfold findIndexed. cbn [findFrom]. unfold titleOrFile.
    cbn [title sourceFile taskFromVault]. rewrite Y1, X1, Hfile, String.eqb_refl.
    now rewrite orb_true_r. }
  rewrite (hasConflict_untimed Date_parse (taskFromVault y 1 (now j)) x X2 X3)
    by apply Hnow.
  cbn [insert list_insert]. f_equal. f_equal.
  unfold assignFromVault, taskFromVault. cbn. rewrite X2, Y2. reflexivity.
Qed.

Lemma last_cons_default {A : Type} (r : list A) : forall x y,
  List.last (x :: r) y = List.last r x.
Proof.
  induction r as [|v r IH]; intros x y; [reflexivity|].
  change (List.last (x :: v :: r) y) with (List.last (v :: r) y).
  now rewrite (IH v y), (IH v x).
Qed.

Lemma fromLoop_same_file file :
  (forall n, notBeforeEpoch Date_parse (Some (now n)) = true) ->
  truthy file = true ->
  forall vs y j k res,
  recordOf file y -> Forall (recordOf file) vs ->
  fromLoop Date_parse now false k ([taskFromVault y 1 (now j)], res) vs =
  ([taskFromVault (List.last vs y) 1
      (now (match vs with [] => j | _ => k + length vs - 1 end)%nat)],
   {| updated := length vs + updated res; created := created res;
      conflicts := conflicts res; errors := errors res |}).
Proof.
  intros Hnow Hfile. induction vs as [|x r IH]; intros y j k res Hy Hvs.
  - destruct res; reflexivity.
  - inversion Hvs as [|? ? Hx Hr]; subst.
    rewrite fromLoop_cons, (fromStep_same_file file y j k res x Hnow Hfile Hy Hx).
    rewrite (IH x k (S k) (incUpdated res) Hx Hr).
    f_equal.
    + f_equal.
      rewrite (last_cons_default r x y).
      f_equal. f_equal. destruct r; cbn [length]; lia.
    + cbn [incUpdated updated created conflicts errors length]. f_equal. lia.
Qed.

Lemma fromLoop_dry_empty : forall vs k res,
  fromLoop Date_parse now true k ([], res) vs =
  ([], {| updated := updated res; created := length vs + created res;
          conflicts := conflicts res; errors := errors res |}).
Proof.
  induction vs as [|x r IH]; intros k res.
  - destruct res; reflexivity.
  - rewrite fromLoop_cons. unfold fromStep. cbn [findIndexed findFrom].
    rewrite IH. cbn [incCreated updated created conflicts errors length].
    f_equal. f_equal. lia.
Qed.

(** X18. On an empty store, the records that the extractor reads from one
    file end as a single stored task: [syncTasksFromObsidian] creates a
    task for the first record and, because the lookup also matches by
    source file, overwrites it with each later record of the file; the
    store written holds one task, with id 1 and the fields of the file's
    last record, while the dry run of the same pass announces a creation
    for every record. *)
Theorem same_file_records_merge (file : string) (v : vaultTask) (vs : list vaultTask) :
  (forall n, notBeforeEpoch Date_parse (Some (now n)) = true) ->
  truthy file = true ->
  Forall (recordOf file) (v :: vs) ->
  syncTasksFromObsidian Date_parse now false None (v :: vs) =
  {| tally := {| updated := length vs; created := 1; conflicts := 0; errors := [] |};
     written := Some [taskFromVault (List.last vs v) 1 (now (length vs))] |}
  /\
  syncTasksFromObsidian Date_parse now true None (v :: vs) =
  {| tally := {| updated := 0; created := S (length vs); conflicts := 0;
                 errors := [] |};
     written := None |}.
Proof.
  intros Hnow Hfile Hall. inversion Hall as [|? ? Hv Hvs]; subst. split.
  - unfold syncTasksFromObsidian. rewrite fromLoop_cons.
    assert (fromStep Date_parse now false 0 ([], noResults) v =
            ([taskFromVault v 1 (now 0%nat)], incCreated noResults)) as -> by reflexivity.
    rewrite (fromLoop_same_file file Hnow Hfile vs v 0%nat 1%nat _ Hv Hvs).
    cbn [incCreated noResults updated created conflicts errors negb andb orb Nat.ltb
         Nat.leb].
    f_equal.
    + f_equal. lia.
    + destruct vs as [|a l]; [reflexivity|].
      replace (1 + length (a :: l) - 1)%nat with (length (a :: l)) by lia.
      reflexivity.
  - unfold syncTasksFromObsidian. rewrite fromLoop_dry_empty.
    cbn [noResults updated created conflicts errors negb andb length].
    f_equal. f_equal. lia.
Qed.

End OneFile.

Lemma same_file_records_merge_witness :
  written (syncTasksFromObsidian Iso.parse Examples.clock false None
             (extractTasksFromVault
                [("plan.md", Some ("- [ ] Setup" +:+ nl +:+ "- [x] Write docs"))])) =
  Some [taskFromVault
          {| v_title := "Write docs"; v_status := "done"; v_sourceFile := "plan.md";
             v_description := "Write docs"; v_priority := "medium";
             v_dependencies := []; v_obsidianTags := []; v_linkedNotes := [];
             v_details := ""; v_testStrategy := ""; v_lastModified := None;
             v_lastSyncAt := None |} 1 (Examples.clock 1%nat)].
Proof.
  change (extractTasksFromVault
            [("plan.md", Some ("- [ ] Setup" +:+ nl +:+ "- [x] Write docs"))])
    with [ {| v_title := "Setup"; v_status := "pending"; v_sourceFile := "plan.md";
              v_description := "Setup"; v_priority := "medium";
              v_dependencies := []; v_obsidianTags := []; v_linkedNotes := [];
              v_details := ""; v_testStrategy := ""; v_lastModified := None;
              v_lastSyncAt := None |};
           {| v_title := "Write docs"; v_status := "done"; v_sourceFile := "plan.md";
              v_description := "Write docs"; v_priority := "medium";
              v_dependencies := []; v_obsidianTags := []; v_linkedNotes := [];
              v_details := ""; v_testStrategy := ""; v_lastModified := None;
              v_lastSyncAt := None |} ].
  destruct (same_file_records_merge Iso.parse Examples.clock "plan.md"
              {| v_title := "Setup"; v_status := "pending"; v_sourceFile := "plan.md";
                 v_description := "Setup"; v_priority := "medium";
                 v_dependencies := []; v_obsidianTags := []; v_linkedNotes := [];
                 v_details := ""; v_testStrategy := ""; v_lastModified := None;
                 v_lastSyncAt := None |}
              [ {| v_title := "Write docs"; v_status := "done";
                   v_sourceFile := "plan.md";
                   v_description := "Write docs"; v_priority := "medium";
                   v_dependencies := []; v_obsidianTags := []; v_linkedNotes := [];
                   v_details := ""; v_testStrategy := ""; v_lastModified := None;
                   v_lastSyncAt := None |} ]) as [H _].
  - intros n. vm_compute. reflexivity.
  - reflexivity.
  - repeat constructor.
  - rewrite H. reflexivity.
Defined.
